(** * mdmath.nvim: the equation processor ([mdmath-js/src/processor.js])

    A shallow embedding of the render service and the properties its
    specification states about it.

    Modelling conventions.
    - A JavaScript string is a [string]: a sequence of code units, here the
      code units below 256.  [String.length] is the [.length] property.
    - A JavaScript number is an IEEE 754 binary64 value ([Double.float], the
      [spec_float] of the standard library at precision 53): a signed zero, a
      finite value [m * 2 ^ e], an infinity or NaN.  The products and
      quotients of the processor are the binary64 operations, rounded to
      nearest, ties to even, in the order the source evaluates them.  The
      doubles are the values for which [valid_binary] holds; the operations
      keep them so, and what is stated of every [Double.float] holds of them.
    - The numeric fields of a render request (cell size, span, flags) and the
      pixel dimensions of a PNG are integers ([Z]); where the processor
      computes with one it is the double of that integer ([Double.of_Z]).
      The two scale factors, the zoom, the final spans and the pixel targets
      are doubles.
    - Objects used as dictionaries ([equationMap], [svgCache]) are [gmap]s
      of own properties; the [in] operator and the property read also see
      the properties inherited from [Object.prototype].
    - The collaborators (MathJax, rsvg-convert, the PNG tools) are
      functions over an abstract [World]; a call either returns or throws an
      [Error] object.  Every call is recorded in a trace.
    - A request handler runs to completion before the next request is
      dispatched: the interleaving of handlers at their [await]s is not part
      of this model. *)

From Stdlib Require Import Ascii String ZArith QArith Qround Lia SpecFloat.
From stdpp Require Import gmap strings list fin_maps pretty.

Open Scope string_scope.
Open Scope list_scope.

(* ===================================================================== *)
(** ** JavaScript strings *)
(* ===================================================================== *)

Module Js.

(** [`${n}`] for an integer: decimal digits, a leading minus sign for
    negative values (the rendering of the integers up to 2^53 in magnitude,
    which a double holds one by one). *)
Definition Number_toString (n : Z) : string := pretty n.

(** The code units [String.prototype.trim] removes (WhiteSpace and
    LineTerminator productions, restricted to code units below 256). *)
Definition isWhiteSpace (c : ascii) : bool :=
  match c with
  | "009" | "010" | "011" | "012" | "013" | " " | "160" => true
  | _ => false
  end%char.

Fixpoint trimStart (s : string) : string :=
  match s with
  | "" => ""
  | String c s' => if isWhiteSpace c then trimStart s' else s
  end.

Definition trimEnd (s : string) : string :=
  String.rev (trimStart (String.rev s)).

(** [s.trim()] *)
Definition trim (s : string) : string := trimEnd (trimStart s).

(** [s.slice(0, n)] for a non-negative [n]. *)
Fixpoint slice0 (n : nat) (s : string) : string :=
  match n, s with
  | S n', String c s' => String c (slice0 n' s')
  | _, _ => ""
  end.

(** [s.startsWith(p)] *)
Fixpoint startsWith (p s : string) : bool :=
  match p, s with
  | "", _ => true
  | String a p', String b s' => if Ascii.eqb a b then startsWith p' s' else false
  | String _ _, "" => false
  end.

(** Drop the first [n] code units. *)
Fixpoint drop (n : nat) (s : string) : string :=
  match n, s with
  | S n', String _ s' => drop n' s'
  | _, _ => s
  end.

(** The property names every plain object inherits from
    [Object.prototype]. *)
Definition Object_prototype_keys : list string :=
  [ "constructor"; "__defineGetter__"; "__defineSetter__"; "hasOwnProperty";
    "__lookupGetter__"; "__lookupSetter__"; "isPrototypeOf";
    "propertyIsEnumerable"; "toString"; "valueOf"; "__proto__";
    "toLocaleString" ].

Definition inherited (k : string) : bool :=
  bool_decide (k ∈ Object_prototype_keys).

(** [k in o] for a plain object [o] whose own properties are [m]. *)
Definition has {V} (m : gmap string V) (k : string) : bool :=
  bool_decide (is_Some (m !! k)) || inherited k.

(** The value of [o[k]]. *)
Inductive Value (V : Type) : Type :=
  | Own (v : V)      (* an own property, stored by the program *)
  | Builtin          (* a member of [Object.prototype] *)
  | Undefined.
Arguments Own {V} v.
Arguments Builtin {V}.
Arguments Undefined {V}.

Definition get {V} (m : gmap string V) (k : string) : Value V :=
  match m !! k with
  | Some v => Own v
  | None => if inherited k then Builtin else Undefined
  end.

End Js.

(* ===================================================================== *)
(** ** JavaScript numbers *)
(* ===================================================================== *)

Module Double.

Definition float : Type := spec_float.
Definition prec : Z := 53.
Definition emax : Z := 1024.

Definition NaN : float := S754_nan.

(** The double of an integer: the integer itself when a double holds it,
    as every integer up to 2^53 in magnitude, and the nearest double
    otherwise. *)
Definition of_Z (n : Z) : float := binary_normalize prec emax n 0 false.

(** [x * y] and [x / y]. *)
Definition mul (x y : float) : float := SFmul prec emax x y.
Definition div (x y : float) : float := SFdiv prec emax x y.

(** [x < y] and [x <= y]; both are false when an operand is NaN. *)
Definition ltb (x y : float) : bool := SFltb x y.
Definition leb (x y : float) : bool := SFleb x y.

Definition isNaN (x : float) : bool :=
  match x with S754_nan => true | _ => false end.

(** [Math.ceil(x)]: NaN, the infinities, the zeros and the integral values
    are returned as they are; a value between -1 and 0 gives the negative
    zero.  A value with a negative exponent is below 2^53 in magnitude, so
    the double holds its ceiling. *)
Definition ceil (x : float) : float :=
  match x with
  | S754_finite s m e =>
      if (0 <=? e)%Z then x
      else
        let c := if s then (- (Zpos m / 2 ^ (- e)))%Z
                 else (- (Zneg m / 2 ^ (- e)))%Z in
        if (c =? 0)%Z then S754_zero s else of_Z c
  | _ => x
  end.

(** [Math.max(x, y)]: NaN when an argument is NaN; the positive zero is
    above the negative zero. *)
Definition max (x y : float) : float :=
  if isNaN x || isNaN y then NaN
  else match x, y with
       | S754_zero true, S754_zero false => y
       | _, _ => if ltb x y then y else x
       end.

(** The integer a double holds, when its value is integral. *)
Definition toZ (x : float) : option Z :=
  match x with
  | S754_zero _ => Some 0%Z
  | S754_finite s m e =>
      if (0 <=? e)%Z then Some (cond_Zopp s (Zpos m * 2 ^ e))%Z
      else if (Zpos m mod 2 ^ (- e) =? 0)%Z
           then Some (cond_Zopp s (Zpos m / 2 ^ (- e)))%Z
           else None
  | _ => None
  end.

(** The value of a finite double, as a rational. *)
Definition toQ (x : float) : option Q :=
  match x with
  | S754_zero _ => Some 0%Q
  | S754_finite s m e =>
      Some (if (0 <=? e)%Z then inject_Z (cond_Zopp s (Zpos m * 2 ^ e))
            else Qmake (cond_Zopp s (Zpos m)) (Z.to_pos (2 ^ (- e))))
  | _ => None
  end.

End Double.

Arguments Double.of_Z : simpl never.
Arguments Double.mul : simpl never.
Arguments Double.div : simpl never.
Arguments Double.ceil : simpl never.
Arguments Double.max : simpl never.

(* ===================================================================== *)
(** ** Predicates on strings *)
(* ===================================================================== *)

(** Every code unit of [s] satisfies [P]. *)
Fixpoint every (P : ascii → bool) (s : string) : bool :=
  match s with
  | "" => true
  | String c s' => P c && every P s'
  end.

(** The code unit [c] occurs in [s]. *)
Fixpoint occurs (c : ascii) (s : string) : bool :=
  match s with
  | "" => false
  | String d s' => Ascii.eqb c d || occurs c s'
  end.

(** [s.includes(pat)] *)
Fixpoint contains (pat s : string) : bool :=
  Js.startsWith pat s ||
  match s with
  | "" => false
  | String _ s' => contains pat s'
  end.

(** [pieces.join(sep)] *)
Fixpoint join (sep : string) (pieces : list string) : string :=
  match pieces with
  | [] => ""
  | [piece] => piece
  | piece :: rest => piece +:+ sep +:+ join sep rest
  end.

(** The code units of a printed integer. *)
Definition numeric (c : ascii) : bool :=
  match c with
  | "0" | "1" | "2" | "3" | "4" | "5" | "6" | "7" | "8" | "9" | "-" => true
  | _ => false
  end%char.

(** The code units of a printed number: digits, the signs, the point, the
    exponent mark, and the letters of [NaN] and [Infinity]. *)
Definition numberChar (c : ascii) : bool :=
  numeric c ||
  match c with
  | "+" | "." | "e" | "N" | "a" | "I" | "n" | "f" | "i" | "t" | "y" => true
  | _ => false
  end%char.

(* ===================================================================== *)
(** ** String.prototype.replace, as the processor uses it *)
(* ===================================================================== *)

Module Replace.

Definition dollar : ascii := "$"%char.
Definition dquote : ascii := "034"%char.

(** GetSubstitution of ECMA-262 for a pattern without capture groups:
    [$$] is a dollar sign, [$&] the matched text, [$`] the text before the
    match, [$'] the text after it; every other code unit stands for itself
    (a [$] followed by a digit or by [<] too, there being no group to refer
    to). *)
Fixpoint GetSubstitution (matched before after replacement : string) : string :=
  match replacement with
  | "" => ""
  | String c rest =>
      if Ascii.eqb c dollar then
        match rest with
        | String d rest' =>
            if Ascii.eqb d dollar then
              String dollar (GetSubstitution matched before after rest')
            else if Ascii.eqb d "&" then
              matched +:+ GetSubstitution matched before after rest'
            else if Ascii.eqb d "`" then
              before +:+ GetSubstitution matched before after rest'
            else if Ascii.eqb d "'" then
              after +:+ GetSubstitution matched before after rest'
            else String c (GetSubstitution matched before after rest)
        | "" => String c ""
        end
      else String c (GetSubstitution matched before after rest)
  end.

(** [str.replace(/pat/g, replacement)] for a pattern [pat] that is a
    non-empty literal: the matches are found left to right, each search
    resuming after the previous match.  [before] is the part of the subject
    already scanned, [skip] the number of code units still covered by the
    match in progress. *)
Fixpoint replaceAll_go (pat replacement before : string) (skip : nat) (s : string)
  : string :=
  match s with
  | "" => ""
  | String c s' =>
      match skip with
      | S k => replaceAll_go pat replacement (before +:+ String c "") k s'
      | O =>
          if Js.startsWith pat s then
            GetSubstitution pat before (Js.drop (String.length pat) s) replacement
              +:+ replaceAll_go pat replacement (before +:+ String c "")
                    (String.length pat - 1) s'
          else String c (replaceAll_go pat replacement (before +:+ String c "") 0 s')
      end
  end.

Definition replaceAll (pat replacement s : string) : string :=
  replaceAll_go pat replacement "" 0 s.

(** The number of leading code units of [s] other than a double quote. *)
Fixpoint spanNotQuote (s : string) : nat :=
  match s with
  | String c s' => if Ascii.eqb c dquote then O else S (spanNotQuote s')
  | "" => O
  end.

Definition style_open : string := "style=" +:+ String dquote "".

(** The length of the match of the style pattern (the text [style=], a
    double quote, one or more code units other than a double quote, a
    double quote) anchored at the start of [s], if there is one. *)
Definition matchStyleAt (s : string) : option nat :=
  if Js.startsWith style_open s then
    let body := Js.drop (String.length style_open) s in
    let n := spanNotQuote body in
    match n, Js.drop n body with
    | S _, String _ _ => Some (String.length style_open + n + 1)
    | _, _ => None
    end
  else None.

(** [str.replace(style pattern, empty string)]: without the [g] flag only
    the leftmost match is replaced. *)
Fixpoint stripStyle (s : string) : string :=
  match s with
  | "" => ""
  | String c s' =>
      match matchStyleAt s with
      | Some n => Js.drop n s
      | None => String c (stripStyle s')
      end
  end.

End Replace.

(* ===================================================================== *)
(** ** The processor's data *)
(* ===================================================================== *)

(** A thrown value: an [Error] object with its message.  [MathError] is the
    subclass the MathJax [formatError] hook throws for malformed input. *)
Inductive Thrown : Type :=
  | MathError (message : string)
  | Error (message : string).

Definition message (err : Thrown) : string :=
  match err with MathError m | Error m => m end.

(** [err instanceof MathError] *)
Definition instanceof_MathError (err : Thrown) : bool :=
  match err with MathError _ => true | Error _ => false end.

(** The outcome of a call: it returns a value or throws (for a promise:
    fulfilled or rejected). *)
Inductive Result (A : Type) : Type :=
  | Returned (a : A)
  | Raised (err : Thrown).
Arguments Returned {A} a.
Arguments Raised {A} err.

(** The TypeError of reading a property of [undefined]. *)
Definition TypeError_reading (property : string) : Thrown :=
  Error ("Cannot read properties of undefined (reading '" +:+ property +:+ "')").

(** The TypeError of destructuring [undefined]. *)
Definition TypeError_destructure : Thrown :=
  Error "Cannot destructure property 'svg' of '(intermediate value)' as it is undefined.".

(** The entries of [equations] and [equationMap]:
    [{equation, filename, width, height}]. *)
Record Equation : Type := mkEquation {
  eq_equation : string;
  eq_filename : string;
  eq_width : Double.float;
  eq_height : Double.float
}.

(** The entries of [svgCache]: [{svg}] or [{error}]. *)
Inductive TypesetResult : Type :=
  | SvgOf (svg : string)
  | ErrorOf (error : string).

(** The second argument of [rsvgConvert]: [{zoom}] or [{width, height}]. *)
Inductive RsvgArgs : Type :=
  | ByZoom (zoom : Double.float)
  | BySize (width height : Double.float).

(** A decoded request, by its [type]: ['request'], ['dscale'], ['iscale'],
    or anything else. *)
Inductive Request : Type :=
  | Req_request (identifier data : string)
      (cellWidth cellHeight width height flags : Z) (color : string)
  | Req_dscale (scale : Double.float)
  | Req_iscale (scale : Double.float)
  | Req_other.

(** The calls made to the collaborators, in the order they are made.  A
    call of [pngFitTo] records whether it returned, that is whether the
    file was written. *)
Inductive Event : Type :=
  | Ev_tex2svg (equation : string)
  | Ev_rsvgConvert (svg : string) (args : RsvgArgs)
  | Ev_pngDimensions
  | Ev_pngFitTo (filename : string) (iWidth iHeight : Double.float)
      (center written : bool).

Definition isTypesetterCall (e : Event) : bool :=
  match e with Ev_tex2svg _ => true | _ => false end.

Definition isRasterizerCall (e : Event) : bool :=
  match e with
  | Ev_rsvgConvert _ _ | Ev_pngDimensions | Ev_pngFitTo _ _ _ _ _ => true
  | Ev_tex2svg _ => false
  end.

(** What the processor imports and what its environment fixes: MathJax
    ([tex2svg] is [tex2svgPromise] followed by the adaptor's [innerHTML]),
    [magick.js], [util.js], the workspace directory (its suffix is random)
    and the engine's rendering of a number that is not an integer below
    2^53 in magnitude (the shortest decimal that reads back as the number,
    with an exponent from 10^21 on), of which only the code units are
    known here: digits, signs, the point and the exponent mark. *)
Class Collaborators : Type := {
  World : Type;
  Buffer : Type;
  tex2svg : string → World → Result string * World;
  rsvgConvert : string → RsvgArgs → World → Result Buffer * World;
  pngDimensions : Buffer → World → Result (Z * Z) * World;
  pngFitTo : Buffer → string → Double.float → Double.float → bool → World
             → Result unit * World;
  sha256Hash : string → string;
  IMG_DIR : string;
  Number_toString_engine : Double.float → string;
  Number_toString_engine_chars :
    ∀ x, every numberChar (Number_toString_engine x) = true
}.

(** [`${x}`] for a number: [NaN], [Infinity], [-Infinity]; the decimal
    digits of an integer below 2^53 in magnitude, both zeros printing as
    [0]; the engine's rendering otherwise. *)
Definition Number_toString `{Collaborators} (x : Double.float) : string :=
  match x with
  | S754_nan => "NaN"
  | S754_infinity false => "Infinity"
  | S754_infinity true => "-Infinity"
  | _ =>
      match Double.toZ x with
      | Some n => if (Z.abs n <? 2 ^ 53)%Z then Js.Number_toString n
                  else Number_toString_engine x
      | None => Number_toString_engine x
      end
  end.

(** The module's variables, the standard output and the trace of calls. *)
Record State `{Collaborators} : Type := mkState {
  equations : list Equation;
  equationMap : gmap string Equation;
  svgCache : gmap string TypesetResult;
  internalScale : Double.float;
  dynamicScale : Double.float;
  stdout : list string;
  trace : list Event;
  world : World
}.

(** The state when [main] starts listening. *)
Definition initial `{Collaborators} (w : World) : State :=
  {| equations := []; equationMap := ∅; svgCache := ∅;
     internalScale := Double.of_Z 1; dynamicScale := Double.of_Z 1;
     stdout := []; trace := []; world := w |}.

(* ===================================================================== *)
(** ** Computations: state and exceptions *)
(* ===================================================================== *)

Definition M `{Collaborators} (A : Type) : Type := State → Result A * State.

Definition ret `{Collaborators} {A} (a : A) : M A := λ st, (Returned a, st).

Definition throw `{Collaborators} {A} (err : Thrown) : M A := λ st, (Raised err, st).

Definition bind `{Collaborators} {A B} (m : M A) (k : A → M B) : M B :=
  λ st, match m st with
        | (Returned a, st') => k a st'
        | (Raised err, st') => (Raised err, st')
        end.

(** [try { m } catch (err) { handler }], and [promise.catch(handler)]. *)
Definition catch `{Collaborators} {A} (m : M A) (handler : Thrown → M A) : M A :=
  λ st, match m st with
        | (Returned a, st') => (Returned a, st')
        | (Raised err, st') => handler err st'
        end.

Definition gets `{Collaborators} {A} (f : State → A) : M A := λ st, (Returned (f st), st).

Definition modify `{Collaborators} (f : State → State) : M unit := λ st, (Returned tt, f st).

Declare Scope proc_scope.
Delimit Scope proc_scope with proc.
Notation "'let*' x ':=' m 'in' k" := (bind m (λ x, k))
  (at level 10, x name, m at level 100, k at level 200) : proc_scope.
Notation "'let*' ' pat ':=' m 'in' k" := (bind m (λ x, match x with pat => k end))
  (at level 10, pat pattern, m at level 100, k at level 200) : proc_scope.
Notation "m ;; k" := (bind m (λ _, k))
  (at level 100, k at level 200, right associativity) : proc_scope.

(** The state after a call to a collaborator: the call is recorded and the
    world is the one the call leaves. *)
Definition recorded `{Collaborators} (ev : Event) (w : World) (st : State) : State :=
  {| equations := equations st; equationMap := equationMap st;
     svgCache := svgCache st;
     internalScale := internalScale st; dynamicScale := dynamicScale st;
     stdout := stdout st; trace := trace st ++ [ev]; world := w |}.

(** The state after [process.stdout.write(chunk)]. *)
Definition written `{Collaborators} (chunk : string) (st : State) : State :=
  {| equations := equations st; equationMap := equationMap st;
     svgCache := svgCache st;
     internalScale := internalScale st; dynamicScale := dynamicScale st;
     stdout := stdout st ++ [chunk]; trace := trace st; world := world st |}.

(** The state after [svgCache[equation] = result]. *)
Definition typeset_cached `{Collaborators} (equation : string) (result : TypesetResult)
    (st : State) : State :=
  {| equations := equations st; equationMap := equationMap st;
     svgCache := <[equation := result]> (svgCache st);
     internalScale := internalScale st; dynamicScale := dynamicScale st;
     stdout := stdout st; trace := trace st; world := world st |}.

(** The state after
    [equations.push(equationObj); equationMap[equation_key] = equationObj]. *)
Definition stored `{Collaborators} (equation_key : string) (equationObj : Equation)
    (st : State) : State :=
  {| equations := equations st ++ [equationObj];
     equationMap := <[equation_key := equationObj]> (equationMap st);
     svgCache := svgCache st;
     internalScale := internalScale st; dynamicScale := dynamicScale st;
     stdout := stdout st; trace := trace st; world := world st |}.

(** The state after [dynamicScale = scale]. *)
Definition with_dynamicScale `{Collaborators} (scale : Double.float) (st : State)
  : State :=
  {| equations := equations st; equationMap := equationMap st;
     svgCache := svgCache st;
     internalScale := internalScale st; dynamicScale := scale;
     stdout := stdout st; trace := trace st; world := world st |}.

(** The state after [internalScale = scale]. *)
Definition with_internalScale `{Collaborators} (scale : Double.float) (st : State)
  : State :=
  {| equations := equations st; equationMap := equationMap st;
     svgCache := svgCache st;
     internalScale := scale; dynamicScale := dynamicScale st;
     stdout := stdout st; trace := trace st; world := world st |}.

(** A call to a collaborator: it acts on the world and is recorded. *)
Definition call `{Collaborators} {A}
    (f : World → Result A * World) (ev : Result A → Event) : M A :=
  λ st, let '(r, w') := f (world st) in (r, recorded (ev r) w' st).

Definition succeeded {A} (r : Result A) : bool :=
  match r with Returned _ => true | Raised _ => false end.

Definition stdout_write `{Collaborators} (chunk : string) : M unit :=
  modify (written chunk).

Definition svgCache_set `{Collaborators} (equation : string) (result : TypesetResult)
  : M unit :=
  modify (typeset_cached equation result).

Definition store `{Collaborators} (equation_key : string) (equationObj : Equation)
  : M unit :=
  modify (stored equation_key equationObj).

Definition set_dynamicScale `{Collaborators} (scale : Double.float) : M unit :=
  modify (with_dynamicScale scale).

Definition set_internalScale `{Collaborators} (scale : Double.float) : M unit :=
  modify (with_internalScale scale).

(* ===================================================================== *)
(** ** The processor's functions *)
(* ===================================================================== *)

(** The key of [equationMap]:
    [`${equation}_${cWidth}*${width}x${cHeight}*${height}_${flags}_${color}`]. *)
Definition equation_key (equation : string) (cWidth width cHeight height flags : Z)
    (color : string) : string :=
  equation +:+ "_" +:+ Js.Number_toString cWidth +:+ "*" +:+ Js.Number_toString width
    +:+ "x" +:+ Js.Number_toString cHeight +:+ "*" +:+ Js.Number_toString height
    +:+ "_" +:+ Js.Number_toString flags +:+ "_" +:+ color.

(** The chunk [write] sends:
    [`${identifier}:image:${width}:${height}:${data.length}:${data}`]. *)
Definition image_frame `{Collaborators} (identifier : string)
    (width height : Double.float) (data : string) : string :=
  identifier +:+ ":image:" +:+ Number_toString width +:+ ":"
    +:+ Number_toString height +:+ ":"
    +:+ Js.Number_toString (Z.of_nat (String.length data)) +:+ ":" +:+ data.

(** The chunk [writeError] sends:
    [`${identifier}:error:0:0:${error.length}:${error}`]. *)
Definition error_frame (identifier error : string) : string :=
  identifier +:+ ":error:0:0:"
    +:+ Js.Number_toString (Z.of_nat (String.length error)) +:+ ":" +:+ error.

(** [!equation || equation.trim().length === 0] *)
Definition isBlank (equation : string) : bool :=
  match equation with "" => true | _ => false end
  || (String.length (Js.trim equation) =? 0)%nat.

(** The [svg] and [error] of [let {svg, error} = value]; a member of
    [Object.prototype] has neither property. *)
Definition field_svg (value : Js.Value TypesetResult) : option string :=
  match value with Js.Own (SvgOf svg) => Some svg | _ => None end.

Definition field_error (value : Js.Value TypesetResult) : option string :=
  match value with Js.Own (ErrorOf error) => Some error | _ => None end.

(** [!svg] holds of [undefined] and of the empty string. *)
Definition falsy (svg : option string) : bool :=
  match svg with None | Some "" => true | Some _ => false end.

(** [svg.replace(/currentColor/g, color)] followed by the replacement of
    the style pattern by the empty string. *)
Definition recolor (color svg : string) : string :=
  Replace.stripStyle (Replace.replaceAll "currentColor" color svg).

(** [!!(flags & bit)] *)
Definition flag (flags bit : Z) : bool := negb (Z.land flags bit =? 0)%Z.

(** The physical dimension [span * cell * internalScale]: the product of
    [span] and [cell], rounded, times [internalScale], rounded. *)
Definition physical (span : Double.float) (cell : Z) (scale : Double.float)
  : Double.float :=
  Double.mul (Double.mul span (Double.of_Z cell)) scale.

(** [10 * dynamicScale * cHeight * internalScale / 96], from left to
    right. *)
Definition zoomOf (dynamicScale : Double.float) (cHeight : Z)
    (internalScale : Double.float) : Double.float :=
  Double.div
    (Double.mul (Double.mul (Double.mul (Double.of_Z 10) dynamicScale)
                   (Double.of_Z cHeight))
       internalScale)
    (Double.of_Z 96).

(** [Math.max(span, Math.ceil((png / internalScale) / cell))] *)
Definition fitSpan (span png : Z) (internalScale : Double.float) (cell : Z)
  : Double.float :=
  Double.max (Double.of_Z span)
    (Double.ceil (Double.div (Double.div (Double.of_Z png) internalScale)
                    (Double.of_Z cell))).

Section Processor.
Context `{Collaborators}.
Local Open Scope proc_scope.

Definition equationToSVG (equation : string) : M (Js.Value TypesetResult) :=
  let* cache := gets svgCache in
  if Js.has cache equation then ret (Js.get cache equation)
  else
    catch
      (let* svg := call (tex2svg equation) (λ _, Ev_tex2svg equation) in
       svgCache_set equation (SvgOf svg) ;;
       ret (Js.Own (SvgOf svg)))
      (λ err,
         if instanceof_MathError err then
           svgCache_set equation (ErrorOf (message err)) ;;
           ret (Js.Own (ErrorOf (message err)))
         else throw err).

Definition write (identifier : string) (width height : Double.float) (data : string)
  : M unit :=
  stdout_write (image_frame identifier width height data).

(** [error] may be [undefined]; reading its [length] then throws. *)
Definition writeError (identifier : string) (error : option string) : M unit :=
  match error with
  | Some error => stdout_write (error_frame identifier error)
  | None => throw (TypeError_reading "length")
  end.

(** The file name
    [`${IMG_DIR}/${hash}_${iWidth}x${iHeight}.png`] with
    [hash = sha256Hash(equation).slice(0, 7)]. *)
Definition filenameOf (equation : string) (iWidth iHeight : Double.float) : string :=
  IMG_DIR +:+ "/" +:+ Js.slice0 7 (sha256Hash equation) +:+ "_"
    +:+ Number_toString iWidth +:+ "x" +:+ Number_toString iHeight +:+ ".png".

(** The two sizing modes: the base raster, the final span in cells and the
    physical target in pixels. *)
Definition rasterize (svg : string) (cWidth cHeight width height flags : Z)
  : M (Buffer * Double.float * Double.float * Double.float * Double.float) :=
  if flag flags 1 then
    let* dScale := gets dynamicScale in
    let* iScale := gets internalScale in
    let zoom := zoomOf dScale cHeight iScale in
    let* basePNG := call (rsvgConvert svg (ByZoom zoom))
                      (λ _, Ev_rsvgConvert svg (ByZoom zoom)) in
    let* '(pngWidth, pngHeight) :=
      call (pngDimensions basePNG) (λ _, Ev_pngDimensions) in
    let* iScale := gets internalScale in
    let width := fitSpan width pngWidth iScale cWidth in
    let height := fitSpan height pngHeight iScale cHeight in
    ret (basePNG, width, height,
         physical width cWidth iScale, physical height cHeight iScale)
  else
    let* iScale := gets internalScale in
    let width := Double.of_Z width in
    let height := Double.of_Z height in
    let iWidth := physical width cWidth iScale in
    let iHeight := physical height cHeight iScale in
    let* basePNG := call (rsvgConvert svg (BySize iWidth iHeight))
                      (λ _, Ev_rsvgConvert svg (BySize iWidth iHeight)) in
    ret (basePNG, width, height, iWidth, iHeight).

Definition processEquation (identifier equation : string)
    (cWidth cHeight width height flags : Z) (color : string) : M unit :=
  if isBlank equation then writeError identifier (Some "Empty equation")
  else
    let equation_key := equation_key equation cWidth width cHeight height flags color in
    let* cached := gets equationMap in
    if Js.has cached equation_key then
      match Js.get cached equation_key with
      | Js.Own equationObj =>
          write identifier (eq_width equationObj) (eq_height equationObj)
            (eq_filename equationObj)
      | Js.Builtin => throw (TypeError_reading "length")
      | Js.Undefined => throw (TypeError_reading "width")
      end
    else
      let* value := equationToSVG equation in
      match value with
      | Js.Undefined => throw TypeError_destructure
      | _ =>
          if falsy (field_svg value) then writeError identifier (field_error value)
          else
            let svg := recolor color (default "" (field_svg value)) in
            let* '(basePNG, width, height, iWidth, iHeight) :=
              rasterize svg cWidth cHeight width height flags in
            let isCenter := flag flags 2 in
            let filename := filenameOf equation iWidth iHeight in
            call (pngFitTo basePNG filename iWidth iHeight isCenter)
              (λ r, Ev_pngFitTo filename iWidth iHeight isCenter (succeeded r)) ;;
            store equation_key (mkEquation equation filename width height) ;;
            write identifier width height filename
      end.

(** The value of the promise [processAll] returns for a render request: a
    rejection of [processEquation] is handled by writing an error frame; a
    rejection of the handler itself would be left unhandled. *)
Definition processAll (request : Request) : M unit :=
  match request with
  | Req_request identifier data cellWidth cellHeight width height flags color =>
      catch
        (processEquation identifier data cellWidth cellHeight width height flags color)
        (λ err, writeError identifier (Some (message err)))
  | Req_dscale scale => set_dynamicScale scale
  | Req_iscale scale => set_internalScale scale
  | Req_other => ret tt
  end.

(** The requests the reader delivers, one after the other; an unhandled
    rejection ends the service. *)
Fixpoint serve (requests : list Request) (st : State) : Result unit * State :=
  match requests with
  | [] => (Returned tt, st)
  | request :: rest =>
      match processAll request st with
      | (Returned _, st') => serve rest st'
      | (Raised err, st') => (Raised err, st')
      end
  end.

End Processor.

(* ===================================================================== *)
(** ** How a request ends *)
(* ===================================================================== *)

(** A call of [pngFitTo] for [filename] returned: the file was written. *)
Definition fileWritten (filename : string) (tr : list Event) : bool :=
  existsb (λ ev, match ev with
                 | Ev_pngFitTo f _ _ _ true => String.eqb f filename
                 | _ => false
                 end) tr.

(** From [st] to [st'] nothing was written to the standard output, nothing
    was stored in [equations] or [equationMap], the scales were not
    assigned, and the trace only grew. *)
Definition Quiet `{Collaborators} (st st' : State) : Prop :=
  equations st' = equations st ∧ equationMap st' = equationMap st ∧
  internalScale st' = internalScale st ∧ dynamicScale st' = dynamicScale st ∧
  stdout st' = stdout st ∧ ∃ new, trace st' = trace st ++ new.

(** The ways [processEquation] ends for the request [identifier] whose key
    is [key]: an error frame, a rejection, the cached entry, a fresh
    entry. *)
Inductive Ends `{Collaborators} (identifier key : string) (st : State)
  : Result unit → State → Prop :=
  | Ends_error st0 msg :
      Quiet st st0 →
      Ends identifier key st (Returned tt) (written (error_frame identifier msg) st0)
  | Ends_raised st0 err :
      Quiet st st0 →
      Ends identifier key st (Raised err) st0
  | Ends_hit e :
      equationMap st !! key = Some e →
      Ends identifier key st (Returned tt)
        (written (image_frame identifier (eq_width e) (eq_height e) (eq_filename e)) st)
  | Ends_fresh st0 e :
      equationMap st !! key = None →
      Quiet st st0 →
      fileWritten (eq_filename e) (trace st0) = true →
      Ends identifier key st (Returned tt)
        (written (image_frame identifier (eq_width e) (eq_height e) (eq_filename e))
           (stored key e st0)).

(** Every entry of [equations] and of [equationMap] names a file that a
    call of [pngFitTo] wrote. *)
Definition EntriesWritten `{Collaborators} (st : State) : Prop :=
  (∀ e, e ∈ equations st → fileWritten (eq_filename e) (trace st) = true) ∧
  (∀ key e, equationMap st !! key = Some e →
            fileWritten (eq_filename e) (trace st) = true).

(** A recorded call asks for exactly [iWidth] by [iHeight] pixels: a call
    of [rsvgConvert] by size, a call of [pngFitTo]; a call of the Typesetter
    carries no size. *)
Definition sizedAs (iWidth iHeight : Double.float) (ev : Event) : Prop :=
  match ev with
  | Ev_tex2svg _ => True
  | Ev_rsvgConvert _ args => args = BySize iWidth iHeight
  | Ev_pngDimensions => False
  | Ev_pngFitTo _ w h _ _ => w = iWidth ∧ h = iHeight
  end.

(* ===================================================================== *)
(** ** Stand-ins for the collaborators, to run the processor *)
(* ===================================================================== *)

Module Sample.

(** A small MathJax: it typesets [x^2], reports [\frac] as malformed and
    fails on anything else.  The world counts the calls made. *)
Definition markup : string :=
  "<svg style=" +:+ String Replace.dquote "" +:+ "vertical-align: -0.05ex;"
    +:+ String Replace.dquote "" +:+ "><g stroke=" +:+ String Replace.dquote ""
    +:+ "currentColor" +:+ String Replace.dquote "" +:+ "/></svg>".

Definition typeset (equation : string) (w : nat) : Result string * nat :=
  (if String.eqb equation "x^2" then Returned markup
   else if String.eqb equation "\frac" then Raised (MathError "Missing argument for \frac")
   else Raised (Error "MathJax fault"), S w).

Definition digest (s : string) : string := "0a1b2c3d4e5f" +:+ s.

(** A stand-in for the engine's rendering of the other numbers: each of
    them prints as [1e+21]. *)
Definition engine (x : Double.float) : string := "1e+21".

(** Every tool works; a raster is 20 by 10 pixels. *)
Definition working : Collaborators := {|
  World := nat;
  Buffer := string;
  tex2svg := typeset;
  rsvgConvert := λ svg _ w, (Returned ("PNG:" +:+ svg), S w);
  pngDimensions := λ _ w, (Returned (20, 10)%Z, S w);
  pngFitTo := λ _ _ _ _ _ w, (Returned tt, S w);
  sha256Hash := digest;
  IMG_DIR := "/tmp/nvim-mdmath-c0ffee";
  Number_toString_engine := engine;
  Number_toString_engine_chars := λ _, eq_refl
|}.

(** rsvg-convert is missing: [rsvgConvert] rejects. *)
Definition broken : Collaborators := {|
  World := nat;
  Buffer := string;
  tex2svg := typeset;
  rsvgConvert := λ _ _ w, (Raised (Error "spawn rsvg-convert ENOENT"), S w);
  pngDimensions := λ _ w, (Returned (20, 10)%Z, S w);
  pngFitTo := λ _ _ _ _ _ w, (Returned tt, S w);
  sha256Hash := digest;
  IMG_DIR := "/tmp/nvim-mdmath-c0ffee";
  Number_toString_engine := engine;
  Number_toString_engine_chars := λ _, eq_refl
|}.

(** Every tool works; a raster is 42 by 14 pixels. *)
Definition wide : Collaborators := {|
  World := nat;
  Buffer := string;
  tex2svg := typeset;
  rsvgConvert := λ svg _ w, (Returned ("PNG:" +:+ svg), S w);
  pngDimensions := λ _ w, (Returned (42, 14)%Z, S w);
  pngFitTo := λ _ _ _ _ _ w, (Returned tt, S w);
  sha256Hash := digest;
  IMG_DIR := "/tmp/nvim-mdmath-c0ffee";
  Number_toString_engine := engine;
  Number_toString_engine_chars := λ _, eq_refl
|}.

(** Scenario A of the specification. *)
Definition requestA : Request := Req_request "1" "x^2" 8 16 1 1 0 "#ffffff".

End Sample.

(* ===================================================================== *)
(** ** Further notions, for the properties beyond the claims *)
(* ===================================================================== *)

(** The request is a render request ([type === 'request']). *)
Definition isRender (request : Request) : bool :=
  match request with Req_request _ _ _ _ _ _ _ _ => true | _ => false end.

(** The call is a call of [pngFitTo]. *)
Definition isFit (ev : Event) : bool :=
  match ev with Ev_pngFitTo _ _ _ _ _ => true | _ => false end.

(** The first argument of [rsvgConvert] in [processEquation]: [{zoom}] in
    dynamic-fit mode, [{width, height}] otherwise. *)
Definition rsvgArgsOf `{Collaborators} (st : State)
    (cWidth cHeight width height flags : Z) : RsvgArgs :=
  if flag flags 1 then ByZoom (zoomOf (dynamicScale st) cHeight (internalScale st))
  else BySize (physical (Double.of_Z width) cWidth (internalScale st))
              (physical (Double.of_Z height) cHeight (internalScale st)).

(** The render requests among [requests]. *)
Definition renders (requests : list Request) : list Request :=
  List.filter isRender requests.

(** Nothing the service wrote or cached is missing from [equations], the
    list the exit hook walks: every entry of [equationMap] is in it, and
    so is an entry for every file a call of [pngFitTo] wrote. *)
Definition Tracked `{Collaborators} (st : State) : Prop :=
  (∀ key e, equationMap st !! key = Some e → e ∈ equations st) ∧
  (∀ filename, fileWritten filename (trace st) = true →
               ∃ e, e ∈ equations st ∧ eq_filename e = filename).

(** [filename] is [`${IMG_DIR}/<name>.png`] for a [<name>] without slash:
    a file of the directory [IMG_DIR] itself. *)
Definition inWorkspace `{Collaborators} (filename : string) : Prop :=
  ∃ name, filename = IMG_DIR +:+ "/" +:+ name +:+ ".png" ∧ occurs "/" name = false.

(** The first seven code units of a hash hold no slash, as those of a
    hexadecimal digest. *)
Definition HashWithoutSlash `{Collaborators} : Prop :=
  ∀ s, occurs "/" (Js.slice0 7 (sha256Hash s)) = false.

(** Every call of [pngFitTo] and every entry of [equations] names a file
    of the workspace directory. *)
Definition Confined `{Collaborators} (st : State) : Prop :=
  (∀ filename iW iH center ok,
     Ev_pngFitTo filename iW iH center ok ∈ trace st → inWorkspace filename) ∧
  (∀ e, e ∈ equations st → inWorkspace (eq_filename e)).

(** The typeset cache has no own property with the name of a member of
    [Object.prototype]. *)
Definition NoInheritedKey `{Collaborators} (st : State) : Prop :=
  ∀ k r, svgCache st !! k = Some r → Js.inherited k = false.

(* ===================================================================== *)
(** ** parseLatexCommands *)
(* ===================================================================== *)

Module Latex.

Definition backslash : ascii := "092"%char.
Definition rbrace : ascii := "}"%char.

(** The number of leading code units of [s] other than [c]. *)
Fixpoint spanNot (c : ascii) (s : string) : nat :=
  match s with
  | String d s' => if Ascii.eqb d c then O else S (spanNot c s')
  | "" => O
  end.

(** The class [\d]. *)
Definition isDigit (c : ascii) : bool :=
  match c with
  | "0" | "1" | "2" | "3" | "4" | "5" | "6" | "7" | "8" | "9" => true
  | _ => false
  end%char.

(** The number of leading digits of [s]. *)
Fixpoint spanDigits (s : string) : nat :=
  match s with
  | String d s' => if isDigit d then S (spanDigits s') else O
  | "" => O
  end.

(** A group of one or more code units other than a closing brace, and the
    closing brace, at the start of [s]: the group and what follows the
    brace.  The group is greedy and the brace must follow it, so it ends
    at the first closing brace. *)
Definition group (s : string) : option (string * string) :=
  let n := spanNot rbrace s in
  match n, Js.drop n s with
  | S _, String _ rest => Some (Js.slice0 n s, rest)
  | _, _ => None
  end.

(** The optional arity, an opening bracket, one or more digits and a
    closing bracket, at the start of [s]: the digits when it is there, and
    what follows. *)
Definition arity (s : string) : option string * string :=
  match s with
  | String "[" s1 =>
      let n := spanDigits s1 in
      match n, Js.drop n s1 with
      | S _, String "]" rest => (Some (Js.slice0 n s1), rest)
      | _, _ => (None, s)
      end
  | _ => (None, s)
  end.

(** The integer a string of digits denotes. *)
Definition digitValue (c : ascii) : N := (N_of_ascii c - 48)%N.

Fixpoint parseInt_from (acc : N) (digits : string) : N :=
  match digits with
  | "" => acc
  | String d rest => parseInt_from (10 * acc + digitValue d)%N rest
  end.

(** [parseInt] of a string of digits: the double of the integer they
    denote, which is the integer itself up to 2^53 and the nearest double
    above (beyond twenty significant digits ECMA-262 lets the engine drop
    digits; V8 rounds the integer, as here). *)
Definition parseInt (digits : string) : Double.float :=
  Double.of_Z (Z.of_N (parseInt_from 0 digits)).

(** A value of the macro table: a replacement, or the pair of a replacement
    and a number of arguments. *)
Inductive Macro : Type :=
  | Plain (replacement : string)
  | WithArgs (replacement : string) (numArgs : Double.float).

(** The entry the loop body makes of a match: [match[1]], and
    [numArgs > 0 ? [replacement, numArgs] : replacement] with
    [replacement = match[3].trim()] and
    [numArgs = match[2] ? parseInt(match[2]) : 0]. *)
Definition commandEntry (name : string) (digits : option string) (body : string)
  : string * Macro :=
  let numArgs := match digits with Some d => parseInt d | None => Double.of_Z 0 end in
  let replacement := Js.trim body in
  (name, if Double.ltb (Double.of_Z 0) numArgs then WithArgs replacement numArgs
         else Plain replacement).

(** The match of the first pattern (a backslash, an optional [re],
    [newcommand], the name in braces after a backslash, the optional
    arity, the body in braces) anchored at the start of [s]: the entry and
    the length of the match. *)
Definition newCommandAt (s : string) : option ((string * Macro) * nat) :=
  let after_head :=
    if Js.startsWith "\renewcommand{\" s then Some (Js.drop 15 s)
    else if Js.startsWith "\newcommand{\" s then Some (Js.drop 13 s)
    else None in
  match after_head with
  | None => None
  | Some s1 =>
      match group s1 with
      | None => None
      | Some (name, s2) =>
          let '(digits, s3) := arity s2 in
          match s3 with
          | String "{" s4 =>
              match group s4 with
              | None => None
              | Some (body, rest) =>
                  Some (commandEntry name digits body,
                        String.length s - String.length rest)%nat
              end
          | _ => None
          end
      end
  end.

(** The entry of a match of the second pattern:
    [\mathop{\operatorname*{op}}] with the star, [\mathop{\mathrm{op}}]
    without. *)
Definition operatorEntry (star : bool) (name operator : string) : string * Macro :=
  (name,
   Plain (if star then "\mathop{\operatorname*{" +:+ operator +:+ "}}"
          else "\mathop{\mathrm{" +:+ operator +:+ "}}")).

(** The match of the second pattern ([\DeclareMathOperator], an optional
    star, the name in braces after a backslash, the operator in braces)
    anchored at the start of [s]. *)
Definition mathOperatorAt (s : string) : option ((string * Macro) * nat) :=
  if Js.startsWith "\DeclareMathOperator" s then
    let s0 := Js.drop 20 s in
    let '(star, s0') := match s0 with
                        | String "*" t => (true, t)
                        | _ => (false, s0)
                        end in
    if Js.startsWith "{\" s0' then
      match group (Js.drop 2 s0') with
      | None => None
      | Some (name, s2) =>
          match s2 with
          | String "{" s3 =>
              match group s3 with
              | None => None
              | Some (operator, rest) =>
                  Some (operatorEntry star name operator,
                        String.length s - String.length rest)%nat
              end
          | _ => None
          end
      end
    else None
  else None.

(** [while ((match = regex.exec(content)) !== null)] for a global pattern
    that matches no empty string: the matches from left to right, each
    search resuming where the previous match ended.  [skip] is the number
    of code units still covered by the last match. *)
Fixpoint execAll {A} (matchAt : string → option (A * nat)) (skip : nat) (s : string)
  : list A :=
  match s with
  | "" => []
  | String _ s' =>
      match skip with
      | S k => execAll matchAt k s'
      | O =>
          match matchAt s with
          | Some (a, len) => a :: execAll matchAt (len - 1) s'
          | None => execAll matchAt 0 s'
          end
      end
  end.

(** [macros[name] = value] on the own properties of a plain object: an
    assignment to [__proto__] goes to the setter of [Object.prototype] and
    makes no own property. *)
Definition assign (macros : gmap string Macro) (entry : string * Macro)
  : gmap string Macro :=
  if String.eqb (fst entry) "__proto__" then macros
  else <[fst entry := snd entry]> macros.

Definition newCommands (content : string) : list (string * Macro) :=
  execAll newCommandAt 0 content.

Definition mathOperators (content : string) : list (string * Macro) :=
  execAll mathOperatorAt 0 content.

(** The own properties of the object [parseLatexCommands] returns: the
    first loop assigns the commands, the second the operators. *)
Definition parseLatexCommands (content : string) : gmap string Macro :=
  foldl assign (foldl assign ∅ (newCommands content)) (mathOperators content).

(** The last entry for [name] in a list of entries. *)
Fixpoint lastEntry (name : string) (entries : list (string * Macro)) : option Macro :=
  match entries with
  | [] => None
  | (n, v) :: rest =>
      match lastEntry name rest with
      | Some v' => Some v'
      | None => if String.eqb n name then Some v else None
      end
  end.

(** The text of the optional arity. *)
Definition arityText (digits : option string) : string :=
  match digits with
  | Some d => "[" +:+ d +:+ "]"
  | None => ""
  end.

End Latex.

Example parse_truncates_at_first_brace :
  Latex.parseLatexCommands "\newcommand{\R}{\mathbb{R}} \renewcommand{\pd}[2]{ \frac } \DeclareMathOperator*{\argmax}{arg\,max}"
  = {[ "R" := Latex.Plain "\mathbb{R";
       "pd" := Latex.WithArgs "\frac" (Double.of_Z 2);
       "argmax" := Latex.Plain "\mathop{\operatorname*{arg\,max}}" ]}.
Proof. vm_compute. reflexivity. Qed.

(** Scenario A of the specification: one image frame, the file inside the
    workspace directory. *)
Example scenario_A :
  stdout (snd (@processAll Sample.working Sample.requestA (@initial Sample.working 0%nat)))
  = ["1:image:1:1:40:/tmp/nvim-mdmath-c0ffee/0a1b2c3_8x16.png"].
Proof. vm_compute. reflexivity. Qed.

(** An equation that names a member of [Object.prototype] is found in the
    typeset cache before anything was stored: the Typesetter is not called
    and the request ends in the error frame of a TypeError. *)
Example inherited_equation :
  let st := snd (@processAll Sample.working
                   (Req_request "1" "toString" 8 16 1 1 0 "#ffffff")
                   (@initial Sample.working 0%nat)) in
  stdout st = ["1:error:0:0:54:Cannot read properties of undefined (reading 'length')"]
  ∧ trace st = [].
Proof. vm_compute. done. Qed.

(** Scenario C of the specification: doubling [dynamicScale] doubles the
    zoom, here for a cell height of 16 pixels and the initial
    [internalScale]. *)
Example scenario_C :
  zoomOf (Double.of_Z 2) 16 (Double.of_Z 1)
  = Double.mul (Double.of_Z 2) (zoomOf (Double.of_Z 1) 16 (Double.of_Z 1)).
Proof. vm_compute. reflexivity. Qed.

(** The zoom for a cell height of 16 pixels and the initial scales is the
    double nearest to 5/3, printed 1.6666666666666667. *)
Example zoom_ex :
  zoomOf (Double.of_Z 1) 16 (Double.of_Z 1) = S754_finite false 7505999378950827 (-52).
Proof. vm_compute. reflexivity. Qed.

(** [parseInt] gives a double: 2^53 + 1 is read as 2^53. *)
Example parseInt_ex :
  Double.toZ (Latex.parseInt "9007199254740993") = Some 9007199254740992%Z ∧
  Double.toZ (Latex.parseInt "2") = Some 2%Z.
Proof. vm_compute. done. Qed.

Example trim_ex : Js.trim "  a b  " = "a b".
Proof. reflexivity. Qed.
Example toString_ex : Js.Number_toString (-14) = "-14".
Proof. reflexivity. Qed.

(* ===================================================================== *)
(** ** Scale updates *)
(* ===================================================================== *)

Section Frame.
Context `{Collaborators}.

Lemma processAll_dscale st scale :
  processAll (Req_dscale scale) st = (Returned tt, with_dynamicScale scale st).
Proof. reflexivity. Qed.

Lemma processAll_iscale st scale :
  processAll (Req_iscale scale) st = (Returned tt, with_internalScale scale st).
Proof. reflexivity. Qed.

End Frame.

(* ===================================================================== *)
(** ** Strings: code units, concatenation, numbers *)
(* ===================================================================== *)

Ltac string_cons :=
  repeat match goal with
    | |- context [String ?a ?s +:+ ?t] =>
        change (String a s +:+ t) with (String a (s +:+ t))
    | |- context ["" +:+ ?t] => change ("" +:+ t) with t
    | H : context [String ?a ?s +:+ ?t] |- _ =>
        change (String a s +:+ t) with (String a (s +:+ t)) in H
    | H : context ["" +:+ ?t] |- _ => change ("" +:+ t) with t in H
    end.

Section Strings.

Lemma append_assoc (a b c : string) : (a +:+ b) +:+ c = a +:+ (b +:+ c).
Proof. induction a as [|x a IH]; string_cons; [done | by rewrite IH]. Qed.

Lemma append_empty_r (a : string) : a +:+ "" = a.
Proof. induction a as [|x a IH]; string_cons; [done | by rewrite IH]. Qed.

Lemma length_append (a b : string) :
  String.length (a +:+ b) = (String.length a + String.length b)%nat.
Proof. induction a as [|x a IH]; string_cons; simpl; [done | by rewrite IH]. Qed.

Lemma every_append P (a b : string) : every P (a +:+ b) = every P a && every P b.
Proof.
  induction a as [|x a IH]; string_cons; simpl; [done|].
  by rewrite IH, andb_assoc.
Qed.

Lemma occurs_append c (a b : string) : occurs c (a +:+ b) = occurs c a || occurs c b.
Proof.
  induction a as [|x a IH]; string_cons; simpl; [done|].
  by rewrite IH, orb_assoc.
Qed.

Lemma every_occurs P c s : every P s = true → P c = false → occurs c s = false.
Proof.
  intros Hs Hc. induction s as [|d s IH]; simpl in *; [done|].
  apply andb_prop in Hs as [Hd Hs]. rewrite (IH Hs), orb_false_r.
  destruct (Ascii.eqb_spec c d) as [->|]; congruence.
Qed.

(** A string is cut in one way only at the last occurrence of a code unit. *)
Lemma cut_last c (s1 t1 s2 t2 : string) :
  occurs c t1 = false → occurs c t2 = false →
  s1 +:+ String c t1 = s2 +:+ String c t2 → s1 = s2 ∧ t1 = t2.
Proof.
  intros H1 H2. revert s2.
  induction s1 as [|a s1 IH]; intros [|b s2] E; string_cons; simplify_eq.
  - done.
  - rewrite occurs_append in H1. simpl in H1.
    rewrite Ascii.eqb_refl, orb_true_r in H1. done.
  - rewrite occurs_append in H2. simpl in H2.
    rewrite Ascii.eqb_refl, orb_true_r in H2. done.
  - destruct (IH s2) as [-> ->]; done.
Qed.

Lemma pretty_N_go_numeric x s :
  every numeric s = true → every numeric (pretty_N_go x s) = true.
Proof.
  revert s. induction (N.lt_wf_0 x) as [x _ IH]; intros s Hs.
  destruct (decide (x = 0)%N) as [->|].
  - by rewrite pretty_N_go_0.
  - rewrite pretty_N_go_step by lia. apply IH.
    + apply N.div_lt; lia.
    + simpl. rewrite Hs, andb_true_r.
      unfold pretty_N_char. by repeat case_match.
Qed.

Lemma Number_toString_numeric n : every numeric (Js.Number_toString n) = true.
Proof.
  unfold Js.Number_toString, pretty, pretty_Z.
  destruct n as [|p|p]; [done|..]; unfold pretty, pretty_positive, pretty, pretty_N.
  - case_decide; [done|]. by apply pretty_N_go_numeric.
  - rewrite every_append. case_decide; [done|]. by rewrite pretty_N_go_numeric.
Qed.

Lemma Number_toString_inj n m :
  Js.Number_toString n = Js.Number_toString m → n = m.
Proof. apply pretty_Z_inj. Qed.

Lemma Number_toString_free c n :
  numeric c = false → occurs c (Js.Number_toString n) = false.
Proof. intros. eapply every_occurs; [apply Number_toString_numeric | done]. Qed.

End Strings.

(* ===================================================================== *)
(** ** The cache key *)
(* ===================================================================== *)

Section Key.

(** The key, read from its end: each separator closes what precedes it. *)
Lemma equation_key_nested equation cWidth width cHeight height flags color :
  equation_key equation cWidth width cHeight height flags color =
  (((((equation +:+ String "_" (Js.Number_toString cWidth))
        +:+ String "*" (Js.Number_toString width))
       +:+ String "x" (Js.Number_toString cHeight))
      +:+ String "*" (Js.Number_toString height))
     +:+ String "_" (Js.Number_toString flags))
    +:+ String "_" color.
Proof. unfold equation_key. rewrite !append_assoc. by string_cons. Qed.

Lemma equation_key_inj e1 cw1 w1 ch1 h1 f1 c1 e2 cw2 w2 ch2 h2 f2 c2 :
  occurs "_" c1 = false → occurs "_" c2 = false →
  equation_key e1 cw1 w1 ch1 h1 f1 c1 = equation_key e2 cw2 w2 ch2 h2 f2 c2 →
  e1 = e2 ∧ cw1 = cw2 ∧ w1 = w2 ∧ ch1 = ch2 ∧ h1 = h2 ∧ f1 = f2 ∧ c1 = c2.
Proof.
  intros Hc1 Hc2. rewrite !equation_key_nested. intros E.
  apply cut_last in E as [E ->]; [|done..].
  apply cut_last in E as [E ->%Number_toString_inj];
    [|by apply Number_toString_free..].
  apply cut_last in E as [E ->%Number_toString_inj];
    [|by apply Number_toString_free..].
  apply cut_last in E as [E ->%Number_toString_inj];
    [|by apply Number_toString_free..].
  apply cut_last in E as [E ->%Number_toString_inj];
    [|by apply Number_toString_free..].
  apply cut_last in E as [-> ->%Number_toString_inj];
    [|by apply Number_toString_free..].
  done.
Qed.

(** A key holds an asterisk, no member of [Object.prototype] does: the
    lookup in [equationMap] never finds an inherited property. *)
Lemma equation_key_not_inherited equation cWidth width cHeight height flags color :
  Js.inherited (equation_key equation cWidth width cHeight height flags color) = false.
Proof.
  unfold Js.inherited. apply bool_decide_eq_false. intros Hin.
  assert (occurs "*" (equation_key equation cWidth width cHeight height flags color)
          = true) as Hocc.
  { unfold equation_key. rewrite !occurs_append. simpl.
    by rewrite !orb_true_r. }
  unfold Js.Object_prototype_keys in Hin.
  repeat (apply elem_of_cons in Hin as [Hin|Hin];
          [rewrite Hin in Hocc; vm_compute in Hocc; done|]).
  by apply elem_of_nil in Hin.
Qed.

End Key.

(* ===================================================================== *)
(** ** Blank equations and the two frames *)
(* ===================================================================== *)

Section Blank.

Lemma every_rev_app P (s acc : string) :
  every P (String.rev_app s acc) = every P s && every P acc.
Proof.
  revert acc. induction s as [|c s IH]; intros acc; simpl; [done|].
  rewrite IH. simpl. destruct (P c), (every P s), (every P acc); done.
Qed.

Lemma every_rev P (s : string) : every P (String.rev s) = every P s.
Proof. unfold String.rev. by rewrite every_rev_app, andb_true_r. Qed.

Lemma rev_app_empty (s acc : string) : String.rev_app s acc = "" → s = "" ∧ acc = "".
Proof.
  revert acc. induction s as [|c s IH]; intros acc; simpl; [done|].
  intros [_ [=]]%IH.
Qed.

Lemma rev_empty (s : string) : String.rev s = "" ↔ s = "".
Proof.
  split; [|by intros ->]. unfold String.rev. by intros [-> _]%rev_app_empty.
Qed.

Lemma trimStart_empty (s : string) :
  Js.trimStart s = "" ↔ every Js.isWhiteSpace s = true.
Proof.
  induction s as [|c s IH]; simpl; [done|].
  destruct (Js.isWhiteSpace c); simpl; [done|]. split; done.
Qed.

(** What [trimStart] leaves is empty or starts with a code unit that is not
    white space. *)
Lemma trimStart_every (s : string) :
  every Js.isWhiteSpace (Js.trimStart s) = true → Js.trimStart s = "".
Proof.
  induction s as [|c s IH]; simpl; [done|].
  destruct (Js.isWhiteSpace c) eqn:Hc; [done|]. simpl. by rewrite Hc.
Qed.

Lemma trim_empty (s : string) : Js.trim s = "" ↔ every Js.isWhiteSpace s = true.
Proof.
  unfold Js.trim, Js.trimEnd.
  rewrite rev_empty, trimStart_empty, every_rev. split.
  - intros Hs. by apply trimStart_empty, trimStart_every.
  - intros Hs%trimStart_empty. by rewrite Hs.
Qed.

(** The guard of [processEquation] holds exactly of the equations that are
    empty or all white space. *)
Lemma isBlank_spec (equation : string) :
  isBlank equation = every Js.isWhiteSpace equation.
Proof.
  unfold isBlank. destruct equation as [|c s]; [done|]. simpl orb.
  destruct (every Js.isWhiteSpace (String c s)) eqn:Hs.
  - apply trim_empty in Hs. by rewrite Hs.
  - apply Nat.eqb_neq. intros Hlen.
    assert (Js.trim (String c s) = "") as Ht
      by (by destruct (Js.trim (String c s))).
    apply trim_empty in Ht. congruence.
Qed.

Context `{Collaborators}.

Lemma frames_differ identifier width height data error :
  image_frame identifier width height data ≠ error_frame identifier error.
Proof.
  unfold image_frame, error_frame. intros E.
  apply (inj (String.append identifier)) in E. string_cons. by simplify_eq.
Qed.

(** Two image frames for one identifier agree for every identifier. *)
Lemma image_frame_rename id id' w h d w' h' d' :
  image_frame id w h d = image_frame id w' h' d' →
  image_frame id' w h d = image_frame id' w' h' d'.
Proof.
  unfold image_frame. intros E.
  apply (inj (String.append id)) in E. by rewrite E.
Qed.

Lemma error_frame_Empty identifier :
  error_frame identifier "Empty equation" =
  identifier +:+ ":error:0:0:14:Empty equation".
Proof. reflexivity. Qed.

End Blank.

(* ===================================================================== *)
(** ** Doubles: integers, products, comparison *)
(* ===================================================================== *)

Section Doubles.
Local Open Scope Z_scope.

Lemma digits2_log2 (p : positive) : Zpos (digits2_pos p) = Z.log2 (Zpos p) + 1.
Proof.
  assert (∀ q, digits2_pos q = Pos.size q) as Hsize
    by (induction q as [q IH|q IH|]; simpl; by rewrite ?IH).
  rewrite Hsize. destruct p; simpl; lia.
Qed.

Lemma iter_pos_iter {A} (f : A → A) (k : positive) (x : A) :
  SpecFloat.iter_pos f k x = Pos.iter f x k.
Proof.
  revert x. induction k as [k IH|k IH|]; intros x; simpl; [|by rewrite !IH|done].
  by rewrite !IH, !Pos.iter_swap.
Qed.

Lemma iter_xO_pow2 (m k : positive) : Zpos (Pos.iter xO m k) = Zpos m * 2 ^ Zpos k.
Proof.
  induction k as [|k IH] using Pos.peano_ind; [simpl; lia|].
  rewrite Pos.iter_succ, Pos2Z.inj_xO, IH, Pos2Z.inj_succ, Z.pow_succ_r by lia. lia.
Qed.

(** Shifting out zero bits loses nothing. *)
Lemma shr_zero_bits (m k : positive) :
  SpecFloat.iter_pos shr_1 k
    {| shr_m := Zpos (Pos.iter xO m k); shr_r := false; shr_s := false |}
  = {| shr_m := Zpos m; shr_r := false; shr_s := false |}.
Proof.
  rewrite iter_pos_iter.
  induction k as [|k IH] using Pos.peano_ind; [done|].
  rewrite (Pos.iter_succ _ _ xO), (Pos.iter_succ_r _ _ shr_1). exact IH.
Qed.

(** Rounding a value that a mantissa of 53 bits holds leaves it as it is:
    the value [mx * 2 ^ (e - k)] with [mx = m * 2 ^ k] is [m * 2 ^ e]. *)
Lemma binary_round_aux_exact (s : bool) (m mx : positive) (k e : Z) :
  Z.log2 (Zpos m) = 52 → 0 ≤ k → -1074 ≤ e ≤ 971 →
  Zpos mx = Zpos m * 2 ^ k →
  binary_round_aux 53 1024 s (Zpos mx) (e - k) loc_Exact = S754_finite s m e.
Proof.
  intros Hm Hk He Hmx.
  assert (shr_fexp 53 1024 (Zpos m) e loc_Exact
          = ({| shr_m := Zpos m; shr_r := false; shr_s := false |}, e)) as Hstay.
  { unfold shr_fexp, Zdigits2. rewrite digits2_log2, Hm.
    unfold fexp, emin.
    replace (Z.max (52 + 1 + e - 53) (3 - 1024 - 53) - e) with 0 by lia. done. }
  assert (shr_fexp 53 1024 (Zpos mx) (e - k) loc_Exact
          = ({| shr_m := Zpos m; shr_r := false; shr_s := false |}, e)) as Hshift.
  { unfold shr_fexp, Zdigits2. rewrite digits2_log2, Hmx.
    rewrite Z.log2_mul_pow2, Hm by lia.
    unfold fexp, emin.
    replace (Z.max (k + 52 + 1 + (e - k) - 53) (3 - 1024 - 53) - (e - k)) with k by lia.
    destruct k as [|kp|kp]; [| |lia].
    - replace (e - 0) with e by lia.
      rewrite Z.pow_0_r, Z.mul_1_r. done.
    - simpl shr_record_of_loc. unfold shr.
      rewrite <-iter_xO_pow2, shr_zero_bits. f_equal. lia. }
  unfold binary_round_aux. rewrite Hshift. simpl loc_of_shr_record.
  simpl round_nearest_even. simpl shr_m at 1. rewrite Hstay. simpl shr_m.
  replace (e <=? 1024 - 53) with true by (symmetry; apply Z.leb_le; lia). done.
Qed.

(** The double of an integer below 2^53 in magnitude: the integer, shifted
    to a mantissa of 53 bits. *)
Lemma binary_round_integer (s : bool) (p : positive) :
  Zpos p < 2 ^ 53 →
  ∃ m, Zpos m = Zpos p * 2 ^ (52 - Z.log2 (Zpos p)) ∧
       binary_round 53 1024 s p 0 = S754_finite s m (Z.log2 (Zpos p) - 52).
Proof.
  intros Hp.
  assert (0 ≤ Z.log2 (Zpos p) < 53) as Hl.
  { split; [apply Z.log2_nonneg|]. apply Z.log2_lt_pow2; lia. }
  unfold binary_round, shl_align. rewrite digits2_log2.
  unfold fexp, emin.
  replace (Z.max (Z.log2 (Zpos p) + 1 + 0 - 53) (3 - 1024 - 53))
    with (Z.log2 (Zpos p) - 52) by lia.
  destruct (Z.log2 (Zpos p) - 52 - 0) as [|d|d] eqn:Hd; [| lia |].
  - exists p. replace (52 - Z.log2 (Zpos p)) with 0 by lia.
    split; [lia|].
    replace (Z.log2 (Zpos p) - 52) with 0 by lia.
    apply (binary_round_aux_exact s p p 0 0); lia.
  - exists (Pos.iter xO p d).
    assert (52 - Z.log2 (Zpos p) = Zpos d) as Hexp by lia.
    rewrite Hexp. split; [apply iter_xO_pow2|].
    replace (Z.log2 (Zpos p) - 52) with (Z.log2 (Zpos p) - 52 - 0) at 1 by lia.
    apply binary_round_aux_exact; [|lia|lia|lia].
    rewrite iter_xO_pow2, Z.log2_mul_pow2 by lia. lia.
Qed.

Lemma of_Z_pos (n : Z) :
  0 < n < 2 ^ 53 →
  ∃ m, Zpos m = n * 2 ^ (52 - Z.log2 n) ∧
       Double.of_Z n = S754_finite false m (Z.log2 n - 52).
Proof.
  intros Hn. destruct n as [|p|p]; [lia| |lia].
  apply binary_round_integer. lia.
Qed.

(** The product of two positive integers is exact when it is below 2^53. *)
Lemma mul_of_Z (a b : Z) :
  0 < a → 0 < b → a * b < 2 ^ 53 →
  Double.mul (Double.of_Z a) (Double.of_Z b) = Double.of_Z (a * b).
Proof.
  intros Ha Hb Hab.
  assert (a ≤ a * b ∧ b ≤ a * b ∧ 0 < a * b) as (Ha' & Hb' & Hpos).
  { clear Hab. repeat split.
    - rewrite <-(Z.mul_1_r a) at 1. apply Z.mul_le_mono_nonneg_l; lia.
    - rewrite <-(Z.mul_1_l b) at 1. apply Z.mul_le_mono_nonneg_r; lia.
    - by apply Z.mul_pos_pos. }
  destruct (of_Z_pos a) as (ma & Hma & ->); [lia|].
  destruct (of_Z_pos b) as (mb & Hmb & ->); [lia|].
  destruct (of_Z_pos (a * b)) as (mab & Hmab & ->); [lia|].
  assert (0 ≤ Z.log2 a < 53 ∧ 0 ≤ Z.log2 b < 53 ∧ 0 ≤ Z.log2 (a * b) < 53)
    as (Hla & Hlb & Hlab).
  { repeat split; try apply Z.log2_nonneg; apply Z.log2_lt_pow2; lia. }
  pose proof (Z.log2_mul_below a b Ha Hb) as Hbelow.
  unfold Double.mul, SFmul, Double.prec, Double.emax. cbn [xorb].
  replace (Z.log2 a - 52 + (Z.log2 b - 52))
    with (Z.log2 (a * b) - 52 - (52 + Z.log2 (a * b) - Z.log2 a - Z.log2 b)) by lia.
  apply binary_round_aux_exact; [|lia|lia|].
  - rewrite Hmab, Z.log2_mul_pow2 by lia. lia.
  - rewrite Pos2Z.inj_mul, Hma, Hmb, Hmab.
    replace (a * 2 ^ (52 - Z.log2 a) * (b * 2 ^ (52 - Z.log2 b)))
      with (a * b * (2 ^ (52 - Z.log2 a) * 2 ^ (52 - Z.log2 b))) by ring.
    rewrite <-(Z.mul_assoc (a * b)), <-!Z.pow_add_r by lia. do 2 f_equal. lia.
Qed.

(** So is the product of three, taken from left to right. *)
Lemma mul_mul_of_Z (a b c : Z) :
  0 < a → 0 < b → 0 < c → a * b * c < 2 ^ 53 →
  Double.mul (Double.mul (Double.of_Z a) (Double.of_Z b)) (Double.of_Z c)
  = Double.of_Z (a * b * c).
Proof.
  intros Ha Hb Hc Habc.
  assert (0 < a * b) as Hab by (by apply Z.mul_pos_pos).
  assert (a * b ≤ a * b * c) as Hle.
  { rewrite <-(Z.mul_1_r (a * b)) at 1. apply Z.mul_le_mono_nonneg_l; lia. }
  rewrite mul_of_Z by lia. apply mul_of_Z; lia.
Qed.

(** A double that came from an integer below 2^53 in magnitude gives the
    integer back. *)
Lemma toZ_of_Z (n : Z) : Z.abs n < 2 ^ 53 → Double.toZ (Double.of_Z n) = Some n.
Proof.
  intros Hn.
  assert (∀ s p, Zpos p < 2 ^ 53 →
            Double.toZ (binary_round 53 1024 s p 0) = Some (cond_Zopp s (Zpos p)))
    as Hround.
  { intros s p Hp. destruct (binary_round_integer s p Hp) as (m & Hm & ->).
    assert (0 ≤ Z.log2 (Zpos p) < 53) as Hl.
    { split; [apply Z.log2_nonneg|]. apply Z.log2_lt_pow2; lia. }
    unfold Double.toZ. destruct (Z.leb_spec 0 (Z.log2 (Zpos p) - 52)) as [Hle|Hlt].
    - assert (Z.log2 (Zpos p) = 52) as Hlog by lia.
      rewrite Hlog in Hm |- *. do 2 f_equal. rewrite Hm. simpl. lia.
    - replace (- (Z.log2 (Zpos p) - 52)) with (52 - Z.log2 (Zpos p)) by lia.
      rewrite Hm, Z.mod_mul, Z.div_mul by lia. done. }
  destruct n as [|p|p]; [done| |].
  - apply (Hround false). lia.
  - apply (Hround true). lia.
Qed.

Lemma compare_antisym (x y : Double.float) :
  SFcompare y x = option_map CompOpp (SFcompare x y).
Proof.
  destruct x as [[]|[]| |[] mx ex], y as [[]|[]| |[] my ey]; try done; simpl;
    rewrite (Z.compare_antisym ex ey); destruct (ex ?= ey); simpl;
    by rewrite ?(Pos.compare_cont_antisym mx my Eq).
Qed.

Lemma ltb_irrefl (x : Double.float) : Double.ltb x x = false.
Proof.
  unfold Double.ltb, SFltb. pose proof (compare_antisym x x) as E.
  destruct (SFcompare x x) as [[]|]; simpl in E; congruence.
Qed.

Lemma ltb_asym (x y : Double.float) : Double.ltb x y = true → Double.ltb y x = false.
Proof.
  unfold Double.ltb, SFltb. rewrite (compare_antisym x y).
  by destruct (SFcompare x y) as [[]|].
Qed.

(** [Math.max] is not below its arguments. *)
Lemma max_not_below (x y : Double.float) :
  Double.ltb (Double.max x y) x = false ∧ Double.ltb (Double.max x y) y = false.
Proof.
  unfold Double.max. destruct (Double.isNaN x || Double.isNaN y) eqn:Hnan; [done|].
  assert (Double.ltb (if Double.ltb x y then y else x) x = false ∧
          Double.ltb (if Double.ltb x y then y else x) y = false) as Hgen.
  { destruct (Double.ltb x y) eqn:Hlt.
    - split; [by apply ltb_asym | apply ltb_irrefl].
    - split; [apply ltb_irrefl | done]. }
  by destruct x as [[]|[]| |[] mx ex], y as [[]|[]| |[] my ey].
Qed.

(** When it is a number, [Math.max] is at least each argument. *)
Lemma max_leb (x y : Double.float) :
  Double.isNaN (Double.max x y) = false →
  Double.leb x (Double.max x y) = true ∧ Double.leb y (Double.max x y) = true.
Proof.
  intros Hnan. destruct (max_not_below x y) as [Hx Hy].
  assert (Double.isNaN x = false ∧ Double.isNaN y = false) as [Hnx Hny].
  { unfold Double.max in Hnan. destruct (Double.isNaN x), (Double.isNaN y); done. }
  assert (∀ a b, Double.isNaN a = false → Double.isNaN b = false →
                 Double.ltb b a = false → Double.leb a b = true) as Hle.
  { intros a b Ha Hb. unfold Double.ltb, Double.leb, SFltb, SFleb.
    rewrite (compare_antisym a b).
    destruct (SFcompare a b) as [[]|] eqn:Hc; simpl; try done.
    by destruct a as [[]|[]| |[] ma ea], b as [[]|[]| |[] mb eb]. }
  split; by apply Hle.
Qed.

End Doubles.

Section Printing.
Context `{Collaborators}.

(** A printed number holds the code units of a number only. *)
Lemma Number_toString_chars (x : Double.float) :
  every numberChar (Number_toString x) = true.
Proof.
  assert (∀ n, every numberChar (Js.Number_toString n) = true) as Hint.
  { intros n. pose proof (Number_toString_numeric n) as Hn.
    induction (Js.Number_toString n) as [|c s IH]; [done|].
    simpl in *. apply andb_prop in Hn as [Hc Hs].
    unfold numberChar at 1. by rewrite Hc, IH. }
  unfold Number_toString.
  destruct x as [s|[]| |s m e]; try done;
    destruct (Double.toZ _) as [n|]; try apply Number_toString_engine_chars;
    destruct (Z.abs n <? 2 ^ 53)%Z; auto using Number_toString_engine_chars.
Qed.

Lemma Number_toString_without c (x : Double.float) :
  numberChar c = false → occurs c (Number_toString x) = false.
Proof. intros. eapply every_occurs; [apply Number_toString_chars | done]. Qed.

(** An integer below 2^53 in magnitude prints as its decimal digits. *)
Lemma Number_toString_of_Z (n : Z) :
  (Z.abs n < 2 ^ 53)%Z → Number_toString (Double.of_Z n) = Js.Number_toString n.
Proof.
  intros Hn. pose proof (toZ_of_Z n Hn) as HZ. unfold Number_toString.
  destruct (Double.of_Z n) as [s|[]| |s m e]; try done; rewrite HZ;
    by replace (Z.abs n <? 2 ^ 53)%Z with true by (symmetry; apply Z.ltb_lt; lia).
Qed.

End Printing.

(* ===================================================================== *)
(** ** The paths through the pipeline *)
(* ===================================================================== *)

Section Paths.
Context `{Collaborators}.

Lemma Quiet_refl st : Quiet st st.
Proof. unfold Quiet. repeat split. exists []. by rewrite app_nil_r. Qed.

Lemma Quiet_trans st1 st2 st3 : Quiet st1 st2 → Quiet st2 st3 → Quiet st1 st3.
Proof.
  intros (?&?&?&?&?&n1&?) (?&?&?&?&?&n2&?). unfold Quiet.
  repeat split; try congruence.
  exists (n1 ++ n2). rewrite app_assoc. congruence.
Qed.

Lemma Quiet_recorded ev w st : Quiet st (recorded ev w st).
Proof. unfold Quiet. repeat split. by exists [ev]. Qed.

Lemma Quiet_typeset_cached equation result st :
  Quiet st (typeset_cached equation result st).
Proof. unfold Quiet. repeat split. exists []. simpl. by rewrite app_nil_r. Qed.

(** [equationToSVG] on an equation the cache has, own or inherited. *)
Lemma equationToSVG_hit st equation :
  Js.has (svgCache st) equation = true →
  equationToSVG equation st = (Returned (Js.get (svgCache st) equation), st).
Proof. intros Hhas. unfold equationToSVG, bind, gets, ret. by rewrite Hhas. Qed.

(** [equationToSVG] on an equation the cache does not have: the Typesetter
    is called; markup and a [MathError] are stored, any other error is
    thrown on. *)
Lemma equationToSVG_miss st equation :
  Js.has (svgCache st) equation = false →
  equationToSVG equation st =
  match tex2svg equation (world st) with
  | (Returned svg, w) =>
      (Returned (Js.Own (SvgOf svg)),
       typeset_cached equation (SvgOf svg) (recorded (Ev_tex2svg equation) w st))
  | (Raised (MathError m), w) =>
      (Returned (Js.Own (ErrorOf m)),
       typeset_cached equation (ErrorOf m) (recorded (Ev_tex2svg equation) w st))
  | (Raised (Error m), w) =>
      (Raised (Error m), recorded (Ev_tex2svg equation) w st)
  end.
Proof.
  intros Hhas. unfold equationToSVG, bind, gets, ret. simpl. rewrite Hhas.
  unfold catch, bind, call. destruct (tex2svg equation (world st)) as [[svg|[m|m]] w]; done.
Qed.

Lemma equationToSVG_Quiet st equation :
  Quiet st (snd (equationToSVG equation st)).
Proof.
  destruct (Js.has (svgCache st) equation) eqn:Hhas.
  - rewrite equationToSVG_hit by done. apply Quiet_refl.
  - rewrite equationToSVG_miss by done.
    destruct (tex2svg equation (world st)) as [[svg|[m|m]] w]; simpl;
      eauto using Quiet_trans, Quiet_recorded, Quiet_typeset_cached.
Qed.

(** What [equationToSVG] returns is never [undefined]. *)
Lemma equationToSVG_defined st equation st' :
  equationToSVG equation st ≠ (Returned Js.Undefined, st').
Proof.
  destruct (Js.has (svgCache st) equation) eqn:Hhas.
  - rewrite equationToSVG_hit by done. intros [= Hget _].
    unfold Js.has, Js.get in *.
    destruct (svgCache st !! equation); [done|].
    destruct (Js.inherited equation); [done|].
    rewrite bool_decide_eq_false_2 in Hhas; [done|]. by intros [? ?].
  - rewrite equationToSVG_miss by done.
    destruct (tex2svg equation (world st)) as [[svg|[m|m]] w]; done.
Qed.

(** Fixed mode: one call of [rsvgConvert], with the physical size. *)
Lemma rasterize_fixed st svg cWidth cHeight width height flags :
  flag flags 1 = false →
  rasterize svg cWidth cHeight width height flags st =
  let iWidth := physical (Double.of_Z width) cWidth (internalScale st) in
  let iHeight := physical (Double.of_Z height) cHeight (internalScale st) in
  let ev := Ev_rsvgConvert svg (BySize iWidth iHeight) in
  match rsvgConvert svg (BySize iWidth iHeight) (world st) with
  | (Returned basePNG, w) =>
      (Returned (basePNG, Double.of_Z width, Double.of_Z height, iWidth, iHeight),
       recorded ev w st)
  | (Raised err, w) => (Raised err, recorded ev w st)
  end.
Proof.
  intros Hflag. unfold rasterize. rewrite Hflag. unfold bind, gets, call, ret. simpl.
  by destruct (rsvgConvert _ _ _) as [[?|?] ?].
Qed.

(** Dynamic mode: [rsvgConvert] at the zoom, [pngDimensions], and the span
    fitted to the natural size. *)
Lemma rasterize_dynamic st svg cWidth cHeight width height flags :
  flag flags 1 = true →
  rasterize svg cWidth cHeight width height flags st =
  let iScale := internalScale st in
  let zoom := zoomOf (dynamicScale st) cHeight iScale in
  let ev := Ev_rsvgConvert svg (ByZoom zoom) in
  match rsvgConvert svg (ByZoom zoom) (world st) with
  | (Raised err, w1) => (Raised err, recorded ev w1 st)
  | (Returned basePNG, w1) =>
      match pngDimensions basePNG w1 with
      | (Raised err, w2) =>
          (Raised err, recorded Ev_pngDimensions w2 (recorded ev w1 st))
      | (Returned (pngWidth, pngHeight), w2) =>
          let width' := fitSpan width pngWidth iScale cWidth in
          let height' := fitSpan height pngHeight iScale cHeight in
          (Returned (basePNG, width', height',
                     physical width' cWidth iScale, physical height' cHeight iScale),
           recorded Ev_pngDimensions w2 (recorded ev w1 st))
      end
  end.
Proof.
  intros Hflag. unfold rasterize. rewrite Hflag. unfold bind, gets, call, ret. simpl.
  destruct (rsvgConvert _ _ _) as [[png|?] w1]; [|done]. simpl.
  by destruct (pngDimensions png w1) as [[[pw ph]|?] w2].
Qed.

Lemma rasterize_Quiet st svg cWidth cHeight width height flags :
  Quiet st (snd (rasterize svg cWidth cHeight width height flags st)).
Proof.
  destruct (flag flags 1) eqn:Hflag.
  - rewrite rasterize_dynamic by done. simpl.
    destruct (rsvgConvert _ _ _) as [[png|?] w1]; simpl;
      [|apply Quiet_recorded].
    destruct (pngDimensions png w1) as [[[pw ph]|?] w2]; simpl;
      eauto using Quiet_trans, Quiet_recorded.
  - rewrite rasterize_fixed by done. simpl.
    destruct (rsvgConvert _ _ _) as [[png|?] w1]; simpl; apply Quiet_recorded.
Qed.

Lemma processEquation_blank st identifier equation cWidth cHeight width height flags color :
  isBlank equation = true →
  processEquation identifier equation cWidth cHeight width height flags color st =
  (Returned tt, written (error_frame identifier "Empty equation") st).
Proof. intros Hb. unfold processEquation. by rewrite Hb. Qed.

Lemma has_equation_key (m : gmap string Equation) equation cWidth width cHeight height flags color :
  Js.has m (equation_key equation cWidth width cHeight height flags color) =
  bool_decide (is_Some (m !! equation_key equation cWidth width cHeight height flags color)).
Proof. unfold Js.has. by rewrite equation_key_not_inherited, orb_false_r. Qed.

(** A request whose key is in [equationMap] is answered from the entry. *)
Lemma processEquation_cached st identifier equation cWidth cHeight width height flags color e :
  isBlank equation = false →
  equationMap st !! equation_key equation cWidth width cHeight height flags color = Some e →
  processEquation identifier equation cWidth cHeight width height flags color st =
  (Returned tt,
   written (image_frame identifier (eq_width e) (eq_height e) (eq_filename e)) st).
Proof.
  intros Hb He. unfold processEquation. rewrite Hb. unfold bind, gets. simpl.
  rewrite has_equation_key, He. rewrite bool_decide_eq_true_2 by eauto.
  unfold Js.get. by rewrite He.
Qed.

(** A request whose key is not in [equationMap] is rendered. *)
Lemma processEquation_render st identifier equation cWidth cHeight width height flags color :
  isBlank equation = false →
  equationMap st !! equation_key equation cWidth width cHeight height flags color = None →
  processEquation identifier equation cWidth cHeight width height flags color st =
  match equationToSVG equation st with
  | (Raised err, st0) => (Raised err, st0)
  | (Returned value, st0) =>
      match field_svg value with
      | None | Some "" => writeError identifier (field_error value) st0
      | Some markup =>
          match rasterize (recolor color markup) cWidth cHeight width height flags st0 with
          | (Raised err, st1) => (Raised err, st1)
          | (Returned (basePNG, width', height', iWidth, iHeight), st1) =>
              let filename := filenameOf equation iWidth iHeight in
              let ev := Ev_pngFitTo filename iWidth iHeight (flag flags 2) in
              match pngFitTo basePNG filename iWidth iHeight (flag flags 2) (world st1) with
              | (Raised err, w) => (Raised err, recorded (ev false) w st1)
              | (Returned _, w) =>
                  (Returned tt,
                   written (image_frame identifier width' height' filename)
                     (stored (equation_key equation cWidth width cHeight height flags color)
                        (mkEquation equation filename width' height')
                        (recorded (ev true) w st1)))
              end
          end
      end
  end.
Proof.
  intros Hb He. unfold processEquation. rewrite Hb. unfold bind at 1, gets at 1.
  rewrite has_equation_key, He. rewrite bool_decide_eq_false_2 by (by intros [? ?]).
  unfold bind at 1.
  destruct (equationToSVG equation st) as [[value|err] st0] eqn:Hsvg; [|done].
  destruct value as [[markup|error]| |]; simpl.
  - destruct markup as [|c markup]; [done|]. simpl.
    unfold bind at 1.
    destruct (rasterize _ _ _ _ _ _ st0) as [[[[[[png w'] h'] iw] ih]|err] st1]; [|done].
    unfold bind, call, store, write, stdout_write, modify. simpl.
    by destruct (pngFitTo _ _ _ _ _ _) as [[[]|?] ?].
  - done.
  - done.
  - by apply equationToSVG_defined in Hsvg.
Qed.

Lemma fileWritten_last filename iWidth iHeight center tr :
  fileWritten filename (tr ++ [Ev_pngFitTo filename iWidth iHeight center true]) = true.
Proof.
  unfold fileWritten. rewrite existsb_app. simpl.
  by rewrite String.eqb_refl, orb_true_r.
Qed.

Lemma fileWritten_app filename tr new :
  fileWritten filename tr = true → fileWritten filename (tr ++ new) = true.
Proof. unfold fileWritten. rewrite existsb_app. by intros ->. Qed.

Lemma writeError_Ends identifier key st st0 error :
  Quiet st st0 →
  Ends identifier key st (fst (writeError identifier error st0))
    (snd (writeError identifier error st0)).
Proof.
  intros HQ. destruct error as [msg|]; simpl.
  - by apply Ends_error.
  - by apply Ends_raised.
Qed.

(** Every run of [processEquation] ends in one of the four ways. *)
Lemma processEquation_Ends st identifier equation cWidth cHeight width height flags color :
  let key := equation_key equation cWidth width cHeight height flags color in
  let run := processEquation identifier equation cWidth cHeight width height flags color st in
  Ends identifier key st (fst run) (snd run).
Proof.
  intros key run. subst run.
  destruct (isBlank equation) eqn:Hb.
  { rewrite processEquation_blank by done. apply Ends_error, Quiet_refl. }
  destruct (equationMap st !! key) as [e|] eqn:He.
  { erewrite processEquation_cached by done. by apply Ends_hit. }
  rewrite processEquation_render by done.
  pose proof (equationToSVG_Quiet st equation) as HQ0.
  destruct (equationToSVG equation st) as [[value|err] st0]; simpl in HQ0;
    [|by apply Ends_raised].
  assert (∀ error, Ends identifier key st (fst (writeError identifier error st0))
                     (snd (writeError identifier error st0))) as Herr
    by (intros; by apply writeError_Ends).
  destruct (field_svg value) as [[|c markup]|]; [apply Herr| |apply Herr].
  pose proof (rasterize_Quiet st0 (recolor color (String c markup))
                cWidth cHeight width height flags) as HQ1.
  destruct (rasterize _ _ _ _ _ _ st0) as [[[[[[png w'] h'] iw] ih]|err] st1];
    simpl in HQ1; [|apply Ends_raised; eauto using Quiet_trans].
  simpl. destruct (pngFitTo _ _ _ _ _ _) as [[[]|err] w]; simpl.
  - apply (Ends_fresh identifier key st _ (mkEquation equation _ w' h')).
    + done.
    + eauto using Quiet_trans, Quiet_recorded.
    + apply fileWritten_last.
  - apply Ends_raised. eauto using Quiet_trans, Quiet_recorded.
Qed.

(** Every run of [processAll] on a render request returns, and ends with
    an error frame, the cached entry or a fresh entry. *)
Lemma processAll_Ends st identifier equation cWidth cHeight width height flags color :
  let key := equation_key equation cWidth width cHeight height flags color in
  let run := processAll
               (Req_request identifier equation cWidth cHeight width height flags color) st in
  fst run = Returned tt ∧ Ends identifier key st (Returned tt) (snd run).
Proof.
  intros key run. subst run. unfold processAll, catch.
  pose proof (processEquation_Ends st identifier equation cWidth cHeight width height
                flags color) as HE.
  destruct (processEquation _ _ _ _ _ _ _ _ st) as [[[]|err] st0]; simpl in *.
  - done.
  - split; [done|]. inversion HE; subst. by apply Ends_error.
Qed.

End Paths.

(* ===================================================================== *)
(** ** Recolouring the markup *)
(* ===================================================================== *)

Section Recolor.

Lemma startsWith_append (pat s : string) : Js.startsWith pat (pat +:+ s) = true.
Proof.
  induction pat as [|c pat IH]; string_cons; simpl; [done|].
  by rewrite Ascii.eqb_refl.
Qed.

Lemma drop_append (pat s : string) : Js.drop (String.length pat) (pat +:+ s) = s.
Proof. induction pat as [|c pat IH]; string_cons; simpl; [by destruct s | done]. Qed.

(** A match that starts before the end of [a] and runs past it has, after
    its first code unit, the code unit that follows [a]. *)
Lemma startsWith_straddle (p a : string) c t :
  Js.startsWith p (a +:+ String c t) = true →
  Js.startsWith p a = true ∨ occurs c p = true.
Proof.
  revert a. induction p as [|y p IH]; intros a; [by left|].
  destruct a as [|z a]; string_cons; simpl.
  - destruct (Ascii.eqb_spec y c) as [->|]; [|done].
    rewrite Ascii.eqb_refl. by right.
  - destruct (Ascii.eqb y z); [|done]. intros [?|Hp]%IH; [by left|]. rewrite Hp.
    right. by rewrite orb_true_r.
Qed.

(** When the first code unit of the pattern does not recur in it, no match
    starts in a text free of the pattern that is followed by the pattern. *)
Lemma no_early_match c p x a rest :
  occurs c p = false →
  Js.startsWith (String c p) (String x a) = false →
  Js.startsWith (String c p) (String x a +:+ String c rest) = false.
Proof.
  intros Hc Hfree. string_cons. simpl in *.
  destruct (Ascii.eqb c x); [|done].
  destruct (Js.startsWith p (a +:+ String c rest)) eqn:E; [|done].
  apply startsWith_straddle in E as [?|?]; congruence.
Qed.

Lemma GetSubstitution_plain matched before after replacement :
  occurs Replace.dollar replacement = false →
  Replace.GetSubstitution matched before after replacement = replacement.
Proof.
  induction replacement as [|c r IH]; [done|].
  cbn [occurs Replace.GetSubstitution].
  rewrite (Ascii.eqb_sym Replace.dollar c).
  destruct (Ascii.eqb c Replace.dollar); [done|].
  intros Hr. by rewrite IH.
Qed.

Lemma replaceAll_go_before pat replacement b1 b2 skip s :
  occurs Replace.dollar replacement = false →
  Replace.replaceAll_go pat replacement b1 skip s =
  Replace.replaceAll_go pat replacement b2 skip s.
Proof.
  intros Hr. revert b1 b2 skip.
  induction s as [|c s IH]; intros b1 b2 skip; simpl; [done|].
  destruct skip as [|k]; [|apply IH].
  destruct (Js.startsWith pat (String c s)).
  - rewrite !GetSubstitution_plain by done. f_equal. apply IH.
  - f_equal. apply IH.
Qed.

Lemma replaceAll_go_skip pat replacement before u s :
  Replace.replaceAll_go pat replacement before (String.length u) (u +:+ s) =
  Replace.replaceAll_go pat replacement (before +:+ u) 0 s.
Proof.
  revert before. induction u as [|c u IH]; intros before; string_cons; simpl.
  - by rewrite append_empty_r.
  - rewrite IH, append_assoc. by string_cons.
Qed.

(** A text free of the pattern is left as it is. *)
Lemma replaceAll_go_free pat replacement before s :
  contains pat s = false →
  Replace.replaceAll_go pat replacement before 0 s = s.
Proof.
  revert before. induction s as [|c s IH]; intros before; simpl; [done|].
  intros [-> Hs]%orb_false_elim. by rewrite IH.
Qed.

(** The leftmost occurrence is replaced and the scan resumes after it. *)
Lemma replaceAll_go_first c p replacement before a b :
  occurs c p = false →
  occurs Replace.dollar replacement = false →
  contains (String c p) a = false →
  Replace.replaceAll_go (String c p) replacement before 0 (a +:+ String c p +:+ b) =
  a +:+ replacement +:+ Replace.replaceAll_go (String c p) replacement "" 0 b.
Proof.
  intros Hc Hr. revert before.
  induction a as [|x a IH]; intros before Ha.
  - string_cons. cbn [Replace.replaceAll_go].
    pose proof (startsWith_append (String c p) b) as Hm. string_cons.
    rewrite Hm. rewrite GetSubstitution_plain by done. f_equal.
    replace (String.length (String c p) - 1)%nat with (String.length p)
      by (simpl; lia).
    rewrite replaceAll_go_skip. by apply replaceAll_go_before.
  - simpl in Ha. apply orb_false_elim in Ha as [Hx Ha].
    pose proof (no_early_match c p x a (p +:+ b) Hc) as Hno.
    string_cons. cbn [Replace.replaceAll_go].
    rewrite Hno by (simpl; done). f_equal. by apply IH.
Qed.

(** [replaceAll] on a text given by its pieces between the occurrences. *)
Lemma replaceAll_join c p replacement pieces :
  occurs c p = false →
  occurs Replace.dollar replacement = false →
  Forall (λ piece, contains (String c p) piece = false) pieces →
  Replace.replaceAll (String c p) replacement (join (String c p) pieces) =
  join replacement pieces.
Proof.
  intros Hc Hr Hfree. unfold Replace.replaceAll.
  induction Hfree as [|piece rest Hpiece Hrest IH]; [done|].
  destruct rest as [|piece' rest].
  - simpl. by apply replaceAll_go_free.
  - change (join (String c p) (piece :: piece' :: rest))
      with (piece +:+ String c p +:+ join (String c p) (piece' :: rest)).
    change (join replacement (piece :: piece' :: rest))
      with (piece +:+ replacement +:+ join replacement (piece' :: rest)).
    rewrite replaceAll_go_first by done. by rewrite IH.
Qed.

Lemma startsWith_prefix (pat a b : string) :
  Js.startsWith pat a = true → Js.startsWith pat (a +:+ b) = true.
Proof.
  revert a. induction pat as [|c pat IH]; intros a; [done|].
  destruct a as [|x a]; [done|]. string_cons. simpl.
  destruct (Ascii.eqb c x); [apply IH | done].
Qed.

Lemma startsWith_split (pat s : string) :
  Js.startsWith pat s = true → s = pat +:+ Js.drop (String.length pat) s.
Proof.
  revert s. induction pat as [|c pat IH]; intros s; [by destruct s|].
  destruct s as [|x s]; [done|]. simpl.
  destruct (Ascii.eqb_spec c x) as [->|]; [|done].
  intros Hs. string_cons. f_equal. by apply IH.
Qed.

(** A text that holds the pattern is cut at its leftmost occurrence. *)
Lemma contains_first c p (s : string) :
  contains (String c p) s = true →
  ∃ a b, s = a +:+ String c p +:+ b ∧ contains (String c p) a = false.
Proof.
  induction s as [|x s IH]; [done|].
  cbn [contains]. destruct (Js.startsWith (String c p) (String x s)) eqn:Hm.
  - intros _. exists "", (Js.drop (String.length (String c p)) (String x s)).
    split; [|done]. exact (startsWith_split _ _ Hm).
  - simpl orb. intros (a & b & -> & Ha)%IH.
    exists (String x a), b. split; [by string_cons|].
    cbn [contains]. rewrite Ha, orb_false_r.
    destruct (Js.startsWith (String c p) (String x a)) eqn:Hx; [|done].
    apply (startsWith_prefix _ _ (String c p +:+ b)) in Hx.
    string_cons. congruence.
Qed.

(** Every text is its pieces, free of the pattern, joined by the pattern. *)
Lemma pieces_exist c p (s : string) :
  ∃ pieces, s = join (String c p) pieces ∧
            Forall (λ piece, contains (String c p) piece = false) pieces.
Proof.
  remember (String.length s) as n eqn:Hn. revert s Hn.
  induction (lt_wf n) as [n _ IH]; intros s ->.
  destruct (contains (String c p) s) eqn:Hs.
  - apply contains_first in Hs as (a & b & -> & Ha).
    destruct (IH (String.length b)) with (s := b) as (rest & -> & Hrest); [|done|].
    { rewrite !length_append. simpl. lia. }
    destruct rest as [|piece rest].
    + exists [a; ""]. split; [done|]. by repeat constructor.
    + exists (a :: piece :: rest). split; [done|]. by constructor.
  - exists [s]. split; [done|]. by repeat constructor.
Qed.

Lemma spanNotQuote_body body b :
  occurs Replace.dquote body = false →
  Replace.spanNotQuote (body +:+ String Replace.dquote b) = String.length body.
Proof.
  induction body as [|c body IH]; string_cons;
    cbn [occurs Replace.spanNotQuote].
  - by rewrite Ascii.eqb_refl.
  - rewrite (Ascii.eqb_sym Replace.dquote c).
    destruct (Ascii.eqb c Replace.dquote); [done|]. intros ?. by rewrite IH.
Qed.

(** The style pattern matches a style attribute at the start of a text. *)
Lemma matchStyleAt_attribute body b :
  body ≠ "" → occurs Replace.dquote body = false →
  Replace.matchStyleAt (Replace.style_open +:+ body +:+ String Replace.dquote b) =
  Some (String.length (Replace.style_open +:+ body +:+ String Replace.dquote ""))%nat.
Proof.
  intros Hne Hq. unfold Replace.matchStyleAt. cbv zeta.
  rewrite startsWith_append, drop_append, spanNotQuote_body by done.
  pose proof (drop_append body (String Replace.dquote b)) as Hd.
  rewrite !length_append.
  destruct (String.length body) as [|n] eqn:Hn; [by destruct body|].
  rewrite Hd. simpl. f_equal.
Qed.

(** The leftmost style attribute is removed; what follows it stays. *)
Lemma stripStyle_first a body b :
  contains Replace.style_open a = false →
  body ≠ "" → occurs Replace.dquote body = false →
  Replace.stripStyle (a +:+ Replace.style_open +:+ body +:+ String Replace.dquote b) =
  a +:+ b.
Proof.
  intros Ha Hne Hq. induction a as [|x a IH].
  - string_cons.
    pose proof (matchStyleAt_attribute body b Hne Hq) as Hm.
    destruct (Replace.style_open +:+ body +:+ String Replace.dquote b) as [|y s] eqn:E.
    { by destruct body. }
    cbn [Replace.stripStyle]. rewrite Hm, <-E.
    replace (Replace.style_open +:+ body +:+ String Replace.dquote b)
      with ((Replace.style_open +:+ body +:+ String Replace.dquote "") +:+ b)
      by (rewrite !append_assoc; by string_cons).
    apply drop_append.
  - simpl in Ha. apply orb_false_elim in Ha as [Hx Ha].
    string_cons. cbn [Replace.stripStyle].
    assert (Replace.matchStyleAt
              (String x (a +:+ Replace.style_open +:+ body +:+ String Replace.dquote b))
            = None) as ->.
    { unfold Replace.matchStyleAt.
      pose proof (no_early_match "s" ("tyle=" +:+ String Replace.dquote "") x a
                    (("tyle=" +:+ String Replace.dquote "") +:+ body
                       +:+ String Replace.dquote b) eq_refl Hx) as Hno.
      string_cons. unfold Replace.style_open. string_cons.
      by rewrite Hno. }
    by rewrite IH.
Qed.

End Recolor.

(* ===================================================================== *)
(** ** The service over a sequence of requests *)
(* ===================================================================== *)

Section Service.
Context `{Collaborators}.

Lemma processAll_returns request st : fst (processAll request st) = Returned tt.
Proof.
  destruct request; try done. by apply processAll_Ends.
Qed.

Lemma serve_cons request rest st :
  serve (request :: rest) st = serve rest (snd (processAll request st)).
Proof.
  simpl. pose proof (processAll_returns request st) as Hr.
  destruct (processAll request st) as [[[]|err] st']; simpl in *; done.
Qed.

Lemma serve_returns requests st : fst (serve requests st) = Returned tt.
Proof.
  revert st. induction requests as [|request rest IH]; intros st; [done|].
  by rewrite serve_cons.
Qed.

(** An entry of [equationMap] is never replaced nor removed. *)
Lemma processAll_keeps_entry request st key e :
  equationMap st !! key = Some e →
  equationMap (snd (processAll request st)) !! key = Some e.
Proof.
  intros He. destruct request as [id eq cw ch w h f c| | |]; try done.
  destruct (processAll_Ends st id eq cw ch w h f c) as [_ HE].
  remember (Returned tt) as r eqn:Hr.
  remember (snd (processAll (Req_request id eq cw ch w h f c) st)) as st1 eqn:Hst.
  destruct HE as [st0 msg HQ|st0 err HQ|e' He'|st0 e' He' HQ HW]; simpl.
  - destruct HQ as (_&->&_). done.
  - done.
  - done.
  - destruct HQ as (_&->&_). rewrite lookup_insert_ne; [done|]. congruence.
Qed.

Lemma serve_keeps_entry requests st key e :
  equationMap st !! key = Some e →
  equationMap (snd (serve requests st)) !! key = Some e.
Proof.
  revert st. induction requests as [|request rest IH]; intros st He; [done|].
  rewrite serve_cons. by apply IH, processAll_keeps_entry.
Qed.

(** A render request answered with an image frame leaves its entry in
    [equationMap]. *)
Lemma image_response_entry st id eq cw ch w h f c W Ht F :
  let st1 := snd (processAll (Req_request id eq cw ch w h f c) st) in
  stdout st1 = stdout st ++ [image_frame id W Ht F] →
  isBlank eq = false ∧
  ∃ e, equationMap st1 !! equation_key eq cw w ch h f c = Some e ∧
       image_frame id (eq_width e) (eq_height e) (eq_filename e) = image_frame id W Ht F.
Proof.
  intros st1 Hout. subst st1.
  assert (isBlank eq = false) as Hb.
  { destruct (isBlank eq) eqn:Hb; [|done]. revert Hout.
    unfold processAll, catch. rewrite processEquation_blank by done. simpl.
    intros [=E]%app_inv_head. symmetry in E. by apply frames_differ in E. }
  split; [done|].
  destruct (processAll_Ends st id eq cw ch w h f c) as [_ HE].
  remember (Returned tt) as r eqn:Hr.
  remember (snd (processAll (Req_request id eq cw ch w h f c) st)) as st1 eqn:Hst.
  destruct HE as [st0 msg HQ|st0 err HQ|e He|st0 e He HQ HW]; simpl in Hout.
  - destruct HQ as (_&_&_&_&Hs&_). rewrite Hs in Hout.
    apply app_inv_head in Hout as [=E]. symmetry in E. by apply frames_differ in E.
  - done.
  - exists e. simpl. split; [done|]. by apply app_inv_head in Hout as [=].
  - exists e. simpl. rewrite lookup_insert_eq. split; [done|].
    destruct HQ as (_&_&_&_&Hs&_). rewrite Hs in Hout.
    by apply app_inv_head in Hout as [=].
Qed.

End Service.

(* ===================================================================== *)
(** ** C1: a repeated request *)
(* ===================================================================== *)

(** C1, as stated, fails: when the first of two identical requests ended in
    an error frame because [rsvgConvert] rejected, nothing was cached, and
    the second request calls the Rasterizer again.  Here rsvg-convert is
    missing and scenario A is requested twice. *)
Lemma repeated_request_after_failure_rasterizes_again :
  let st0 := @initial Sample.broken 0%nat in
  let st1 := snd (@processAll Sample.broken Sample.requestA st0) in
  let st2 := snd (@processAll Sample.broken Sample.requestA st1) in
  stdout st1 = ["1:error:0:0:25:spawn rsvg-convert ENOENT"] ∧
  trace st2 =
    trace st1 ++ [Ev_rsvgConvert (recolor "#ffffff" Sample.markup)
                    (BySize (Double.of_Z 8) (Double.of_Z 16))] ∧
  isRasterizerCall (Ev_rsvgConvert (recolor "#ffffff" Sample.markup)
                      (BySize (Double.of_Z 8) (Double.of_Z 16))) = true.
Proof. vm_compute. done. Qed.

(** C1 (amended): when a render request was answered with an image frame,
    a later request with the same equation, cell size, span, flags and
    color, whatever its identifier and whatever requests were served in
    between, calls neither the Typesetter nor the Rasterizer (the trace and
    the world are unchanged: the state only gains the written frame) and is
    answered with an image frame of the same width, height and file name. *)
Theorem repeated_request_served_from_cache `{Collaborators}
    (st : State) (id1 id2 equation : string) (cWidth cHeight width height flags : Z)
    (color : string) (between : list Request) (W Ht : Double.float)
    (filename : string) :
  let st1 := snd (processAll
                    (Req_request id1 equation cWidth cHeight width height flags color) st) in
  let st2 := snd (serve between st1) in
  let second := processAll
                  (Req_request id2 equation cWidth cHeight width height flags color) st2 in
  stdout st1 = stdout st ++ [image_frame id1 W Ht filename] →
  second = (Returned tt, written (image_frame id2 W Ht filename) st2) ∧
  trace (snd second) = trace st2 ∧ world (snd second) = world st2 ∧
  stdout (snd second) = stdout st2 ++ [image_frame id2 W Ht filename].
Proof.
  intros st1 st2 second Hout.
  apply image_response_entry in Hout as (Hb & e & He & Hframe).
  apply (serve_keeps_entry between) in He. fold st1 st2 in He.
  assert (second = (Returned tt, written (image_frame id2 W Ht filename) st2)) as ->.
  { subst second. unfold processAll, catch.
    erewrite processEquation_cached by done.
    by rewrite (image_frame_rename id1 id2 _ _ _ _ _ _ Hframe). }
  done.
Qed.

Lemma repeated_request_served_from_cache_witness :
  let st0 := @initial Sample.working 0%nat in
  let st1 := snd (@processAll Sample.working Sample.requestA st0) in
  let st2 := snd (@serve Sample.working
                    [Req_dscale (Double.of_Z 2); Req_iscale (Double.of_Z 3)] st1) in
  let second := @processAll Sample.working
                  (Req_request "2" "x^2" 8 16 1 1 0 "#ffffff") st2 in
  stdout st1 =
    stdout st0 ++ [@image_frame Sample.working "1" (Double.of_Z 1) (Double.of_Z 1)
                     "/tmp/nvim-mdmath-c0ffee/0a1b2c3_8x16.png"] ∧
  trace (snd second) = trace st2 ∧
  stdout (snd second) =
    stdout st2 ++ [@image_frame Sample.working "2" (Double.of_Z 1) (Double.of_Z 1)
                     "/tmp/nvim-mdmath-c0ffee/0a1b2c3_8x16.png"].
Proof.
  split; [vm_compute; reflexivity|].
  pose proof (@repeated_request_served_from_cache Sample.working
                (@initial Sample.working 0%nat) "1" "2" "x^2" 8 16 1 1 0 "#ffffff"
                [Req_dscale (Double.of_Z 2); Req_iscale (Double.of_Z 3)]
                (Double.of_Z 1) (Double.of_Z 1)
                "/tmp/nvim-mdmath-c0ffee/0a1b2c3_8x16.png") as Hthm.
  cbv zeta in Hthm.
  destruct Hthm as (_ & Htrace & _ & Hout); [vm_compute; reflexivity|].
  split; [exact Htrace | exact Hout].
Defined.

(* ===================================================================== *)
(** ** C2: fixed mode *)
(* ===================================================================== *)

Section Sizing.
Context `{Collaborators}.

Lemma equationToSVG_trace st equation :
  let st0 := snd (equationToSVG equation st) in
  internalScale st0 = internalScale st ∧ dynamicScale st0 = dynamicScale st ∧
  ∃ new, trace st0 = trace st ++ new ∧ Forall (λ ev, isTypesetterCall ev = true) new.
Proof.
  destruct (Js.has (svgCache st) equation) eqn:Hhas; simpl.
  - rewrite equationToSVG_hit by done. do 2 (split; [done|]).
    exists []. by rewrite app_nil_r.
  - rewrite equationToSVG_miss by done.
    destruct (tex2svg equation (world st)) as [[svg|[m|m]] w]; simpl;
      do 2 (split; [done|]); exists [Ev_tex2svg equation];
      (split; [done|]); by repeat constructor.
Qed.

Lemma typesetter_sizedAs iWidth iHeight new :
  Forall (λ ev, isTypesetterCall ev = true) new → Forall (sizedAs iWidth iHeight) new.
Proof. intros HF. eapply Forall_impl; [done|]. by intros []. Qed.

End Sizing.

(** C2, as stated, fails: the products are products of doubles, and a
    double holds no integer above 2^53 that is odd.  In fixed mode, with
    the initial [internalScale] of 1 and the positive integers
    94906267 for width and cell width, [rsvgConvert] is asked for a width
    of 9007199515875288 pixels, while
    94906267 * 94906267 * 1 = 9007199515875289. *)
Lemma fixed_mode_product_is_rounded :
  let st := @initial Sample.working 0%nat in
  let st' := snd (@processAll Sample.working
                    (Req_request "1" "x^2" 94906267 16 94906267 1 0 "#ffffff") st) in
  flag 0 1 = false ∧ @internalScale Sample.working st = Double.of_Z 1 ∧
  (94906267 * 94906267 * 1 = 9007199515875289)%Z ∧
  ∃ iWidth iHeight after,
    trace st' = Ev_tex2svg "x^2"
                  :: Ev_rsvgConvert (recolor "#ffffff" Sample.markup)
                       (BySize iWidth iHeight) :: after ∧
    Double.toZ iWidth = Some 9007199515875288%Z ∧
    Double.toZ iHeight = Some 16%Z.
Proof.
  do 3 (split; [reflexivity|]). vm_compute. do 3 eexists.
  split; [reflexivity|]. split; reflexivity.
Qed.

(** C2 (amended): for every render request with the dynamic-fit flag
    clear, in every state, each call made to the Rasterizer while the
    request is processed asks for [width * cellWidth * internalScale] by
    [height * cellHeight * internalScale] pixels, the products being the
    products of doubles, taken from left to right and each rounded to
    nearest: [rsvgConvert] is called by size (never by zoom), [pngFitTo]
    with the same two numbers, and [pngDimensions] is not called.  When
    the request is rendered (not blank, not cached, the typeset lookup
    yields markup), [rsvgConvert] is called, with the recoloured markup and
    that size.  For positive integer inputs and a positive integer
    [internalScale] the two numbers are exactly the products of the
    integers whenever these are below 2^53. *)
Theorem fixed_mode_physical_dimensions `{Collaborators}
    (st : State) (identifier equation : string)
    (cellWidth cellHeight width height flags : Z) (color : string) :
  let iScale := internalScale st in
  let iWidth :=
    Double.mul (Double.mul (Double.of_Z width) (Double.of_Z cellWidth)) iScale in
  let iHeight :=
    Double.mul (Double.mul (Double.of_Z height) (Double.of_Z cellHeight)) iScale in
  let key := equation_key equation cellWidth width cellHeight height flags color in
  let st' := snd (processAll
                    (Req_request identifier equation cellWidth cellHeight width height
                       flags color) st) in
  flag flags 1 = false →
  (∃ new,
     trace st' = trace st ++ new ∧ Forall (sizedAs iWidth iHeight) new ∧
     ∀ markup st0,
       isBlank equation = false → equationMap st !! key = None →
       equationToSVG equation st = (Returned (Js.Own (SvgOf markup)), st0) →
       markup ≠ "" →
       Ev_rsvgConvert (recolor color markup) (BySize iWidth iHeight) ∈ new) ∧
  (∀ scale : Z,
     iScale = Double.of_Z scale →
     (0 < width)%Z → (0 < cellWidth)%Z → (0 < height)%Z → (0 < cellHeight)%Z →
     (0 < scale)%Z →
     (width * cellWidth * scale < 2 ^ 53)%Z →
     (height * cellHeight * scale < 2 ^ 53)%Z →
     iWidth = Double.of_Z (width * cellWidth * scale) ∧
     iHeight = Double.of_Z (height * cellHeight * scale) ∧
     Double.toZ iWidth = Some (width * cellWidth * scale)%Z ∧
     Double.toZ iHeight = Some (height * cellHeight * scale)%Z).
Proof.
  intros iScale iWidth iHeight key st' Hflag. split.
  2: { intros scale Hscale Hw Hcw Hh Hch Hs Hwb Hhb. subst iWidth iHeight.
       rewrite Hscale, !mul_mul_of_Z by done.
       assert (0 < width * cellWidth * scale ∧ 0 < height * cellHeight * scale)%Z
         as [? ?] by (split; by repeat apply Z.mul_pos_pos).
       do 2 (split; [done|]). split; apply toZ_of_Z; lia. }
  subst st'. unfold processAll, catch.
  destruct (isBlank equation) eqn:Hb.
  { rewrite processEquation_blank by done. exists []. by rewrite app_nil_r. }
  destruct (equationMap st !! key) as [e|] eqn:He.
  { erewrite processEquation_cached by done. exists []. by rewrite app_nil_r. }
  rewrite processEquation_render by done.
  destruct (equationToSVG_trace st equation) as (Hi & _ & n0 & Ht0 & Hn0).
  apply (typesetter_sizedAs iWidth iHeight) in Hn0.
  destruct (equationToSVG equation st) as [[value|err] st0]; simpl in Hi, Ht0.
  2: { simpl. exists n0. by repeat split. }
  assert (∀ error, ∃ new,
            trace (snd (let '(r, st1) := writeError identifier error st0 in
                        match r with
                        | Returned a => (Returned a, st1)
                        | Raised err =>
                            writeError identifier (Some (message err)) st1
                        end)) = trace st ++ new
            ∧ Forall (sizedAs iWidth iHeight) new) as Herr.
  { intros [msg|]; simpl; eauto. }
  destruct (field_svg value) as [[|c markup]|] eqn:Hvalue.
  { destruct (Herr (field_error value)) as (new & ? & ?). exists new.
    do 2 (split; [done|]). intros ? ? _ _ [= -> _] ?. by simplify_eq/=. }
  2: { destruct (Herr (field_error value)) as (new & ? & ?). exists new.
       do 2 (split; [done|]). intros ? ? _ _ [= -> _] ?. by simplify_eq/=. }
  rewrite rasterize_fixed by done. cbv zeta. rewrite Hi.
  change (physical (Double.of_Z width) cellWidth (internalScale st)) with iWidth.
  change (physical (Double.of_Z height) cellHeight (internalScale st)) with iHeight.
  assert (∀ markup' st0',
            (Returned value, st0)
              = (Returned (Js.Own (SvgOf markup')), st0' : State) →
            recolor color markup' = recolor color (String c markup)) as Hsame.
  { intros ? ? [= -> _]. by simplify_eq/=. }
  destruct (rsvgConvert _ _ (world st0)) as [[png|err] w1]; simpl.
  - destruct (pngFitTo _ _ _ _ _ _) as [[[]|err] w2]; simpl; rewrite Ht0.
    all: eexists (n0 ++ [_; _]); (split; [by rewrite <-!app_assoc|]); split;
      [apply Forall_app; (split; [done|]); by repeat constructor|].
    all: intros markup' st0' _ _ Hsvg _; rewrite (Hsame _ _ Hsvg);
      apply elem_of_app; right; apply elem_of_cons; by left.
  - rewrite Ht0. eexists (n0 ++ [_]); (split; [by rewrite <-!app_assoc|]). split.
    + apply Forall_app; split; [done|]; by repeat constructor.
    + intros markup' st0' _ _ Hsvg _. rewrite (Hsame _ _ Hsvg).
      apply elem_of_app. right. apply elem_of_cons. by left.
Qed.

Lemma fixed_mode_physical_dimensions_witness :
  let st := @initial Sample.working 0%nat in
  let st' := snd (@processAll Sample.working Sample.requestA st) in
  flag 0 1 = false ∧
  (∃ new,
     trace st' = [] ++ new ∧
     Forall (sizedAs (Double.of_Z 8) (Double.of_Z 16)) new ∧
     Ev_rsvgConvert (recolor "#ffffff" Sample.markup)
       (BySize (Double.of_Z 8) (Double.of_Z 16)) ∈ new) ∧
  Double.mul (Double.mul (Double.of_Z 1) (Double.of_Z 8)) (Double.of_Z 1)
  = Double.of_Z (1 * 8 * 1).
Proof.
  intros st st'. split; [reflexivity|].
  destruct (@fixed_mode_physical_dimensions Sample.working st
              "1" "x^2" 8 16 1 1 0 "#ffffff" eq_refl)
    as ((new & Htrace & Hsized & Hcall) & Hexact).
  split.
  - exists new. split; [exact Htrace|]. split; [exact Hsized|].
    apply (Hcall Sample.markup (snd (@equationToSVG Sample.working "x^2" st)));
      [reflexivity | reflexivity | reflexivity | discriminate].
  - apply (Hexact 1%Z); reflexivity.
Defined.

(* ===================================================================== *)
(** ** C3: blank equations *)
(* ===================================================================== *)

(** C3: a render request whose equation is empty or holds only white space
    is answered with the error frame [<identifier>:error:0:0:14:Empty
    equation]; the state only gains that frame, so no collaborator is
    called (the trace and the world are unchanged) and no cache is touched.
    For the empty equation and the identifier [1] the frame is
    [1:error:0:0:14:Empty equation]. *)
Theorem blank_equation_error `{Collaborators}
    (st : State) (identifier equation : string)
    (cellWidth cellHeight width height flags : Z) (color : string) :
  let run := processAll
               (Req_request identifier equation cellWidth cellHeight width height
                  flags color) in
  every Js.isWhiteSpace equation = true →
  run st = (Returned tt, written (identifier +:+ ":error:0:0:14:Empty equation") st) ∧
  stdout (snd (run st)) = stdout st ++ [error_frame identifier "Empty equation"] ∧
  trace (snd (run st)) = trace st ∧ world (snd (run st)) = world st ∧
  svgCache (snd (run st)) = svgCache st ∧
  stdout (snd (processAll (Req_request "1" "" cellWidth cellHeight width height
                             flags color) st))
    = stdout st ++ ["1:error:0:0:14:Empty equation"].
Proof.
  intros run Hblank. subst run. rewrite <-isBlank_spec in Hblank.
  unfold processAll, catch. rewrite processEquation_blank by done.
  rewrite processEquation_blank by done. done.
Qed.

Lemma blank_equation_error_witness :
  every Js.isWhiteSpace "  " = true ∧
  @processAll Sample.working (Req_request "7" "  " 8 16 1 1 0 "#ffffff")
    (@initial Sample.working 0%nat)
  = (Returned tt,
     @written Sample.working "7:error:0:0:14:Empty equation"
       (@initial Sample.working 0%nat)).
Proof.
  split; [reflexivity|].
  apply (@blank_equation_error Sample.working (@initial Sample.working 0%nat)
           "7" "  " 8 16 1 1 0 "#ffffff").
  reflexivity.
Defined.

(* ===================================================================== *)
(** ** C7: one response for each render request *)
(* ===================================================================== *)

(** C7: processing a render request always returns (the promise of
    [processAll] is never rejected, whatever the collaborators do) and
    writes exactly one chunk to the standard output, which is an error
    frame or an image frame for the request's identifier; a rejection of
    [processEquation] is turned into the error frame of its message.  So
    no sequence of requests ends the service with an unhandled rejection. *)
Theorem one_response_per_request `{Collaborators}
    (st : State) (identifier equation : string)
    (cellWidth cellHeight width height flags : Z) (color : string) :
  let run := processAll
               (Req_request identifier equation cellWidth cellHeight width height
                  flags color) st in
  let inner := processEquation identifier equation cellWidth cellHeight width height
                 flags color st in
  fst run = Returned tt ∧
  (∃ chunk, stdout (snd run) = stdout st ++ [chunk] ∧
     ((∃ msg, chunk = error_frame identifier msg) ∨
      (∃ W Ht data, chunk = image_frame identifier W Ht data))) ∧
  match inner with
  | (Raised err, st0) =>
      stdout st0 = stdout st ∧
      run = (Returned tt, written (error_frame identifier (message err)) st0)
  | (Returned _, st0) => run = inner
  end ∧
  ∀ requests, fst (serve requests st) = Returned tt.
Proof.
  intros run inner.
  cut (fst run = Returned tt ∧
       (∃ chunk, stdout (snd run) = stdout st ++ [chunk] ∧
          ((∃ msg, chunk = error_frame identifier msg) ∨
           (∃ W Ht data, chunk = image_frame identifier W Ht data))) ∧
       match inner with
       | (Raised err, st0) =>
           stdout st0 = stdout st ∧
           run = (Returned tt, written (error_frame identifier (message err)) st0)
       | (Returned _, st0) => run = inner
       end).
  { intros (? & ? & ?). repeat (split; [done|]).
    intros requests. apply serve_returns. }
  destruct (processAll_Ends st identifier equation cellWidth cellHeight width height
              flags color) as [Hret HE]. fold run in Hret, HE.
  split; [done|]. split.
  - remember (Returned tt) as r eqn:Hr. clear Hret.
    remember (snd run) as st1 eqn:Hst.
    destruct HE as [st0 msg HQ|st0 err HQ|e He|st0 e He HQ HW]; simpl.
    + destruct HQ as (_&_&_&_&->&_). eauto 10.
    + done.
    + eauto 10.
    + destruct HQ as (_&_&_&_&->&_). eauto 10.
  - pose proof (processEquation_Ends st identifier equation cellWidth cellHeight
                  width height flags color) as HI. fold inner in HI.
    subst run. unfold processAll, catch. fold inner.
    destruct inner as [[[]|err] st0]; [done|]. simpl in *.
    split; [|done]. inversion HI as [| ? ? HQ | |]; subst.
    by destruct HQ as (_&_&_&_&->&_).
Qed.

(* ===================================================================== *)
(** ** C9: scale updates *)
(* ===================================================================== *)

(** C9: a scale update assigns the one scale variable and nothing else:
    [equations], [equationMap], [svgCache], the other scale, the output,
    the trace and the world are as before.  The entries of [equationMap]
    therefore outlive the scale they were computed under: a request whose
    key is cached is answered from the entry after the update as before
    it, without any call. *)
Theorem scale_update_frame `{Collaborators} (st : State) (scale : Double.float) :
  let std := snd (processAll (Req_dscale scale) st) in
  let sti := snd (processAll (Req_iscale scale) st) in
  (dynamicScale std = scale ∧ internalScale std = internalScale st ∧
   equations std = equations st ∧ equationMap std = equationMap st ∧
   svgCache std = svgCache st ∧ stdout std = stdout st ∧
   trace std = trace st ∧ world std = world st) ∧
  (internalScale sti = scale ∧ dynamicScale sti = dynamicScale st ∧
   equations sti = equations st ∧ equationMap sti = equationMap st ∧
   svgCache sti = svgCache st ∧ stdout sti = stdout st ∧
   trace sti = trace st ∧ world sti = world st) ∧
  ∀ identifier equation cellWidth cellHeight width height flags color e st',
    st' = std ∨ st' = sti →
    isBlank equation = false →
    equationMap st !! equation_key equation cellWidth width cellHeight height flags color
      = Some e →
    processAll (Req_request identifier equation cellWidth cellHeight width height
                  flags color) st'
    = (Returned tt,
       written (image_frame identifier (eq_width e) (eq_height e) (eq_filename e)) st').
Proof.
  intros std sti. subst std sti. rewrite processAll_dscale, processAll_iscale.
  split; [done|]. split; [done|].
  intros identifier equation cellWidth cellHeight width height flags color e st'
    [-> | ->] Hb He; unfold processAll, catch;
    by erewrite processEquation_cached.
Qed.

Lemma scale_update_frame_witness :
  let st1 := snd (@processAll Sample.working
                    (Req_request "1" "x^2" 8 16 1 1 1 "#ffffff")
                    (@initial Sample.working 0%nat)) in
  let st2 := snd (@processAll Sample.working (Req_dscale (Double.of_Z 2)) st1) in
  trace st2 = trace st1 ∧
  @processAll Sample.working (Req_request "2" "x^2" 8 16 1 1 1 "#ffffff") st2
  = (Returned tt,
     @written Sample.working
       (@image_frame Sample.working "2" (Double.of_Z 3) (Double.of_Z 1)
          "/tmp/nvim-mdmath-c0ffee/0a1b2c3_24x16.png") st2).
Proof.
  intros st1 st2.
  pose proof (@scale_update_frame Sample.working st1 (Double.of_Z 2))
    as (Hd & _ & Hstale).
  split; [apply Hd|].
  apply (Hstale "2" "x^2" 8%Z 16%Z 1%Z 1%Z 1%Z "#ffffff"
           (mkEquation "x^2" "/tmp/nvim-mdmath-c0ffee/0a1b2c3_24x16.png"
              (Double.of_Z 3) (Double.of_Z 1)) st2).
  - by left.
  - reflexivity.
  - vm_compute. reflexivity.
Defined.

(* ===================================================================== *)
(** ** C10: a failed render stores nothing *)
(* ===================================================================== *)

Section Atomic.
Context `{Collaborators}.

Lemma EntriesWritten_initial w : EntriesWritten (initial w).
Proof.
  split.
  - intros e Hin. by apply elem_of_nil in Hin.
  - intros key e He. simpl in He. by rewrite lookup_empty in He.
Qed.

Lemma EntriesWritten_Quiet st st0 :
  EntriesWritten st → Quiet st st0 → EntriesWritten st0.
Proof.
  intros [HL HM] (Heqs & Hmap & _ & _ & _ & new & Htr).
  split; rewrite ?Heqs, ?Hmap, Htr; intros; apply fileWritten_app; eauto.
Qed.

Lemma EntriesWritten_processAll request st :
  EntriesWritten st → EntriesWritten (snd (processAll request st)).
Proof.
  intros Hinv. destruct request as [id eq cw ch w h f c| | |]; try done.
  destruct (processAll_Ends st id eq cw ch w h f c) as [_ HE].
  remember (Returned tt) as r eqn:Hr.
  remember (snd (processAll (Req_request id eq cw ch w h f c) st)) as st1 eqn:Hst.
  destruct HE as [st0 msg HQ|st0 err HQ|e He|st0 e He HQ HW].
  - by apply (EntriesWritten_Quiet st st0).
  - done.
  - done.
  - destruct (EntriesWritten_Quiet st st0 Hinv HQ) as [HL HM].
    split; simpl.
    + intros e' [Hin| ->%list_elem_of_singleton]%elem_of_app; auto.
    + intros key e' He'.
      apply lookup_insert_Some in He' as [[_ <-]|[_ He']]; eauto.
Qed.

Lemma EntriesWritten_serve requests st :
  EntriesWritten st → EntriesWritten (snd (serve requests st)).
Proof.
  revert st. induction requests as [|request rest IH]; intros st Hinv; [done|].
  rewrite serve_cons. by apply IH, EntriesWritten_processAll.
Qed.

End Atomic.

(** C10: (1) a render request answered with an error frame leaves
    [equations] and [equationMap] as they were; (2) a render request
    changes them only by storing one entry, in both, under the request's
    key, when a call of [pngFitTo] for the entry's file has returned, and
    it is then answered with the image frame of that entry; (3) after any
    sequence of requests from the initial state, every entry of
    [equations] and of [equationMap] names a file that a call of
    [pngFitTo] wrote. *)
Theorem failed_render_stores_nothing `{Collaborators} :
  (∀ st identifier equation cellWidth cellHeight width height flags color msg,
     let st' := snd (processAll
                       (Req_request identifier equation cellWidth cellHeight width
                          height flags color) st) in
     stdout st' = stdout st ++ [error_frame identifier msg] →
     equations st' = equations st ∧ equationMap st' = equationMap st) ∧
  (∀ st identifier equation cellWidth cellHeight width height flags color,
     let key := equation_key equation cellWidth width cellHeight height flags color in
     let st' := snd (processAll
                       (Req_request identifier equation cellWidth cellHeight width
                          height flags color) st) in
     (equations st' = equations st ∧ equationMap st' = equationMap st) ∨
     (∃ e, equations st' = equations st ++ [e] ∧
           equationMap st' = <[key := e]> (equationMap st) ∧
           equationMap st !! key = None ∧
           fileWritten (eq_filename e) (trace st') = true ∧
           stdout st' = stdout st ++
             [image_frame identifier (eq_width e) (eq_height e) (eq_filename e)])) ∧
  (∀ w requests e,
     let st := snd (serve requests (initial w)) in
     (e ∈ equations st ∨ ∃ key, equationMap st !! key = Some e) →
     fileWritten (eq_filename e) (trace st) = true).
Proof.
  split; [|split].
  - intros st id eq cw ch w h f c msg st' Hout.
    destruct (processAll_Ends st id eq cw ch w h f c) as [_ HE]. fold st' in HE.
    remember (Returned tt) as r eqn:Hr. remember st' as st1 eqn:Hst. clear Hst.
    destruct HE as [st0 msg' HQ|st0 err HQ|e He|st0 e He HQ HW]; simpl in *.
    + by destruct HQ as (-> & -> & _).
    + done.
    + done.
    + destruct HQ as (_&_&_&_&Hs&_). rewrite Hs in Hout.
      apply app_inv_head in Hout as [=E]. by apply frames_differ in E.
  - intros st id eq cw ch w h f c key st'.
    destruct (processAll_Ends st id eq cw ch w h f c) as [_ HE]. fold st' key in HE.
    remember (Returned tt) as r eqn:Hr. remember st' as st1 eqn:Hst. clear Hst.
    destruct HE as [st0 msg' HQ|st0 err HQ|e He|st0 e He HQ HW]; simpl.
    + left. by destruct HQ as (-> & -> & _).
    + done.
    + by left.
    + right. exists e. destruct HQ as (-> & -> & _ & _ & -> & _). done.
  - intros w requests e st [Hin|[key He]].
    + by apply (EntriesWritten_serve requests (initial w) (EntriesWritten_initial w)).
    + by eapply (EntriesWritten_serve requests (initial w) (EntriesWritten_initial w)).
Qed.

Lemma failed_render_stores_nothing_witness :
  let st := snd (@processAll Sample.broken Sample.requestA (@initial Sample.broken 0%nat)) in
  stdout st = [] ++ [error_frame "1" "spawn rsvg-convert ENOENT"] ∧
  @equations Sample.broken st = [] ∧ @equationMap Sample.broken st = ∅.
Proof.
  split; [vm_compute; reflexivity|].
  apply (proj1 (@failed_render_stores_nothing Sample.broken)
           (@initial Sample.broken 0%nat) "1" "x^2" 8%Z 16%Z 1%Z 1%Z 0%Z "#ffffff"
           "spawn rsvg-convert ENOENT").
  vm_compute. reflexivity.
Defined.

(* ===================================================================== *)
(** ** C4: the typeset cache *)
(* ===================================================================== *)

(** C4: on an equation the typeset cache does not have, [equationToSVG]
    calls the Typesetter once.  Markup is stored and returned, and a
    [MathError] is stored and returned as [{error: message}]: in every state
    that holds the entry, the lookup returns the identical result and
    changes nothing, so the Typesetter is not called and a malformed
    equation yields the identical message.  Any other error is thrown to
    the caller and leaves the typeset cache as it was: in every state with
    that cache the Typesetter is called again, and if it fails again its
    error is thrown again. *)
Theorem typeset_cache_policy `{Collaborators} (st : State) (equation : string) :
  Js.has (svgCache st) equation = false →
  let first := equationToSVG equation st in
  trace (snd first) = trace st ++ [Ev_tex2svg equation] ∧
  match tex2svg equation (world st) with
  | (Returned svg, _) =>
      fst first = Returned (Js.Own (SvgOf svg)) ∧
      svgCache (snd first) = <[equation := SvgOf svg]> (svgCache st) ∧
      ∀ st2, svgCache st2 !! equation = Some (SvgOf svg) →
             equationToSVG equation st2 = (Returned (Js.Own (SvgOf svg)), st2)
  | (Raised (MathError m), _) =>
      fst first = Returned (Js.Own (ErrorOf m)) ∧
      svgCache (snd first) = <[equation := ErrorOf m]> (svgCache st) ∧
      ∀ st2, svgCache st2 !! equation = Some (ErrorOf m) →
             equationToSVG equation st2 = (Returned (Js.Own (ErrorOf m)), st2)
  | (Raised (Error m), _) =>
      fst first = Raised (Error m) ∧
      svgCache (snd first) = svgCache st ∧
      ∀ st2, svgCache st2 = svgCache st →
             trace (snd (equationToSVG equation st2))
               = trace st2 ++ [Ev_tex2svg equation] ∧
             ∀ m' w', tex2svg equation (world st2) = (Raised (Error m'), w') →
                      equationToSVG equation st2
                      = (Raised (Error m'), recorded (Ev_tex2svg equation) w' st2)
  end.
Proof.
  intros Hmiss first. subst first. rewrite equationToSVG_miss by done.
  assert (∀ result st2, svgCache st2 !! equation = Some result →
            equationToSVG equation st2 = (Returned (Js.Own result), st2)) as Hhit.
  { intros result st2 Hin. rewrite equationToSVG_hit.
    - unfold Js.get. by rewrite Hin.
    - unfold Js.has. rewrite Hin. by rewrite bool_decide_eq_true_2 by eauto. }
  destruct (tex2svg equation (world st)) as [[svg|[m|m]] w]; simpl;
    (split; [done|]); (split; [done|]); (split; [done|]); auto.
  intros st2 Hsame.
  assert (Js.has (svgCache st2) equation = false) as Hmiss2 by (by rewrite Hsame).
  rewrite equationToSVG_miss by done. split.
  - by destruct (tex2svg equation (world st2)) as [[?|[?|?]] ?].
  - by intros m' w' ->.
Qed.

Lemma typeset_cache_policy_witness :
  let st := @initial Sample.working 0%nat in
  Js.has (@svgCache Sample.working st) "\frac" = false ∧
  @equationToSVG Sample.working "\frac"
    (snd (@equationToSVG Sample.working "\frac" st))
  = (Returned (Js.Own (ErrorOf "Missing argument for \frac")),
     snd (@equationToSVG Sample.working "\frac" st)).
Proof.
  intros st. split; [reflexivity|].
  pose proof (@typeset_cache_policy Sample.working st "\frac" eq_refl) as [_ Hcase].
  simpl in Hcase. destruct Hcase as (_ & Hstored & Hagain).
  apply Hagain. rewrite Hstored. apply lookup_insert_eq.
Defined.

(* ===================================================================== *)
(** ** C5: dynamic-fit mode *)
(* ===================================================================== *)

(** C5, as stated, fails: the quotients are quotients of doubles, each
    rounded, so the final span is not the ceiling of the quotient of the
    numbers.  With [internalScale] set to 14/10 (the double 1.4), a cell of
    10 by 10 pixels and a raster of 42 by 14 pixels, a request for 1 by 1
    cells is answered with 4 by 1 cells.  The width: 42/1.4/10 is 3, and the
    double of 42/1.4 is above 30.  The height: the double 1.4 is below 7/5,
    so 14 divided by it and by 10 is above 1 and its ceiling is 2, while
    the double of the first quotient is 10.  And the zoom for a cell height
    of 16 and scales of 1 is a double, which 5/3 is not. *)
Lemma dynamic_span_is_rounded :
  let scale := Double.div (Double.of_Z 14) (Double.of_Z 10) in
  let st := snd (@processAll Sample.wide (Req_iscale scale) (@initial Sample.wide 0%nat)) in
  let st' := snd (@processAll Sample.wide
                    (Req_request "1" "x^2" 10 10 1 1 1 "#ffffff") st) in
  @pngDimensions Sample.wide "PNG" 0%nat = (Returned (42, 14)%Z, 1%nat) ∧
  stdout st' = ["1:image:4:1:41:/tmp/nvim-mdmath-c0ffee/0a1b2c3_56x14.png"] ∧
  Double.toZ (fitSpan 1 42 scale 10) = Some 4%Z ∧
  Qceiling (42 / (14 # 10) / 10) = 3%Z ∧
  Double.toZ (fitSpan 1 14 scale 10) = Some 1%Z ∧
  (∃ exact, Double.toQ scale = Some exact ∧ (exact < 14 # 10)%Q ∧
            Qceiling (14 / exact / 10) = 2%Z) ∧
  (∃ zoom, Double.toQ (zoomOf (Double.of_Z 1) 16 (Double.of_Z 1)) = Some zoom ∧
           ¬ (zoom == 10 * 1 * 16 * 1 / 96)%Q).
Proof.
  do 5 (split; [vm_compute; reflexivity|]). split.
  - eexists. split; [vm_compute; reflexivity|]. split; vm_compute; reflexivity.
  - eexists. split; [vm_compute; reflexivity|]. vm_compute. discriminate.
Qed.

(** C5 (amended): a render request with the dynamic-fit flag set that is
    rendered (not blank, not cached, the typeset lookup yields markup) calls
    [rsvgConvert] with the zoom
    [10 * dynamicScale * cellHeight * internalScale / 96]; when the raster
    measures [pngWidth] by [pngHeight] pixels the final span is
    [Math.max(width, Math.ceil(pngWidth / internalScale / cellWidth))] by
    [Math.max(height, Math.ceil(pngHeight / internalScale / cellHeight))]
    cells; [pngFitTo] is asked for that span times the cell size times
    [internalScale], and when it returns the image frame and the stored
    entry carry the final span.  Every product and quotient is the product
    or quotient of doubles, taken from left to right and rounded to
    nearest.  Neither final span is smaller than requested, and when it is
    a number (the quotient was not NaN) it is at least the requested
    one. *)
Theorem dynamic_fit_sizing `{Collaborators}
    (st st0 : State) (identifier equation markup : string)
    (cellWidth cellHeight width height flags : Z) (color : string) :
  let key := equation_key equation cellWidth width cellHeight height flags color in
  let iScale := internalScale st in
  let zoom :=
    Double.div
      (Double.mul (Double.mul (Double.mul (Double.of_Z 10) (dynamicScale st))
                     (Double.of_Z cellHeight)) iScale)
      (Double.of_Z 96) in
  let svg := recolor color markup in
  let st' := snd (processAll
                    (Req_request identifier equation cellWidth cellHeight width height
                       flags color) st) in
  flag flags 1 = true →
  isBlank equation = false →
  equationMap st !! key = None →
  equationToSVG equation st = (Returned (Js.Own (SvgOf markup)), st0) →
  markup ≠ "" →
  match rsvgConvert svg (ByZoom zoom) (world st0) with
  | (Raised err, _) =>
      trace st' = trace st0 ++ [Ev_rsvgConvert svg (ByZoom zoom)] ∧
      stdout st' = stdout st ++ [error_frame identifier (message err)]
  | (Returned basePNG, w1) =>
      match pngDimensions basePNG w1 with
      | (Raised err, _) =>
          trace st' = trace st0 ++ [Ev_rsvgConvert svg (ByZoom zoom); Ev_pngDimensions] ∧
          stdout st' = stdout st ++ [error_frame identifier (message err)]
      | (Returned (pngWidth, pngHeight), _) =>
          let W := Double.max (Double.of_Z width)
                     (Double.ceil
                        (Double.div (Double.div (Double.of_Z pngWidth) iScale)
                           (Double.of_Z cellWidth))) in
          let Ht := Double.max (Double.of_Z height)
                      (Double.ceil
                         (Double.div (Double.div (Double.of_Z pngHeight) iScale)
                            (Double.of_Z cellHeight))) in
          let iWidth := Double.mul (Double.mul W (Double.of_Z cellWidth)) iScale in
          let iHeight := Double.mul (Double.mul Ht (Double.of_Z cellHeight)) iScale in
          let filename := filenameOf equation iWidth iHeight in
          Double.ltb W (Double.of_Z width) = false ∧
          Double.ltb Ht (Double.of_Z height) = false ∧
          (Double.isNaN W = false → Double.leb (Double.of_Z width) W = true) ∧
          (Double.isNaN Ht = false → Double.leb (Double.of_Z height) Ht = true) ∧
          ∃ ok,
            trace st' = trace st0 ++
              [Ev_rsvgConvert svg (ByZoom zoom); Ev_pngDimensions;
               Ev_pngFitTo filename iWidth iHeight (flag flags 2) ok] ∧
            (ok = true →
             stdout st' = stdout st ++ [image_frame identifier W Ht filename] ∧
             equationMap st' !! key = Some (mkEquation equation filename W Ht))
      end
  end.
Proof.
  intros key iScale zoom svg st' Hflag Hb He Hsvg Hne. subst st'.
  unfold processAll, catch. rewrite processEquation_render by done. rewrite Hsvg.
  pose proof (equationToSVG_Quiet st equation) as HQ. rewrite Hsvg in HQ.
  destruct HQ as (_ & _ & Hi & Hd & Hout & _). simpl in Hi, Hd, Hout.
  simpl field_svg. destruct markup as [|c markup]; [done|].
  rewrite rasterize_dynamic by done. cbv zeta. rewrite Hi, Hd.
  fold iScale. change (zoomOf (dynamicScale st) cellHeight iScale) with zoom.
  fold svg.
  destruct (rsvgConvert svg (ByZoom zoom) (world st0)) as [[png|err] w1]; simpl;
    [|by rewrite Hout; split].
  destruct (pngDimensions png w1) as [[[pw ph]|err] w2]; simpl;
    [|by rewrite Hout, <-app_assoc; split].
  split; [apply max_not_below|]. split; [apply max_not_below|].
  split; [intros; by apply max_leb|]. split; [intros; by apply max_leb|].
  unfold fitSpan, physical.
  destruct (pngFitTo _ _ _ _ _ _) as [[[]|err] w3]; simpl.
  - exists true. split; [by rewrite <-!app_assoc|]. intros _.
    rewrite Hout. split; [done|]. apply lookup_insert_eq.
  - exists false. split; [by rewrite <-!app_assoc|]. done.
Qed.

Lemma dynamic_fit_sizing_witness :
  let st := @initial Sample.working 0%nat in
  let st' := snd (@processAll Sample.working
                    (Req_request "1" "x^2" 8 16 1 1 1 "#ffffff") st) in
  flag 1 1 = true ∧
  Double.ltb (fitSpan 1 20 (Double.of_Z 1) 8) (Double.of_Z 1) = false ∧
  ∃ ok,
    trace st' = [Ev_tex2svg "x^2"] ++
      [Ev_rsvgConvert (recolor "#ffffff" Sample.markup)
         (ByZoom (zoomOf (Double.of_Z 1) 16 (Double.of_Z 1)));
       Ev_pngDimensions;
       Ev_pngFitTo "/tmp/nvim-mdmath-c0ffee/0a1b2c3_24x16.png"
         (Double.of_Z 24) (Double.of_Z 16) (flag 1 2) ok].
Proof.
  intros st st'. split; [reflexivity|].
  pose proof (@dynamic_fit_sizing Sample.working st
                (snd (@equationToSVG Sample.working "x^2" st))
                "1" "x^2" Sample.markup 8 16 1 1 1 "#ffffff" eq_refl) as Hthm.
  cbv zeta in Hthm.
  destruct Hthm as (Hw & _ & _ & _ & ok & Htrace & _);
    [reflexivity | reflexivity | reflexivity | discriminate |].
  split; [exact Hw|]. exists ok. exact Htrace.
Defined.

(* ===================================================================== *)
(** ** C6: the key of the rendered-image cache *)
(* ===================================================================== *)

(** C6, as stated, fails: the key joins its fields with separators that the
    equation and the color may themselves hold.  These two requests differ
    in the equation, the cell size, the span and the color, and have one
    key; served one after the other, the second is answered from the entry
    of the first, without any call. *)
Lemma distinct_requests_one_key :
  ("x^2", 8, 1, 16, 1, 0, "4*2x4*2_0_red")%Z ≠ ("x^2_8*1x16*1_0", 4, 2, 4, 2, 0, "red")%Z ∧
  equation_key "x^2" 8 1 16 1 0 "4*2x4*2_0_red"
    = equation_key "x^2_8*1x16*1_0" 4 2 4 2 0 "red" ∧
  let st1 := snd (@processAll Sample.working
                    (Req_request "1" "x^2" 8 16 1 1 0 "4*2x4*2_0_red")
                    (@initial Sample.working 0%nat)) in
  let st2 := snd (@processAll Sample.working
                    (Req_request "2" "x^2_8*1x16*1_0" 4 4 2 2 0 "red") st1) in
  stdout st2 = ["1:image:1:1:40:/tmp/nvim-mdmath-c0ffee/0a1b2c3_8x16.png";
                "2:image:1:1:40:/tmp/nvim-mdmath-c0ffee/0a1b2c3_8x16.png"] ∧
  trace st2 = trace st1.
Proof. split; [done|]. vm_compute. done. Qed.

(** C6 (amended): two render requests whose colors hold no underscore and
    that differ in at least one of equation text, cell width, requested
    width, cell height, requested height, flags or color have distinct
    keys, hence distinct entries of the rendered-image cache: storing an
    entry under the key of one does not change what is found under the key
    of the other. *)
Theorem distinct_requests_distinct_keys
    (e1 e2 : string) (cw1 w1 ch1 h1 f1 cw2 w2 ch2 h2 f2 : Z) (c1 c2 : string) :
  occurs "_" c1 = false → occurs "_" c2 = false →
  (e1, cw1, w1, ch1, h1, f1, c1) ≠ (e2, cw2, w2, ch2, h2, f2, c2) →
  equation_key e1 cw1 w1 ch1 h1 f1 c1 ≠ equation_key e2 cw2 w2 ch2 h2 f2 c2 ∧
  ∀ (m : gmap string Equation) entry,
    Js.get (<[equation_key e1 cw1 w1 ch1 h1 f1 c1 := entry]> m)
      (equation_key e2 cw2 w2 ch2 h2 f2 c2)
    = Js.get m (equation_key e2 cw2 w2 ch2 h2 f2 c2).
Proof.
  intros Hc1 Hc2 Hne.
  assert (equation_key e1 cw1 w1 ch1 h1 f1 c1 ≠ equation_key e2 cw2 w2 ch2 h2 f2 c2)
    as Hkeys.
  { intros Hkey. apply Hne.
    apply equation_key_inj in Hkey as (-> & -> & -> & -> & -> & -> & ->); done. }
  split; [done|]. intros m entry. unfold Js.get. by rewrite lookup_insert_ne.
Qed.

Lemma distinct_requests_distinct_keys_witness :
  occurs "_" "#ffffff" = false ∧ occurs "_" "#000000" = false ∧
  equation_key "x^2" 8 1 16 1 0 "#ffffff" ≠ equation_key "x^2" 8 1 16 1 0 "#000000".
Proof.
  split; [reflexivity|]. split; [reflexivity|].
  apply (distinct_requests_distinct_keys "x^2" "x^2" 8 1 16 1 0 8 1 16 1 0
           "#ffffff" "#000000"); [reflexivity | reflexivity | discriminate].
Defined.


(* ===================================================================== *)
(** ** C8: the color and the style attribute *)
(* ===================================================================== *)

(** C8, as stated, fails on both counts.  Only the leftmost style attribute
    is removed: a second one, here one that sets the fill, stays in the
    markup given to the Rasterizer.  And the color is a replacement
    pattern, not a literal: with the color [$&] every marker is replaced by
    the matched text, that is by itself. *)
Lemma recolor_leaves_style_and_marker :
  let q := String Replace.dquote "" in
  recolor "#fff"
    ("<svg style=" +:+ q +:+ "vertical-align: 0" +:+ q +:+ "><g style=" +:+ q
       +:+ "fill: red" +:+ q +:+ " stroke=" +:+ q +:+ "currentColor" +:+ q +:+ "/></svg>")
  = "<svg ><g style=" +:+ q +:+ "fill: red" +:+ q +:+ " stroke=" +:+ q +:+ "#fff" +:+ q
      +:+ "/></svg>" ∧
  recolor "$&" ("<g stroke=" +:+ q +:+ "currentColor" +:+ q +:+ "/>")
  = "<g stroke=" +:+ q +:+ "currentColor" +:+ q +:+ "/>".
Proof. vm_compute. done. Qed.

(** C8 (amended): when the color holds no dollar sign, every occurrence of
    [currentColor] in the markup is replaced with the color: the markup is
    its pieces, free of the marker, joined by the marker, and the result of
    the replacement is the same pieces joined by the color.  From that
    result the leftmost style attribute (the text [style=], a double quote,
    a non-empty body without double quote, a double quote) is removed,
    whatever follows it being kept. *)
Theorem recolor_replaces_marker_and_first_style (color svg : string) :
  occurs "$" color = false →
  ∃ pieces,
    svg = join "currentColor" pieces ∧
    Forall (λ piece, contains "currentColor" piece = false) pieces ∧
    Replace.replaceAll "currentColor" color svg = join color pieces ∧
    ∀ before body after,
      join color pieces
        = before +:+ Replace.style_open +:+ body +:+ String Replace.dquote after →
      contains Replace.style_open before = false →
      body ≠ "" → occurs Replace.dquote body = false →
      recolor color svg = before +:+ after.
Proof.
  intros Hcolor.
  destruct (pieces_exist "c" "urrentColor" svg) as (pieces & -> & Hpieces).
  exists pieces. split; [done|]. split; [done|].
  assert (Replace.replaceAll "currentColor" color (join "currentColor" pieces)
          = join color pieces) as Hall by (by apply replaceAll_join).
  split; [done|].
  intros before body after Hshape Hbefore Hbody Hquote.
  unfold recolor. rewrite Hall, Hshape. by apply stripStyle_first.
Qed.

Lemma recolor_replaces_marker_and_first_style_witness :
  let q := String Replace.dquote "" in
  occurs "$" "#ffffff" = false ∧
  recolor "#ffffff" Sample.markup
  = "<svg " +:+ "><g stroke=" +:+ q +:+ "#ffffff" +:+ q +:+ "/></svg>".
Proof.
  intros q. split; [reflexivity|].
  destruct (recolor_replaces_marker_and_first_style "#ffffff" Sample.markup eq_refl)
    as (pieces & _ & _ & Hall & Hstyle).
  apply (Hstyle "<svg " "vertical-align: -0.05ex;"
           ("><g stroke=" +:+ q +:+ "#ffffff" +:+ q +:+ "/></svg>")).
  - rewrite <-Hall. reflexivity.
  - reflexivity.
  - discriminate.
  - reflexivity.
Defined.

(* ===================================================================== *)
(** ** Beyond the claims: the pipeline in full *)
(* ===================================================================== *)

Section Explicit.
Context `{Collaborators}.

Lemma processAll_blank st id eq cw ch w h f c :
  isBlank eq = true →
  processAll (Req_request id eq cw ch w h f c) st
  = (Returned tt, written (error_frame id "Empty equation") st).
Proof. intros Hb. unfold processAll, catch. by rewrite processEquation_blank. Qed.

Lemma processAll_cached st id eq cw ch w h f c e :
  isBlank eq = false →
  equationMap st !! equation_key eq cw w ch h f c = Some e →
  processAll (Req_request id eq cw ch w h f c) st
  = (Returned tt, written (image_frame id (eq_width e) (eq_height e) (eq_filename e)) st).
Proof. intros Hb He. unfold processAll, catch. by erewrite processEquation_cached. Qed.

(** A render request that is not blank and not cached, path by path. *)
Lemma processAll_render st id eq cw ch w h f c :
  isBlank eq = false →
  equationMap st !! equation_key eq cw w ch h f c = None →
  processAll (Req_request id eq cw ch w h f c) st =
  match equationToSVG eq st with
  | (Raised err, st0) => (Returned tt, written (error_frame id (message err)) st0)
  | (Returned value, st0) =>
      match field_svg value with
      | None | Some "" =>
          match field_error value with
          | Some m => (Returned tt, written (error_frame id m) st0)
          | None =>
              (Returned tt,
               written (error_frame id (message (TypeError_reading "length"))) st0)
          end
      | Some markup =>
          match rasterize (recolor c markup) cw ch w h f st0 with
          | (Raised err, st1) =>
              (Returned tt, written (error_frame id (message err)) st1)
          | (Returned (basePNG, width', height', iWidth, iHeight), st1) =>
              let filename := filenameOf eq iWidth iHeight in
              let ev := Ev_pngFitTo filename iWidth iHeight (flag f 2) in
              match pngFitTo basePNG filename iWidth iHeight (flag f 2) (world st1) with
              | (Raised err, w1) =>
                  (Returned tt,
                   written (error_frame id (message err)) (recorded (ev false) w1 st1))
              | (Returned _, w1) =>
                  (Returned tt,
                   written (image_frame id width' height' filename)
                     (stored (equation_key eq cw w ch h f c)
                        (mkEquation eq filename width' height')
                        (recorded (ev true) w1 st1)))
              end
          end
      end
  end.
Proof.
  intros Hb He. unfold processAll, catch. rewrite processEquation_render by done.
  destruct (equationToSVG eq st) as [[value|err] st0]; [|done].
  destruct (field_svg value) as [[|a markup]|].
  - by destruct (field_error value).
  - destruct (rasterize _ _ _ _ _ _ st0) as [[[[[[png w'] h'] iw] ih]|err] st1];
      [|done].
    cbv zeta. by destruct (pngFitTo _ _ _ _ _ _) as [[[]|err] w1].
  - by destruct (field_error value).
Qed.

(** [rasterize] changes the trace and the world only, and calls
    [rsvgConvert] and [pngDimensions] only. *)
Lemma rasterize_calls st svg cw ch w h f :
  let st1 := snd (rasterize svg cw ch w h f st) in
  equations st1 = equations st ∧ equationMap st1 = equationMap st ∧
  svgCache st1 = svgCache st ∧ stdout st1 = stdout st ∧
  internalScale st1 = internalScale st ∧ dynamicScale st1 = dynamicScale st ∧
  ∃ new, trace st1 = trace st ++ new ∧
         Forall (λ ev, isFit ev = false ∧ isTypesetterCall ev = false) new.
Proof.
  destruct (flag f 1) eqn:Hflag; simpl.
  - rewrite rasterize_dynamic by done. cbv zeta.
    destruct (rsvgConvert _ _ _) as [[png|?] w1]; simpl.
    + destruct (pngDimensions png w1) as [[[pw ph]|?] w2]; simpl;
        repeat (split; [done|]); eexists [_; _];
        (split; [by rewrite <-app_assoc|]); by repeat constructor.
    + repeat (split; [done|]). eexists [_]. split; [done|]. by repeat constructor.
  - rewrite rasterize_fixed by done. cbv zeta.
    destruct (rsvgConvert _ _ _) as [[png|?] w1]; simpl;
      repeat (split; [done|]); eexists [_]; (split; [done|]); by repeat constructor.
Qed.

(** The first call [rasterize] makes is [rsvgConvert], with the arguments of
    the mode; when it rejects, nothing else is called. *)
Lemma rasterize_rejected st svg cw ch w h f err w1 :
  rsvgConvert svg (rsvgArgsOf st cw ch w h f) (world st) = (Raised err, w1) →
  rasterize svg cw ch w h f st
  = (Raised err, recorded (Ev_rsvgConvert svg (rsvgArgsOf st cw ch w h f)) w1 st).
Proof.
  unfold rsvgArgsOf. destruct (flag f 1) eqn:Hflag; intros Hr.
  - rewrite rasterize_dynamic by done. cbv zeta. by rewrite Hr.
  - rewrite rasterize_fixed by done. cbv zeta. by rewrite Hr.
Qed.

(** [equationToSVG] changes the typeset cache, the trace and the world
    only; it calls the Typesetter at most once, and only for an equation
    the cache does not have; it keeps what the cache holds. *)
Lemma equationToSVG_calls st eq :
  let st0 := snd (equationToSVG eq st) in
  equations st0 = equations st ∧ equationMap st0 = equationMap st ∧
  stdout st0 = stdout st ∧
  internalScale st0 = internalScale st ∧ dynamicScale st0 = dynamicScale st ∧
  (∀ k r, svgCache st !! k = Some r → svgCache st0 !! k = Some r) ∧
  (∀ k r, svgCache st0 !! k = Some r →
          svgCache st !! k = Some r ∨ (k = eq ∧ Js.inherited k = false)) ∧
  (trace st0 = trace st ∨
   (trace st0 = trace st ++ [Ev_tex2svg eq] ∧ Js.has (svgCache st) eq = false)).
Proof.
  destruct (Js.has (svgCache st) eq) eqn:Hhas; simpl.
  - rewrite equationToSVG_hit by done. simpl. repeat (split; [done|]).
    split; [by left|by left].
  - rewrite equationToSVG_miss by done.
    assert (svgCache st !! eq = None ∧ Js.inherited eq = false) as [Hnone Hinh].
    { unfold Js.has in Hhas. apply orb_false_elim in Hhas as [Hown ?].
      split; [|done]. apply bool_decide_eq_false in Hown.
      destruct (svgCache st !! eq); [|done]. destruct Hown. eauto. }
    destruct (tex2svg eq (world st)) as [[svg|[m|m]] w]; simpl;
      repeat (split; [done|]).
    + split; [|split; [|by right]].
      * intros k r Hk. rewrite lookup_insert_ne; [done|]. congruence.
      * intros k r [[-> _]|[_ ?]]%lookup_insert_Some; [by right|by left].
    + split; [|split; [|by right]].
      * intros k r Hk. rewrite lookup_insert_ne; [done|]. congruence.
      * intros k r [[-> _]|[_ ?]]%lookup_insert_Some; [by right|by left].
    + split; [by left|by right].
Qed.

End Explicit.

Section Summary.
Context `{Collaborators}.

(** What a render request does to the state: the calls it makes, in order
    (the Typesetter at most once and only on a miss of the typeset cache,
    then [rsvgConvert] and [pngDimensions], then [pngFitTo] at most once,
    for a file named after the equation and the pixel size), and the one
    entry it stores when [pngFitTo] returned. *)
Lemma processAll_summary st id eq cw ch w h f c :
  let key := equation_key eq cw w ch h f c in
  let st' := snd (processAll (Req_request id eq cw ch w h f c) st) in
  ∃ n0 n1 n2,
    trace st' = trace st ++ n0 ++ n1 ++ n2 ∧
    (n0 = [] ∨ (n0 = [Ev_tex2svg eq] ∧ Js.has (svgCache st) eq = false)) ∧
    Forall (λ ev, isFit ev = false ∧ isTypesetterCall ev = false) n1 ∧
    (∀ k r, svgCache st !! k = Some r → svgCache st' !! k = Some r) ∧
    (∀ k r, svgCache st' !! k = Some r →
            svgCache st !! k = Some r ∨
            (k = eq ∧ Js.inherited k = false ∧ n0 = [Ev_tex2svg eq])) ∧
    internalScale st' = internalScale st ∧ dynamicScale st' = dynamicScale st ∧
    ((n2 = [] ∧ equations st' = equations st ∧ equationMap st' = equationMap st) ∨
     (∃ iW iH ok,
        n2 = [Ev_pngFitTo (filenameOf eq iW iH) iW iH (flag f 2) ok] ∧
        if ok then
          ∃ W Ht,
            equations st' = equations st ++ [mkEquation eq (filenameOf eq iW iH) W Ht] ∧
            equationMap st' = <[key := mkEquation eq (filenameOf eq iW iH) W Ht]>
                                (equationMap st) ∧
            equationMap st !! key = None
        else equations st' = equations st ∧ equationMap st' = equationMap st)).
Proof.
  intros key st'. subst st'.
  destruct (isBlank eq) eqn:Hb.
  { rewrite processAll_blank by done. exists [], [], []. simpl.
    rewrite app_nil_r. repeat (split; [by auto|]). by left. }
  destruct (equationMap st !! key) as [e|] eqn:He.
  { erewrite processAll_cached by done. exists [], [], []. simpl.
    rewrite app_nil_r. repeat (split; [by auto|]). by left. }
  rewrite processAll_render by done.
  destruct (equationToSVG_calls st eq)
    as (Heqs & Hmap & _ & Hi & Hd & Hmono & Hnew & Htr).
  assert (∃ n0, trace (snd (equationToSVG eq st)) = trace st ++ n0 ∧
                (n0 = [] ∨ n0 = [Ev_tex2svg eq] ∧ Js.has (svgCache st) eq = false) ∧
                (∀ k r, svgCache (snd (equationToSVG eq st)) !! k = Some r →
                        svgCache st !! k = Some r ∨
                        k = eq ∧ Js.inherited k = false ∧ n0 = [Ev_tex2svg eq]))
    as (n0 & Ht0 & Hn0 & Hnew').
  { destruct Htr as [Htr|[Htr Hmiss]].
    - exists []. rewrite app_nil_r. split; [done|]. split; [by left|].
      intros k r Hk. destruct (Hnew k r Hk) as [?|[-> Hinh]]; [by left|].
      (* no call was made: the entry was there before *)
      left. destruct (Js.has (svgCache st) eq) eqn:Hhas.
      + rewrite equationToSVG_hit in Hk by done. done.
      + rewrite equationToSVG_miss in Htr by done.
        destruct (tex2svg eq (world st)) as [[?|[?|?]] ?]; simpl in Htr;
          apply (f_equal length) in Htr; rewrite length_app in Htr; simpl in Htr; lia.
    - exists [Ev_tex2svg eq]. split; [done|]. split; [by right|].
      intros k r Hk. destruct (Hnew k r Hk) as [?|[-> Hinh]]; [by left|by right]. }
  clear Hnew Htr.
  destruct (equationToSVG eq st) as [[value|err] st0]; simpl in *.
  2: { exists n0, [], []. rewrite !app_nil_r. repeat (split; [by auto|]). by left. }
  destruct (field_svg value) as [[|a markup]|].
  { destruct (field_error value); simpl; exists n0, [], []; rewrite !app_nil_r;
      repeat (split; [by auto|]); by left. }
  2: { destruct (field_error value); simpl; exists n0, [], []; rewrite !app_nil_r;
         repeat (split; [by auto|]); by left. }
  destruct (rasterize_calls st0 (recolor c (String a markup)) cw ch w h f)
    as (Heqs1 & Hmap1 & Hsvg1 & _ & Hi1 & Hd1 & n1 & Ht1 & Hn1).
  destruct (rasterize _ _ _ _ _ _ st0) as [[[[[[png W] Ht] iW] iH]|err] st1];
    simpl in *.
  2: { exists n0, n1, []. rewrite app_nil_r, Ht1, Ht0, <-app_assoc, Hsvg1.
       repeat (split; [by auto || congruence|]). left. split; [done|].
       split; congruence. }
  destruct (pngFitTo _ _ _ _ _ _) as [[[]|err] w1]; simpl.
  - exists n0, n1, [Ev_pngFitTo (filenameOf eq iW iH) iW iH (flag f 2) true].
    rewrite Ht1, Ht0, <-!app_assoc, Hsvg1.
    repeat (split; [by auto || congruence|]).
    right. exists iW, iH, true. split; [done|]. exists W, Ht.
    rewrite Heqs1, Hmap1, Heqs, Hmap. done.
  - exists n0, n1, [Ev_pngFitTo (filenameOf eq iW iH) iW iH (flag f 2) false].
    rewrite Ht1, Ht0, <-!app_assoc, Hsvg1.
    repeat (split; [by auto || congruence|]).
    right. exists iW, iH, false. split; [done|]. split; congruence.
Qed.

End Summary.

(* ===================================================================== *)
(** ** Beyond the claims: the service over any sequence of requests *)
(* ===================================================================== *)

Section Sequences.
Context `{Collaborators}.

Lemma processAll_other_state request st :
  isRender request = false →
  let st' := snd (processAll request st) in
  equations st' = equations st ∧ equationMap st' = equationMap st ∧
  svgCache st' = svgCache st ∧ stdout st' = stdout st ∧ trace st' = trace st.
Proof. by destruct request. Qed.

Lemma processAll_one_chunk st id eq cw ch w h f c :
  ∃ chunk, stdout (snd (processAll (Req_request id eq cw ch w h f c) st))
           = stdout st ++ [chunk].
Proof.
  destruct (processAll_Ends st id eq cw ch w h f c) as [_ HE].
  remember (Returned tt) as r eqn:Hr.
  remember (snd (processAll (Req_request id eq cw ch w h f c) st)) as st1 eqn:Hst.
  destruct HE as [st0 msg HQ|st0 err HQ|e He|st0 e He HQ HW]; simpl.
  - destruct HQ as (_&_&_&_&->&_). eauto.
  - done.
  - eauto.
  - destruct HQ as (_&_&_&_&->&_). eauto.
Qed.

Lemma fileWritten_quiet filename tr new :
  Forall (λ ev, isFit ev = false ∧ isTypesetterCall ev = false) new →
  fileWritten filename (tr ++ new) = fileWritten filename tr.
Proof.
  intros Hnew. unfold fileWritten. rewrite existsb_app.
  induction Hnew as [|ev new [Hev _] _ IH]; simpl; [by rewrite orb_false_r|].
  by destruct ev.
Qed.

Lemma filenameOf_inWorkspace eq iW iH :
  HashWithoutSlash → inWorkspace (filenameOf eq iW iH).
Proof.
  intros Hhash.
  exists (Js.slice0 7 (sha256Hash eq) +:+ "_" +:+ Number_toString iW +:+ "x"
          +:+ Number_toString iH).
  split; [unfold filenameOf; by rewrite !append_assoc|].
  rewrite !occurs_append, Hhash, !Number_toString_without by done. done.
Qed.

End Sequences.

(** X1: over any sequence of requests the service writes exactly one frame
    for each render request and none for a scale update or a request of
    another type. *)
Theorem one_frame_per_render `{Collaborators} (requests : list Request) (st : State) :
  ∃ frames,
    stdout (snd (serve requests st)) = stdout st ++ frames ∧
    length frames = length (renders requests).
Proof.
  revert st. induction requests as [|request rest IH]; intros st.
  - exists []. by rewrite app_nil_r.
  - rewrite serve_cons. destruct (IH (snd (processAll request st))) as (frames & -> & Hlen).
    destruct (isRender request) eqn:Hr.
    + destruct request as [id eq cw ch w h f c| | |]; try done.
      destruct (processAll_one_chunk st id eq cw ch w h f c) as (chunk & ->).
      exists (chunk :: frames). split; [by rewrite <-app_assoc|].
      unfold renders in *. simpl. by rewrite Hlen.
    + destruct (processAll_other_state request st Hr) as (_ & _ & _ & -> & _).
      exists frames. split; [done|]. unfold renders in *. simpl. by rewrite Hr.
Qed.

(** X2: the Typesetter is asked once for an equation: when the typeset
    cache holds a result for an equation, no later request, whatever its
    cell size, span, flags and color, calls the Typesetter for that
    equation, and the cached result stays as it is. *)
Theorem typeset_once_per_equation `{Collaborators}
    (st : State) (equation : string) (result : TypesetResult) (requests : list Request) :
  svgCache st !! equation = Some result →
  let st' := snd (serve requests st) in
  svgCache st' !! equation = Some result ∧
  ∃ new, trace st' = trace st ++ new ∧ Ev_tex2svg equation ∉ new.
Proof.
  revert st. induction requests as [|request rest IH]; intros st Hcached.
  { simpl. split; [done|]. exists []. rewrite app_nil_r. split; [done|].
    apply not_elem_of_nil. }
  cbv zeta. rewrite serve_cons.
  assert (svgCache (snd (processAll request st)) !! equation = Some result ∧
          ∃ new, trace (snd (processAll request st)) = trace st ++ new ∧
                 Ev_tex2svg equation ∉ new) as (Hcached' & new1 & Ht1 & Hnew1).
  { destruct (isRender request) eqn:Hr.
    - destruct request as [id eq cw ch w h f c| | |]; try done.
      destruct (processAll_summary st id eq cw ch w h f c)
        as (n0 & n1 & n2 & Ht & Hn0 & Hn1 & Hmono & _ & _ & _ & Hn2).
      split; [by apply Hmono|]. exists (n0 ++ n1 ++ n2). split; [done|].
      rewrite !not_elem_of_app. split; [|split].
      + destruct Hn0 as [->|[-> Hmiss]]; [apply not_elem_of_nil|].
        intros [= ->]%list_elem_of_singleton.
        unfold Js.has in Hmiss. rewrite Hcached in Hmiss.
        by rewrite bool_decide_eq_true_2 in Hmiss by eauto.
      + intros Hin. eapply Forall_forall in Hn1 as [_ ?]; [|done]. done.
      + destruct Hn2 as [(-> & _)|(iW & iH & ok & -> & _)];
          [apply not_elem_of_nil|]. by intros ?%list_elem_of_singleton.
    - destruct (processAll_other_state request st Hr) as (_ & _ & -> & _ & ->).
      split; [done|]. exists []. rewrite app_nil_r. split; [done|].
      apply not_elem_of_nil. }
  destruct (IH _ Hcached') as (Hfinal & new2 & Ht2 & Hnew2).
  split; [done|]. exists (new1 ++ new2).
  split; [by rewrite Ht2, Ht1, <-app_assoc|]. by rewrite not_elem_of_app.
Qed.

Lemma typeset_once_per_equation_witness :
  let st := snd (@processAll Sample.working Sample.requestA (@initial Sample.working 0%nat)) in
  let st' := snd (@serve Sample.working
                    [Req_request "2" "x^2" 9 18 2 1 1 "#000000";
                     Req_request "3" "x^2" 7 14 1 3 2 "red"] st) in
  @svgCache Sample.working st !! "x^2" = Some (SvgOf Sample.markup) ∧
  ∃ new, trace st' = trace st ++ new ∧ Ev_tex2svg "x^2" ∉ new.
Proof.
  intros st st'. split; [vm_compute; reflexivity|].
  apply (@typeset_once_per_equation Sample.working st "x^2" (SvgOf Sample.markup)).
  vm_compute. reflexivity.
Defined.

Section Invariants.
Context `{Collaborators}.

Lemma serve_invariant (P : State → Prop) :
  (∀ request st, P st → P (snd (processAll request st))) →
  ∀ requests st, P st → P (snd (serve requests st)).
Proof.
  intros Hstep requests. induction requests as [|request rest IH]; intros st HP;
    [done|]. rewrite serve_cons. by apply IH, Hstep.
Qed.

Lemma Tracked_processAll request st :
  Tracked st → Tracked (snd (processAll request st)).
Proof.
  intros [Hmap Hfiles]. destruct (isRender request) eqn:Hr.
  2: { destruct (processAll_other_state request st Hr) as (He & Hm & _ & _ & Ht).
       split; rewrite ?He, ?Hm, ?Ht; done. }
  destruct request as [id eq cw ch w h f c| | |]; try done.
  destruct (processAll_summary st id eq cw ch w h f c)
    as (n0 & n1 & n2 & Ht & Hn0 & Hn1 & _ & _ & _ & _ & Hn2).
  assert (∀ filename,
            fileWritten filename (trace st ++ n0 ++ n1) = fileWritten filename (trace st))
    as Hquiet.
  { intros filename. rewrite app_assoc, fileWritten_quiet by done.
    destruct Hn0 as [->|[-> _]]; [by rewrite app_nil_r|].
    unfold fileWritten. rewrite existsb_app. simpl. by rewrite !orb_false_r. }
  split.
  - intros key e He.
    destruct Hn2 as [(_ & -> & Hm)|(iW & iH & [] & _ & Hok)].
    + rewrite Hm in He. eauto.
    + destruct Hok as (W & Ht' & -> & Hm & _). rewrite Hm in He.
      apply elem_of_app.
      apply lookup_insert_Some in He as [[_ <-]|[_ He]];
        [right; by apply list_elem_of_singleton | left; eauto].
    + destruct Hok as [-> Hm]. rewrite Hm in He. eauto.
  - intros filename Hw. rewrite Ht in Hw.
    assert (fileWritten filename (trace st) = true ∨ fileWritten filename n2 = true)
      as [Hold|Hnew].
    { rewrite !app_assoc, <-(app_assoc (trace st)) in Hw.
      unfold fileWritten in Hw. rewrite existsb_app in Hw.
      apply orb_prop in Hw as [Hw|Hw]; [left|by right].
      rewrite <-Hquiet. done. }
    + destruct (Hfiles _ Hold) as (e & Hin & Hname). exists e. split; [|done].
      destruct Hn2 as [(_ & -> & _)|(iW & iH & [] & _ & Hok)]; [done| |].
      * destruct Hok as (W & Ht' & -> & _ & _). apply elem_of_app. by left.
      * by destruct Hok as [-> _].
    + destruct Hn2 as [(-> & _)|(iW & iH & [] & -> & Hok)]; [done| |done].
      destruct Hok as (W & Ht' & -> & _ & _). simpl in Hnew.
      rewrite orb_false_r in Hnew. apply String.eqb_eq in Hnew.
      eexists. split; [apply elem_of_app; right; by apply list_elem_of_singleton|].
      done.
Qed.

Lemma Tracked_initial w : Tracked (initial w).
Proof. split; [intros key e He; simpl in He; by rewrite lookup_empty in He | done]. Qed.

Lemma Confined_processAll request st :
  HashWithoutSlash → Confined st → Confined (snd (processAll request st)).
Proof.
  intros Hhash [Hcalls Hentries]. destruct (isRender request) eqn:Hr.
  2: { destruct (processAll_other_state request st Hr) as (He & _ & _ & _ & Ht).
       split; rewrite ?He, ?Ht; done. }
  destruct request as [id eq cw ch w h f c| | |]; try done.
  destruct (processAll_summary st id eq cw ch w h f c)
    as (n0 & n1 & n2 & Ht & Hn0 & Hn1 & _ & _ & _ & _ & Hn2).
  split.
  - intros filename iW iH center ok. rewrite Ht, !elem_of_app.
    intros [Hin|[Hin|[Hin|Hin]]].
    + eauto.
    + destruct Hn0 as [->|[-> _]]; [by apply elem_of_nil in Hin|].
      by apply list_elem_of_singleton in Hin.
    + eapply Forall_forall in Hn1 as [? _]; [|done]. done.
    + destruct Hn2 as [(-> & _)|(iW' & iH' & ok' & -> & _)];
        [by apply elem_of_nil in Hin|].
      apply list_elem_of_singleton in Hin as [= -> _ _ _ _].
      by apply filenameOf_inWorkspace.
  - intros e.
    destruct Hn2 as [(_ & -> & _)|(iW & iH & [] & _ & Hok)]; [apply Hentries| |].
    + destruct Hok as (W & Ht' & -> & _ & _).
      intros [Hin| ->%list_elem_of_singleton]%elem_of_app; [eauto|].
      by apply filenameOf_inWorkspace.
    + destruct Hok as [-> _]. apply Hentries.
Qed.

Lemma Confined_initial w : Confined (initial w).
Proof. split; intros *; simpl; by intros ?%elem_of_nil. Qed.

End Invariants.

(** X6: after any sequence of requests from the initial state, the cleanup
    list [equations] misses nothing: every entry of [equationMap] is in
    it, and for every file that a call of [pngFitTo] wrote there is an
    entry with that file name. *)
Theorem cleanup_list_complete `{Collaborators} (w : World) (requests : list Request) :
  let st := snd (serve requests (initial w)) in
  (∀ key e, equationMap st !! key = Some e → e ∈ equations st) ∧
  (∀ filename, fileWritten filename (trace st) = true →
               ∃ e, e ∈ equations st ∧ eq_filename e = filename).
Proof.
  apply (serve_invariant Tracked Tracked_processAll), Tracked_initial.
Qed.

(** X7: when the first seven code units of a hash hold no slash (as those
    of a hexadecimal digest), after any sequence of requests from the
    initial state every call of [pngFitTo], whether it returned or not, was
    given a file name [IMG_DIR/<name>.png] whose [<name>] holds no slash,
    whatever the equation, the sizes and the scales (the printed sizes hold
    none either), and so is the file name of every entry of [equations]:
    the service writes files of its workspace directory itself, none in
    another directory. *)
Theorem writes_confined_to_workspace `{Collaborators}
    (w : World) (requests : list Request) :
  (∀ s, occurs "/" (Js.slice0 7 (sha256Hash s)) = false) →
  let st := snd (serve requests (initial w)) in
  (∀ filename iW iH center ok,
     Ev_pngFitTo filename iW iH center ok ∈ trace st →
     ∃ name, filename = IMG_DIR +:+ "/" +:+ name +:+ ".png" ∧
             occurs "/" name = false) ∧
  (∀ e, e ∈ equations st →
        ∃ name, eq_filename e = IMG_DIR +:+ "/" +:+ name +:+ ".png" ∧
                occurs "/" name = false).
Proof.
  intros Hhash.
  apply (serve_invariant Confined (λ request st, Confined_processAll request st Hhash)),
    Confined_initial.
Qed.

Lemma writes_confined_to_workspace_witness :
  let st := snd (@serve Sample.working
                   [Req_iscale (Double.div (Double.of_Z 1) (Double.of_Z 3));
                    Sample.requestA]
                   (@initial Sample.working 0%nat)) in
  (∀ s, occurs "/" (Js.slice0 7 (Sample.digest s)) = false) ∧
  ∃ e name, @equations Sample.working st = [e] ∧
            eq_filename e = "/tmp/nvim-mdmath-c0ffee" +:+ "/" +:+ name +:+ ".png" ∧
            occurs "/" name = false.
Proof.
  intros st. split; [intros s; reflexivity|].
  destruct (@writes_confined_to_workspace Sample.working 0%nat
              [Req_iscale (Double.div (Double.of_Z 1) (Double.of_Z 3));
               Sample.requestA]
              (λ s, eq_refl)) as [_ Hentries].
  eexists. destruct (Hentries (hd (mkEquation "" "" Double.NaN Double.NaN)
                                 (@equations Sample.working st)))
    as (name & Hname & Hfree).
  - vm_compute. left.
  - exists name. split; [vm_compute; reflexivity|]. split; [exact Hname | exact Hfree].
Defined.

(* ===================================================================== *)
(** ** Beyond the claims: the error paths of a render request *)
(* ===================================================================== *)

Section ErrorPaths.
Context `{Collaborators}.

(** What [equationToSVG] returns as an own entry is in the cache
    afterwards. *)
Lemma equationToSVG_own st eq result st0 :
  equationToSVG eq st = (Returned (Js.Own result), st0) →
  svgCache st0 !! eq = Some result.
Proof.
  destruct (Js.has (svgCache st) eq) eqn:Hhas.
  - rewrite equationToSVG_hit by done. intros [= Hget <-].
    unfold Js.get in Hget. destruct (svgCache st !! eq); [by simplify_eq|].
    by destruct (Js.inherited eq).
  - rewrite equationToSVG_miss by done.
    destruct (tex2svg eq (world st)) as [[svg|[m|m]] w]; intros [= <- <-];
      apply lookup_insert_eq.
Qed.

Lemma equationToSVG_cached st eq result :
  svgCache st !! eq = Some result →
  equationToSVG eq st = (Returned (Js.Own result), st).
Proof.
  intros Hin. rewrite equationToSVG_hit.
  - unfold Js.get. by rewrite Hin.
  - unfold Js.has. rewrite Hin. by rewrite bool_decide_eq_true_2 by eauto.
Qed.

(** The first call of [rasterize] is [rsvgConvert] with the arguments of
    the mode; the Typesetter and [pngFitTo] are not called. *)
Lemma rasterize_first_call st svg cw ch w h f :
  ∃ rest,
    trace (snd (rasterize svg cw ch w h f st))
    = trace st ++ Ev_rsvgConvert svg (rsvgArgsOf st cw ch w h f) :: rest ∧
    Forall (λ ev, isFit ev = false ∧ isTypesetterCall ev = false) rest.
Proof.
  unfold rsvgArgsOf. destruct (flag f 1) eqn:Hflag.
  - rewrite rasterize_dynamic by done. cbv zeta.
    destruct (rsvgConvert _ _ _) as [[png|?] w1]; simpl.
    + destruct (pngDimensions png w1) as [[[pw ph]|?] w2]; simpl;
        exists [Ev_pngDimensions]; (split; [by rewrite <-app_assoc|]);
        by repeat constructor.
    + by exists [].
  - rewrite rasterize_fixed by done. cbv zeta.
    destruct (rsvgConvert _ _ _) as [[png|?] w1]; simpl; by exists [].
Qed.

Lemma inherited_not_blank eq : Js.inherited eq = true → isBlank eq = false.
Proof.
  unfold Js.inherited. intros Hin%bool_decide_eq_true.
  unfold Js.Object_prototype_keys in Hin.
  repeat (apply elem_of_cons in Hin as [->|Hin]; [by vm_compute|]).
  by apply elem_of_nil in Hin.
Qed.

Lemma NoInheritedKey_processAll request st :
  NoInheritedKey st → NoInheritedKey (snd (processAll request st)).
Proof.
  intros Hinv. destruct (isRender request) eqn:Hr.
  2: { destruct (processAll_other_state request st Hr) as (_ & _ & Hs & _).
       unfold NoInheritedKey. by rewrite Hs. }
  destruct request as [id eq cw ch w h f c| | |]; try done.
  destruct (processAll_summary st id eq cw ch w h f c)
    as (n0 & n1 & n2 & _ & _ & _ & _ & Hnew & _).
  intros k r Hk. destruct (Hnew k r Hk) as [?|(_ & ? & _)]; eauto.
Qed.

End ErrorPaths.

(** X3: a render request for a malformed equation (not blank, not cached,
    the Typesetter throws a [MathError]) is answered with the error frame
    of the Typesetter's message; the only call made is the one to the
    Typesetter, so the Rasterizer is not called and nothing is stored in
    [equations] or [equationMap].  Any later request for that equation
    that is not in [equationMap], whatever its identifier, cell size,
    span, flags and color, is answered with the same message without any
    call. *)
Theorem malformed_equation_response `{Collaborators}
    (st : State) (identifier equation : string)
    (cellWidth cellHeight width height flags : Z) (color m : string) (w1 : World) :
  isBlank equation = false →
  equationMap st !! equation_key equation cellWidth width cellHeight height flags color
    = None →
  Js.has (svgCache st) equation = false →
  tex2svg equation (world st) = (Raised (MathError m), w1) →
  let st1 := typeset_cached equation (ErrorOf m)
               (recorded (Ev_tex2svg equation) w1 st) in
  processAll (Req_request identifier equation cellWidth cellHeight width height
                flags color) st
  = (Returned tt, written (error_frame identifier m) st1) ∧
  trace st1 = trace st ++ [Ev_tex2svg equation] ∧
  equations st1 = equations st ∧ equationMap st1 = equationMap st ∧
  ∀ st2 id' cw' ch' w' h' f' c',
    svgCache st2 !! equation = Some (ErrorOf m) →
    equationMap st2 !! equation_key equation cw' w' ch' h' f' c' = None →
    processAll (Req_request id' equation cw' ch' w' h' f' c') st2
    = (Returned tt, written (error_frame id' m) st2).
Proof.
  intros Hb He Hmiss Htex st1. split; [|split; [done|split; [done|split; [done|]]]].
  - rewrite processAll_render by done. rewrite equationToSVG_miss by done.
    by rewrite Htex.
  - intros st2 id' cw' ch' w' h' f' c' Hcached He2.
    rewrite processAll_render by done. by rewrite (equationToSVG_cached _ _ _ Hcached).
Qed.

Lemma malformed_equation_response_witness :
  let st := @initial Sample.working 0%nat in
  isBlank "\frac" = false ∧
  @processAll Sample.working (Req_request "4" "\frac" 8 16 1 1 0 "#ffffff") st
  = (Returned tt,
     @written Sample.working (error_frame "4" "Missing argument for \frac")
       (@typeset_cached Sample.working "\frac" (ErrorOf "Missing argument for \frac")
          (@recorded Sample.working (Ev_tex2svg "\frac") 1%nat st))).
Proof.
  intros st. split; [reflexivity|].
  apply (@malformed_equation_response Sample.working st "4" "\frac" 8 16 1 1 0
           "#ffffff" "Missing argument for \frac" 1%nat);
    reflexivity.
Defined.

(** X4: when [rsvgConvert] rejects while a request is rendered, the request
    is answered with the error frame of the rejection's message and
    nothing is stored in [equations] or [equationMap]; the same request
    sent again (under any identifier) calls [rsvgConvert] again, with the
    same markup and arguments, and does not call the Typesetter: a tooling
    failure is retried, the typeset result is reused. *)
Theorem rasterizer_failure_is_retried `{Collaborators}
    (st st0 : State) (identifier identifier' equation markup : string)
    (cellWidth cellHeight width height flags : Z) (color : string)
    (err : Thrown) (w1 : World) :
  let key := equation_key equation cellWidth width cellHeight height flags color in
  let svg := recolor color markup in
  let args := rsvgArgsOf st cellWidth cellHeight width height flags in
  isBlank equation = false →
  equationMap st !! key = None →
  equationToSVG equation st = (Returned (Js.Own (SvgOf markup)), st0) →
  markup ≠ "" →
  rsvgConvert svg args (world st0) = (Raised err, w1) →
  let first := processAll (Req_request identifier equation cellWidth cellHeight
                             width height flags color) st in
  let second := processAll (Req_request identifier' equation cellWidth cellHeight
                              width height flags color) (snd first) in
  first = (Returned tt,
           written (error_frame identifier (message err))
             (recorded (Ev_rsvgConvert svg args) w1 st0)) ∧
  equations (snd first) = equations st ∧ equationMap (snd first) = equationMap st ∧
  ∃ rest,
    trace (snd second) = trace (snd first) ++ Ev_rsvgConvert svg args :: rest ∧
    Forall (λ ev, isTypesetterCall ev = false) rest.
Proof.
  intros key svg args Hb He Hsvg Hne Hrej first second.
  destruct (equationToSVG_calls st equation) as (Heqs & Hmap & _ & Hi & Hd & _).
  rewrite Hsvg in Heqs, Hmap, Hi, Hd. simpl in Heqs, Hmap, Hi, Hd.
  assert (rsvgArgsOf st0 cellWidth cellHeight width height flags = args) as Hargs.
  { unfold args, rsvgArgsOf. by rewrite Hi, Hd. }
  assert (first = (Returned tt,
                   written (error_frame identifier (message err))
                     (recorded (Ev_rsvgConvert svg args) w1 st0))) as Hfirst.
  { subst first. rewrite processAll_render by done. rewrite Hsvg. simpl field_svg.
    destruct markup as [|a markup]; [done|].
    rewrite (rasterize_rejected _ _ _ _ _ _ _ err w1) by (by rewrite Hargs).
    by rewrite Hargs. }
  split; [done|]. subst second. rewrite Hfirst. cbn [snd].
  split; [done|]. split; [done|].
  set (st1 := written _ _).
  assert (equationMap st1 !! key = None) as He1 by (by subst st1; simpl; rewrite Hmap).
  pose proof (processAll_render st1 identifier' equation cellWidth cellHeight width
                height flags color Hb He1) as Hrun.
  assert (svgCache st1 !! equation = Some (SvgOf markup)) as Hcached
    by (by apply equationToSVG_own in Hsvg).
  rewrite (equationToSVG_cached _ _ _ Hcached) in Hrun. simpl field_svg in Hrun.
  destruct markup as [|a markup]; [done|].
  destruct (rasterize_first_call st1 (recolor color (String a markup))
              cellWidth cellHeight width height flags) as (rest & Htr & Hrest).
  assert (rsvgArgsOf st1 cellWidth cellHeight width height flags = args) as Hargs1.
  { unfold args, rsvgArgsOf. subst st1. simpl. by rewrite Hi, Hd. }
  rewrite Hargs1 in Htr. fold svg in Htr, Hrun.
  assert (Forall (λ ev, isTypesetterCall ev = false) rest) as Hrest'.
  { eapply Forall_impl; [done|]. by intros ? [_ ?]. }
  destruct (rasterize svg _ _ _ _ _ st1) as [[[[[[png W] Ht] iW] iH]|err'] st2];
    simpl in Htr.
  - cbv zeta in Hrun.
    destruct (pngFitTo _ _ _ _ _ _) as [[[]|err'] w2]; rewrite Hrun; simpl;
      rewrite Htr; eexists (rest ++ [_]); (split; [by rewrite <-app_assoc|]);
      apply Forall_app; (split; [done|]); by repeat constructor.
  - rewrite Hrun. simpl. rewrite Htr. by exists rest.
Qed.

Lemma rasterizer_failure_is_retried_witness :
  let st := @initial Sample.broken 0%nat in
  let first := @processAll Sample.broken Sample.requestA st in
  let second := @processAll Sample.broken (Req_request "2" "x^2" 8 16 1 1 0 "#ffffff")
                  (snd first) in
  isBlank "x^2" = false ∧
  ∃ rest,
    trace (snd second)
    = trace (snd first) ++
      Ev_rsvgConvert (recolor "#ffffff" Sample.markup)
        (@rsvgArgsOf Sample.broken st 8 16 1 1 0) :: rest ∧
    Forall (λ ev, isTypesetterCall ev = false) rest.
Proof.
  intros st first second. split; [reflexivity|].
  apply (@rasterizer_failure_is_retried Sample.broken st
           (snd (@equationToSVG Sample.broken "x^2" st))
           "1" "2" "x^2" Sample.markup 8 16 1 1 0 "#ffffff"
           (Error "spawn rsvg-convert ENOENT") 2%nat);
    [reflexivity | reflexivity | reflexivity | discriminate | reflexivity].
Defined.

(** X5: an equation whose text is the name of a member of
    [Object.prototype] (toString, constructor, valueOf, ...) is found by
    the [in] test of the typeset cache although nothing was stored for it:
    after any sequence of requests from the initial state, a request for
    such an equation that is not in [equationMap] is answered with the
    error frame of a TypeError, and no collaborator is called. *)
Theorem inherited_name_never_typeset `{Collaborators}
    (w : World) (requests : list Request) (identifier equation : string)
    (cellWidth cellHeight width height flags : Z) (color : string) :
  let st := snd (serve requests (initial w)) in
  Js.inherited equation = true →
  equationMap st !! equation_key equation cellWidth width cellHeight height flags color
    = None →
  processAll (Req_request identifier equation cellWidth cellHeight width height
                flags color) st
  = (Returned tt,
     written (error_frame identifier
                "Cannot read properties of undefined (reading 'length')") st).
Proof.
  intros st Hinh He.
  assert (NoInheritedKey st) as Hinv.
  { apply (serve_invariant NoInheritedKey NoInheritedKey_processAll).
    intros k r Hk. simpl in Hk. by rewrite lookup_empty in Hk. }
  assert (svgCache st !! equation = None) as Hnone.
  { destruct (svgCache st !! equation) as [r|] eqn:Hk; [|done].
    apply Hinv in Hk. congruence. }
  rewrite processAll_render by (done || by apply inherited_not_blank).
  rewrite equationToSVG_hit by (unfold Js.has; by rewrite Hinh, orb_true_r).
  unfold Js.get. by rewrite Hnone, Hinh.
Qed.

Lemma inherited_name_never_typeset_witness :
  let st := snd (@serve Sample.working [Sample.requestA] (@initial Sample.working 0%nat)) in
  Js.inherited "constructor" = true ∧
  @processAll Sample.working (Req_request "9" "constructor" 8 16 1 1 0 "#ffffff") st
  = (Returned tt,
     @written Sample.working
       (error_frame "9" "Cannot read properties of undefined (reading 'length')") st).
Proof.
  intros st. split; [reflexivity|].
  apply (@inherited_name_never_typeset Sample.working 0%nat [Sample.requestA]
           "9" "constructor" 8 16 1 1 0 "#ffffff"); [reflexivity|].
  vm_compute. reflexivity.
Defined.

(* ===================================================================== *)
(** ** Beyond the claims: file names, frames and the fitted box *)
(* ===================================================================== *)

Section Files.
Context `{Collaborators}.

(** A fixed-mode request that leaves a fresh entry: the entry and the last
    call. *)
Lemma fixed_fresh_entry st id eq cw ch w h f c e :
  let key := equation_key eq cw w ch h f c in
  let st' := snd (processAll (Req_request id eq cw ch w h f c) st) in
  let iW := physical (Double.of_Z w) cw (internalScale st) in
  let iH := physical (Double.of_Z h) ch (internalScale st) in
  flag f 1 = false →
  equationMap st !! key = None →
  equationMap st' !! key = Some e →
  e = mkEquation eq (filenameOf eq iW iH) (Double.of_Z w) (Double.of_Z h) ∧
  ∃ tr, trace st' = tr ++ [Ev_pngFitTo (filenameOf eq iW iH) iW iH (flag f 2) true].
Proof.
  intros key st' iW iH Hflag He. subst st'.
  destruct (isBlank eq) eqn:Hb.
  { rewrite processAll_blank by done. simpl. congruence. }
  rewrite processAll_render by done.
  destruct (equationToSVG_calls st eq) as (_ & Hmap & _ & Hi & _).
  destruct (equationToSVG eq st) as [[value|err] st0]; simpl in Hmap, Hi;
    [|simpl; congruence].
  destruct (field_svg value) as [[|a markup]|].
  { destruct (field_error value); simpl; congruence. }
  2: { destruct (field_error value); simpl; congruence. }
  rewrite rasterize_fixed by done. cbv zeta. rewrite Hi. fold iW iH.
  destruct (rsvgConvert _ _ _) as [[png|err] w1]; simpl; [|congruence].
  destruct (pngFitTo _ _ _ _ _ _) as [[[]|err] w2]; simpl; [|congruence].
  rewrite lookup_insert_eq. intros [= <-]. split; [done|]. eauto.
Qed.

End Files.

(** X8: the file name does not depend on the color nor on the center flag.
    When two fixed-mode requests for the same equation, cell size and span
    are both rendered (each leaves a fresh entry under its own key), the
    second is written to the file of the first: its [pngFitTo] call
    returned for that very file name, while the entry of the first request
    is still in [equationMap] and still names that file. *)
Theorem recolored_render_overwrites_file `{Collaborators}
    (st : State) (id1 id2 equation : string) (cellWidth cellHeight width height : Z)
    (flags1 flags2 : Z) (color1 color2 : string) (e1 e2 : Equation) :
  let k1 := equation_key equation cellWidth width cellHeight height flags1 color1 in
  let k2 := equation_key equation cellWidth width cellHeight height flags2 color2 in
  let st1 := snd (processAll (Req_request id1 equation cellWidth cellHeight width height
                                flags1 color1) st) in
  let st2 := snd (processAll (Req_request id2 equation cellWidth cellHeight width height
                                flags2 color2) st1) in
  flag flags1 1 = false → flag flags2 1 = false →
  equationMap st !! k1 = None → equationMap st1 !! k1 = Some e1 →
  equationMap st1 !! k2 = None → equationMap st2 !! k2 = Some e2 →
  eq_filename e2 = eq_filename e1 ∧
  equationMap st2 !! k1 = Some e1 ∧
  ∃ tr iW iH, trace st2 = tr ++ [Ev_pngFitTo (eq_filename e1) iW iH (flag flags2 2) true].
Proof.
  intros k1 k2 st1 st2 Hf1 Hf2 Hnone1 Hsome1 Hnone2 Hsome2.
  destruct (fixed_fresh_entry st id1 equation cellWidth cellHeight width height
              flags1 color1 e1 Hf1 Hnone1 Hsome1) as [-> _].
  destruct (fixed_fresh_entry st1 id2 equation cellWidth cellHeight width height
              flags2 color2 e2 Hf2 Hnone2 Hsome2) as [-> (tr & Htr)].
  assert (internalScale st1 = internalScale st) as Hi.
  { subst st1.
    by destruct (processAll_summary st id1 equation cellWidth cellHeight width height
                   flags1 color1) as (? & ? & ? & _ & _ & _ & _ & _ & ? & _). }
  fold st1 in Htr |- *. rewrite Hi in Htr |- *. simpl.
  split; [done|]. split; [by apply processAll_keeps_entry|]. eauto.
Qed.

Lemma recolored_render_overwrites_file_witness :
  let st := @initial Sample.working 0%nat in
  let st1 := snd (@processAll Sample.working
                    (Req_request "1" "x^2" 8 16 1 1 0 "#ffffff") st) in
  let st2 := snd (@processAll Sample.working
                    (Req_request "2" "x^2" 8 16 1 1 0 "#000000") st1) in
  flag 0 1 = false ∧
  @equationMap Sample.working st2 !! equation_key "x^2" 8 1 16 1 0 "#ffffff"
    = Some (mkEquation "x^2" "/tmp/nvim-mdmath-c0ffee/0a1b2c3_8x16.png"
              (Double.of_Z 1) (Double.of_Z 1)) ∧
  ∃ tr iW iH,
    trace st2 = tr ++ [Ev_pngFitTo "/tmp/nvim-mdmath-c0ffee/0a1b2c3_8x16.png"
                         iW iH (flag 0 2) true].
Proof.
  intros st st1 st2. split; [reflexivity|].
  destruct (@recolored_render_overwrites_file Sample.working st "1" "2" "x^2"
              8 16 1 1 0 0 "#ffffff" "#000000"
              (mkEquation "x^2" "/tmp/nvim-mdmath-c0ffee/0a1b2c3_8x16.png"
                 (Double.of_Z 1) (Double.of_Z 1))
              (mkEquation "x^2" "/tmp/nvim-mdmath-c0ffee/0a1b2c3_8x16.png"
                 (Double.of_Z 1) (Double.of_Z 1)))
    as (_ & Hkept & Hlast);
    [reflexivity | reflexivity | vm_compute; reflexivity | vm_compute; reflexivity
    | vm_compute; reflexivity | vm_compute; reflexivity |].
  split; [exact Hkept | exact Hlast].
Defined.

Section Frames.
Context `{Collaborators}.

(** A string is cut in one way only at the first occurrence of a code
    unit. *)
Lemma cut_first c (s1 t1 s2 t2 : string) :
  occurs c s1 = false → occurs c s2 = false →
  s1 +:+ String c t1 = s2 +:+ String c t2 → s1 = s2 ∧ t1 = t2.
Proof.
  revert s2. induction s1 as [|a s1 IH]; intros [|b s2] H1 H2 E;
    string_cons; simpl in *; simplify_eq.
  - done.
  - by rewrite Ascii.eqb_refl in H2.
  - by rewrite Ascii.eqb_refl in H1.
  - apply orb_false_elim in H1 as [_ H1]. apply orb_false_elim in H2 as [_ H2].
    destruct (IH s2) as [-> ->]; done.
Qed.

(** Two texts of one length that start two equal strings are equal. *)
Lemma cut_length (a1 b1 a2 b2 : string) :
  String.length a1 = String.length a2 →
  a1 +:+ b1 = a2 +:+ b2 → a1 = a2 ∧ b1 = b2.
Proof.
  revert a2. induction a1 as [|x a1 IH]; intros [|y a2] Hlen E;
    string_cons; simpl in *; simplify_eq; [done|].
  destruct (IH a2) as [-> ->]; done.
Qed.

Lemma Number_toString_length_inj (a b : string) :
  Js.Number_toString (Z.of_nat (String.length a))
  = Js.Number_toString (Z.of_nat (String.length b)) →
  String.length a = String.length b.
Proof. intros E%Number_toString_inj. lia. Qed.

Lemma image_frame_stream id w h d rest :
  image_frame id w h d +:+ rest =
  id +:+ String ":" ("image" +:+ String ":" (Number_toString w +:+ String ":"
    (Number_toString h +:+ String ":"
       (Js.Number_toString (Z.of_nat (String.length d)) +:+ String ":" (d +:+ rest))))).
Proof. unfold image_frame. rewrite !append_assoc. by string_cons. Qed.

Lemma error_frame_stream id e rest :
  error_frame id e +:+ rest =
  id +:+ String ":" ("error" +:+ String ":" ("0" +:+ String ":" ("0" +:+ String ":"
    (Js.Number_toString (Z.of_nat (String.length e)) +:+ String ":" (e +:+ rest))))).
Proof. unfold error_frame. rewrite !append_assoc. by string_cons. Qed.

(** Two image frames that start the same string. *)
Lemma image_frames_cut id1 id2 w1 h1 d1 rest1 w2 h2 d2 rest2 :
  occurs ":" id1 = false → occurs ":" id2 = false →
  image_frame id1 w1 h1 d1 +:+ rest1 = image_frame id2 w2 h2 d2 +:+ rest2 →
  id1 = id2 ∧ Number_toString w1 = Number_toString w2 ∧
  Number_toString h1 = Number_toString h2 ∧ d1 = d2 ∧ rest1 = rest2.
Proof.
  intros Hid1 Hid2.
  assert (∀ n, occurs ":" (Js.Number_toString n) = false) as Hnum
    by (intros; by apply Number_toString_free).
  assert (∀ x, occurs ":" (Number_toString x) = false) as Hdouble
    by (intros; by apply Number_toString_without).
  rewrite !image_frame_stream. intros E.
  apply cut_first in E as [-> E]; [|done..].
  apply cut_first in E as [_ E]; [|done..].
  apply cut_first in E as [Hw E]; [|done..].
  apply cut_first in E as [Hh E]; [|done..].
  apply cut_first in E as [Hlen%Number_toString_length_inj E]; [|done..].
  apply cut_length in E as [-> ->]; done.
Qed.

End Frames.

(** X9: the output is self-delimiting.  For identifiers without a colon,
    a frame followed by anything determines its fields and what follows
    it: two image frames (or two error frames) that start the same string
    of code units have the same identifier, the same printed width and
    height (the same width and height, when these are integers below 2^53
    in magnitude) and the same payload, and are followed by the same rest;
    and an image frame never starts the same string as an error frame. *)
Theorem frames_self_delimiting `{Collaborators} (id1 id2 : string) :
  occurs ":" id1 = false → occurs ":" id2 = false →
  (∀ w1 h1 d1 rest1 w2 h2 d2 rest2,
     image_frame id1 w1 h1 d1 +:+ rest1 = image_frame id2 w2 h2 d2 +:+ rest2 →
     id1 = id2 ∧ Number_toString w1 = Number_toString w2 ∧
     Number_toString h1 = Number_toString h2 ∧ d1 = d2 ∧ rest1 = rest2) ∧
  (∀ (w1 h1 w2 h2 : Z) d1 rest1 d2 rest2,
     (Z.abs w1 < 2 ^ 53)%Z → (Z.abs h1 < 2 ^ 53)%Z →
     (Z.abs w2 < 2 ^ 53)%Z → (Z.abs h2 < 2 ^ 53)%Z →
     image_frame id1 (Double.of_Z w1) (Double.of_Z h1) d1 +:+ rest1
     = image_frame id2 (Double.of_Z w2) (Double.of_Z h2) d2 +:+ rest2 →
     id1 = id2 ∧ w1 = w2 ∧ h1 = h2 ∧ d1 = d2 ∧ rest1 = rest2) ∧
  (∀ e1 rest1 e2 rest2,
     error_frame id1 e1 +:+ rest1 = error_frame id2 e2 +:+ rest2 →
     id1 = id2 ∧ e1 = e2 ∧ rest1 = rest2) ∧
  (∀ w h d rest1 e rest2,
     image_frame id1 w h d +:+ rest1 ≠ error_frame id2 e +:+ rest2).
Proof.
  intros Hid1 Hid2.
  assert (∀ n, occurs ":" (Js.Number_toString n) = false) as Hnum
    by (intros; by apply Number_toString_free).
  split; [|split; [|split]].
  - intros w1 h1 d1 rest1 w2 h2 d2 rest2. by apply image_frames_cut.
  - intros w1 h1 w2 h2 d1 rest1 d2 rest2 Hw1 Hh1 Hw2 Hh2 E.
    apply image_frames_cut in E as (-> & Hw & Hh & -> & ->); [|done..].
    rewrite !Number_toString_of_Z in Hw, Hh by done.
    apply Number_toString_inj in Hw as ->. by apply Number_toString_inj in Hh as ->.
  - intros e1 rest1 e2 rest2. rewrite !error_frame_stream. intros E.
    apply cut_first in E as [-> E]; [|done..].
    apply cut_first in E as [_ E]; [|done..].
    apply cut_first in E as [_ E]; [|done..].
    apply cut_first in E as [_ E]; [|done..].
    apply cut_first in E as [Hlen%Number_toString_length_inj E]; [|done..].
    apply cut_length in E as [-> ->]; done.
  - intros w h d rest1 e rest2. rewrite image_frame_stream, error_frame_stream.
    intros E. apply cut_first in E as [_ E]; [|done..].
    apply cut_first in E as [E _]; done.
Qed.

Lemma frames_self_delimiting_witness :
  occurs ":" "1" = false ∧ occurs ":" "2" = false ∧
  @image_frame Sample.working "1" (Double.of_Z 1) (Double.of_Z 1) "/tmp/a.png"
    +:+ "2:error:0:0:1:x"
  ≠ error_frame "2" "x" +:+ "".
Proof.
  split; [reflexivity|]. split; [reflexivity|].
  apply (@frames_self_delimiting Sample.working "1" "2"); reflexivity.
Defined.

(* ===================================================================== *)
(** ** Beyond the claims: the macro table of the preamble *)
(* ===================================================================== *)

Ltac string_norm :=
  repeat first [rewrite append_assoc | progress string_cons].

Section Preamble.

Lemma spanNot_group c (g rest : string) :
  occurs c g = false → Latex.spanNot c (g +:+ String c rest) = String.length g.
Proof.
  induction g as [|d g IH]; string_cons; cbn [occurs Latex.spanNot String.length].
  - by rewrite Ascii.eqb_refl.
  - rewrite (Ascii.eqb_sym c d). destruct (Ascii.eqb d c); [done|].
    intros ?. by rewrite IH.
Qed.

Lemma slice0_append (a b : string) : Js.slice0 (String.length a) (a +:+ b) = a.
Proof.
  induction a as [|x a IH]; string_cons; simpl; [by destruct b|]. by rewrite IH.
Qed.

(** A non-empty group without closing brace, followed by a closing brace,
    is read whole. *)
Lemma group_closed (g rest : string) :
  g ≠ "" → occurs Latex.rbrace g = false →
  Latex.group (g +:+ String Latex.rbrace rest) = Some (g, rest).
Proof.
  intros Hne Hfree. unfold Latex.group. cbv zeta.
  rewrite spanNot_group by done.
  pose proof (drop_append g (String Latex.rbrace rest)) as Hd.
  pose proof (slice0_append g (String Latex.rbrace rest)) as Hs.
  destruct (String.length g) eqn:Hn; [by destruct g|].
  by rewrite Hd, Hs.
Qed.

Lemma spanDigits_digits (d rest : string) :
  every Latex.isDigit d = true →
  Latex.spanDigits (d +:+ String "]" rest) = String.length d.
Proof.
  induction d as [|x d IH]; string_cons; cbn [every Latex.spanDigits String.length];
    [done|].
  intros [-> ?]%andb_prop. by rewrite IH.
Qed.

(** The optional arity, followed by an opening brace, is read as written. *)
Lemma arity_text (digits : option string) (rest : string) :
  (∀ d, digits = Some d → d ≠ "" ∧ every Latex.isDigit d = true) →
  Latex.arity (Latex.arityText digits +:+ String "{" rest) = (digits, String "{" rest).
Proof.
  intros Hd. destruct digits as [d|]; [|done].
  destruct (Hd d eq_refl) as [Hne Hdigits].
  unfold Latex.arityText. rewrite !append_assoc. string_cons.
  unfold Latex.arity. cbv zeta. rewrite spanDigits_digits by done.
  pose proof (drop_append d (String "]" (String "{" rest))) as Hdrop.
  pose proof (slice0_append d (String "]" (String "{" rest))) as Hs.
  destruct (String.length d) eqn:Hn; [by destruct d|].
  by rewrite Hdrop, Hs.
Qed.

Lemma length_minus_rest (def rest : string) :
  (String.length (def +:+ rest) - String.length rest)%nat = String.length def.
Proof. rewrite length_append. lia. Qed.

(** The first pattern matches a definition written in full. *)
Lemma newCommandAt_definition (re : bool) (name body rest : string)
    (digits : option string) :
  name ≠ "" → occurs Latex.rbrace name = false →
  body ≠ "" → occurs Latex.rbrace body = false →
  (∀ d, digits = Some d → d ≠ "" ∧ every Latex.isDigit d = true) →
  let def := (if re then "\renewcommand{\" else "\newcommand{\") +:+ name
               +:+ String Latex.rbrace (Latex.arityText digits
               +:+ String "{" (body +:+ String Latex.rbrace "")) in
  Latex.newCommandAt (def +:+ rest)
  = Some (Latex.commandEntry name digits body, String.length def).
Proof.
  intros Hname Hnfree Hbody Hbfree Hdigits def.
  assert (def +:+ rest
          = (if re then "\renewcommand{\" else "\newcommand{\") +:+ name
              +:+ String Latex.rbrace (Latex.arityText digits
              +:+ String "{" (body +:+ String Latex.rbrace rest))) as Hshape.
  { subst def. by string_norm. }
  unfold Latex.newCommandAt. cbv zeta.
  assert ((if Js.startsWith "\renewcommand{\" (def +:+ rest)
           then Some (Js.drop 15 (def +:+ rest))
           else if Js.startsWith "\newcommand{\" (def +:+ rest)
                then Some (Js.drop 13 (def +:+ rest)) else None)
          = Some (name +:+ String Latex.rbrace (Latex.arityText digits
                    +:+ String "{" (body +:+ String Latex.rbrace rest)))) as ->.
  { rewrite Hshape. destruct re.
    - by rewrite startsWith_append.
    - by string_cons. }
  rewrite group_closed by done. rewrite arity_text by done.
  rewrite group_closed by done.
  do 2 f_equal. rewrite <-(length_minus_rest def rest). done.
Qed.

(** A pattern that starts with a backslash finds nothing in a text without
    backslash, and the search goes on after it. *)
Lemma execAll_no_backslash {A} (matchAt : string → option (A * nat)) (pre s : string) :
  (∀ c t, c ≠ Latex.backslash → matchAt (String c t) = None) →
  occurs Latex.backslash pre = false →
  Latex.execAll matchAt 0 (pre +:+ s) = Latex.execAll matchAt 0 s.
Proof.
  intros Hhead. induction pre as [|c pre IH]; [done|].
  cbn [occurs]. intros [Hc Hpre]%orb_false_elim. string_cons.
  cbn [Latex.execAll]. rewrite Hhead; [by apply IH|].
  intros ->. by rewrite Ascii.eqb_refl in Hc.
Qed.

Lemma execAll_skip {A} (matchAt : string → option (A * nat)) (u s : string) :
  Latex.execAll matchAt (String.length u) (u +:+ s) = Latex.execAll matchAt 0 s.
Proof.
  induction u as [|c u IH]; string_cons; simpl; [by destruct s|done].
Qed.

(** After a match the search resumes where the match ended. *)
Lemma execAll_match {A} (matchAt : string → option (A * nat)) (def rest : string) a :
  def ≠ "" →
  matchAt (def +:+ rest) = Some (a, String.length def) →
  Latex.execAll matchAt 0 (def +:+ rest) = a :: Latex.execAll matchAt 0 rest.
Proof.
  destruct def as [|c u]; [done|]. intros _ Hm.
  change (String c u +:+ rest) with (String c (u +:+ rest)) in *.
  cbn [Latex.execAll]. rewrite Hm. f_equal.
  replace (String.length (String c u) - 1)%nat with (String.length u)
    by (simpl; lia).
  apply execAll_skip.
Qed.

Lemma newCommandAt_head c t :
  c ≠ Latex.backslash → Latex.newCommandAt (String c t) = None.
Proof.
  intros Hc. unfold Latex.newCommandAt. cbv zeta.
  cbn [Js.startsWith]. replace (Ascii.eqb "\" c) with false; [done|].
  symmetry. apply Ascii.eqb_neq. intros Heq. apply Hc. by rewrite <-Heq.
Qed.

Lemma mathOperatorAt_head c t :
  c ≠ Latex.backslash → Latex.mathOperatorAt (String c t) = None.
Proof.
  intros Hc. unfold Latex.mathOperatorAt.
  cbn [Js.startsWith]. replace (Ascii.eqb "\" c) with false; [done|].
  symmetry. apply Ascii.eqb_neq. intros Heq. apply Hc. by rewrite <-Heq.
Qed.

(** The second pattern matches an operator declaration written in full. *)
Lemma mathOperatorAt_declaration (star : bool) (name operator rest : string) :
  name ≠ "" → occurs Latex.rbrace name = false →
  operator ≠ "" → occurs Latex.rbrace operator = false →
  let def := "\DeclareMathOperator" +:+ (if star then "*" else "") +:+ "{\" +:+ name
               +:+ String Latex.rbrace (String "{" (operator +:+ String Latex.rbrace "")) in
  Latex.mathOperatorAt (def +:+ rest)
  = Some (Latex.operatorEntry star name operator, String.length def).
Proof.
  intros Hname Hnfree Hop Hofree def.
  assert (def +:+ rest
          = "\DeclareMathOperator" +:+ ((if star then "*" else "") +:+ ("{\" +:+ (name
              +:+ String Latex.rbrace (String "{" (operator
              +:+ String Latex.rbrace rest)))))) as Hshape.
  { subst def. by string_norm. }
  unfold Latex.mathOperatorAt.
  rewrite <-(length_minus_rest def rest). rewrite Hshape.
  rewrite startsWith_append.
  rewrite (drop_append "\DeclareMathOperator").
  destruct star; string_cons; cbn [Js.startsWith Ascii.eqb Bool.eqb Js.drop];
    rewrite group_closed by done; by rewrite group_closed by done.
Qed.

Lemma foldl_assign_lookup (entries : list (string * Latex.Macro))
    (macros : gmap string Latex.Macro) (name : string) :
  name ≠ "__proto__" →
  foldl Latex.assign macros entries !! name =
  match Latex.lastEntry name entries with
  | Some v => Some v
  | None => macros !! name
  end.
Proof.
  intros Hname. revert macros.
  induction entries as [|[n v] entries IH]; intros macros; [done|].
  cbn [foldl Latex.lastEntry]. rewrite IH.
  destruct (Latex.lastEntry name entries); [done|].
  unfold Latex.assign. cbn [fst snd].
  destruct (String.eqb_spec n "__proto__") as [->|Hn].
  - destruct (String.eqb_spec "__proto__" name); congruence.
  - destruct (String.eqb_spec n name) as [->|Hne].
    + apply lookup_insert_eq.
    + by rewrite lookup_insert_ne.
Qed.

Lemma foldl_assign_proto (entries : list (string * Latex.Macro))
    (macros : gmap string Latex.Macro) :
  foldl Latex.assign macros entries !! "__proto__" = macros !! "__proto__".
Proof.
  revert macros. induction entries as [|[n v] entries IH]; intros macros; [done|].
  cbn [foldl]. rewrite IH. unfold Latex.assign. cbn [fst snd].
  destruct (String.eqb_spec n "__proto__") as [->|Hn]; [done|].
  by rewrite lookup_insert_ne.
Qed.

End Preamble.

(** X11: a preamble without a backslash, the empty preamble among them,
    defines nothing: [parseLatexCommands] returns an object without own
    properties. *)
Theorem preamble_without_backslash_is_empty (content : string) :
  occurs "\" content = false → Latex.parseLatexCommands content = ∅.
Proof.
  intros Hfree. unfold Latex.parseLatexCommands, Latex.newCommands, Latex.mathOperators.
  rewrite <-(append_empty_r content).
  rewrite (execAll_no_backslash Latex.newCommandAt content "" newCommandAt_head Hfree).
  by rewrite (execAll_no_backslash Latex.mathOperatorAt content ""
                mathOperatorAt_head Hfree).
Qed.

Lemma preamble_without_backslash_is_empty_witness :
  occurs "\" "% my preamble" = false ∧ Latex.parseLatexCommands "% my preamble" = ∅.
Proof.
  split; [reflexivity|].
  apply (preamble_without_backslash_is_empty "% my preamble"). reflexivity.
Defined.

(** X12: the first loop reads a definition
    [\newcommand{\name}[n]{body}] or [\renewcommand{\name}[n]{body}], the
    arity [[n]] being optional, that follows a text without backslash: the
    name and the body are what stands before the first closing brace (so a
    body ends at its first closing brace, whatever follows); the entry is
    the trimmed body, paired with the number [parseInt] makes of [n] (a
    double: [n] itself up to 2^53) when that number is above 0; and the
    search goes on with what follows the match. *)
Theorem first_command_is_read (re : bool) (pre name body rest : string)
    (digits : option string) :
  occurs "\" pre = false →
  name ≠ "" → occurs "}" name = false →
  body ≠ "" → occurs "}" body = false →
  (∀ d, digits = Some d → d ≠ "" ∧ every Latex.isDigit d = true) →
  Latex.newCommands
    (pre +:+ (if re then "\renewcommand{\" else "\newcommand{\") +:+ name +:+ "}"
       +:+ Latex.arityText digits +:+ "{" +:+ body +:+ "}" +:+ rest)
  = (name,
     if Double.ltb (Double.of_Z 0)
          (match digits with Some d => Latex.parseInt d | None => Double.of_Z 0 end)
     then Latex.WithArgs (Js.trim body)
            (match digits with Some d => Latex.parseInt d | None => Double.of_Z 0 end)
     else Latex.Plain (Js.trim body))
    :: Latex.newCommands rest.
Proof.
  intros Hpre Hname Hnfree Hbody Hbfree Hdigits. unfold Latex.newCommands.
  rewrite (execAll_no_backslash _ pre _ newCommandAt_head Hpre).
  pose proof (newCommandAt_definition re name body rest digits
                Hname Hnfree Hbody Hbfree Hdigits) as Hm. cbv zeta in Hm.
  set (def := (if re then "\renewcommand{\" else "\newcommand{\") +:+ name
                +:+ String Latex.rbrace (Latex.arityText digits
                +:+ String "{" (body +:+ String Latex.rbrace ""))) in Hm.
  replace ((if re then "\renewcommand{\" else "\newcommand{\") +:+ name +:+ "}"
             +:+ Latex.arityText digits +:+ "{" +:+ body +:+ "}" +:+ rest)
    with (def +:+ rest).
  2: { subst def. by string_norm. }
  rewrite (execAll_match _ def rest _ ltac:(subst def; by destruct re) Hm).
  done.
Qed.

Lemma first_command_is_read_witness :
  occurs "\" "% reals " = false ∧
  Latex.newCommands ("% reals " +:+ "\newcommand{\" +:+ "R" +:+ "}"
                       +:+ Latex.arityText None +:+ "{" +:+ "\mathbb{R" +:+ "}" +:+ "}")
  = [("R", Latex.Plain "\mathbb{R")].
Proof.
  split; [reflexivity|].
  apply (first_command_is_read false "% reals " "R" "\mathbb{R" "}" None);
    [reflexivity | discriminate | reflexivity | discriminate | reflexivity
    | discriminate].
Defined.

(** X13: in the table [parseLatexCommands] returns, a name other than
    [__proto__] has the value of the last [\DeclareMathOperator] for it,
    wherever the preamble has it, and otherwise the value of the last
    [\newcommand] or [\renewcommand] for it: operators override commands,
    later definitions override earlier ones.  The name [__proto__] is
    never an own property. *)
Theorem operators_override_commands (content name : string) :
  (name ≠ "__proto__" →
   Latex.parseLatexCommands content !! name =
   match Latex.lastEntry name (Latex.mathOperators content) with
   | Some v => Some v
   | None => Latex.lastEntry name (Latex.newCommands content)
   end) ∧
  Latex.parseLatexCommands content !! "__proto__" = None.
Proof.
  unfold Latex.parseLatexCommands. split.
  - intros Hname. rewrite !foldl_assign_lookup by done.
    destruct (Latex.lastEntry name (Latex.mathOperators content)); [done|].
    by destruct (Latex.lastEntry name (Latex.newCommands content)).
  - by rewrite !foldl_assign_proto.
Qed.

Lemma operators_override_commands_witness :
  Latex.parseLatexCommands
    "\DeclareMathOperator{\tr}{tr} \newcommand{\tr}{T} \newcommand{\tr}{U}" !! "tr"
  = Some (Latex.Plain "\mathop{\mathrm{tr}}").
Proof.
  destruct (operators_override_commands
              "\DeclareMathOperator{\tr}{tr} \newcommand{\tr}{T} \newcommand{\tr}{U}"
              "tr") as [Hlookup _].
  rewrite Hlookup by discriminate. reflexivity.
Defined.

(** X14: the second loop reads a declaration
    [\DeclareMathOperator{\name}{op}], with or without a star, that
    follows a text without backslash: the entry is
    [\mathop{\operatorname*{op}}] with the star and [\mathop{\mathrm{op}}]
    without, the operator being what stands before the first closing
    brace, untrimmed; and the search goes on with what follows. *)
Theorem first_operator_is_read (star : bool) (pre name operator rest : string) :
  occurs "\" pre = false →
  name ≠ "" → occurs "}" name = false →
  operator ≠ "" → occurs "}" operator = false →
  Latex.mathOperators
    (pre +:+ "\DeclareMathOperator" +:+ (if star then "*" else "") +:+ "{\" +:+ name
       +:+ "}{" +:+ operator +:+ "}" +:+ rest)
  = (name,
     Latex.Plain (if star then "\mathop{\operatorname*{" +:+ operator +:+ "}}"
                  else "\mathop{\mathrm{" +:+ operator +:+ "}}"))
    :: Latex.mathOperators rest.
Proof.
  intros Hpre Hname Hnfree Hop Hofree. unfold Latex.mathOperators.
  rewrite (execAll_no_backslash _ pre _ mathOperatorAt_head Hpre).
  pose proof (mathOperatorAt_declaration star name operator rest
                Hname Hnfree Hop Hofree) as Hm. cbv zeta in Hm.
  set (def := "\DeclareMathOperator" +:+ (if star then "*" else "") +:+ "{\" +:+ name
                +:+ String Latex.rbrace (String "{" (operator
                +:+ String Latex.rbrace ""))) in Hm.
  replace ("\DeclareMathOperator" +:+ (if star then "*" else "") +:+ "{\" +:+ name
             +:+ "}{" +:+ operator +:+ "}" +:+ rest)
    with (def +:+ rest).
  2: { subst def. by string_norm. }
  rewrite (execAll_match _ def rest _ ltac:(done) Hm).
  done.
Qed.

Lemma first_operator_is_read_witness :
  occurs "\" "" = false ∧
  Latex.mathOperators ("" +:+ "\DeclareMathOperator" +:+ "*" +:+ "{\" +:+ "argmax"
                         +:+ "}{" +:+ "arg max" +:+ "}" +:+ "")
  = [("argmax", Latex.Plain "\mathop{\operatorname*{arg max}}")].
Proof.
  split; [reflexivity|].
  apply (first_operator_is_read true "" "argmax" "arg max" "");
    [reflexivity | discriminate | reflexivity | discriminate | reflexivity].
Defined.
